(** * Handmade Goods Pricing Assistant: pricing engine, input validation and
    recommendation flow

    A shallow embedding of
      - [src/logic/pricing.py]    ([PricingCalculator]),
      - [src/utils/validation.py] ([validate_pricing_inputs] and its helpers),
      - [src/ai/models.py], [src/ai/config.py], [src/ai/client.py],
        [src/ai/chat_handler.py] and [ChatFrame._generate_recommendations]
        of [src/ui/chat_frame.py],
    followed by the properties of the specification stated over it.

    The Python code computes with [float].  The embedding of each function is
    written once, against an interface [PyFloat] of the float operations the
    source uses, and the interface has two instances:
      - [binary64]: IEEE 754 double precision, the kernel's primitive floats,
        with Python's [round(x, n)] built on their exact binary value.  This
        is what CPython computes.
      - [exactQ]: the same operations on canonical rationals, without
        representation error: the arithmetic the specification's formulas
        are written in.  The program never computes in it: the properties
        of the program below are proved for every instance or for
        [binary64]; [exactQ] only shows where the values the specification
        lists come from. *)

From Stdlib Require Import ZArith QArith Qround Qreduction Qpower Qabs Lia Lqa Bool List.
From Stdlib Require Import Ascii String DecimalString.
From Stdlib Require Import Floats.
Import ListNotations.

Set Implicit Arguments.

(** ** Exceptions *)

Inductive exn : Type :=
| ValueError (msg : string)
| TypeError (msg : string)
| OverflowError (msg : string)
| ZeroDivisionError (msg : string)
| KeyError (key : string)
| JSONDecodeError
| ValidationError (field : string)
| APIError.

Inductive res (A : Type) : Type :=
| Ok (a : A)
| Raise (e : exn).

Arguments Ok {A} a.
Arguments Raise {A} e.

Definition bind {A B : Type} (c : res A) (k : A -> res B) : res B :=
  match c with
  | Ok a => k a
  | Raise e => Raise e
  end.

Declare Scope py_scope.
Delimit Scope py_scope with py.
Notation "x <- c ;; k" := (bind c (fun x => k))
  (at level 61, c at next level, right associativity) : py_scope.

(** ** The float interface *)

Class PyFloat (F : Type) : Type := {
  (** the float an [int] literal of the source becomes when it is mixed
      into float arithmetic ([5], [100], [0]) *)
  of_int : Z -> F;
  (** [float(n)] for an arbitrary [int]: [OverflowError] beyond the range *)
  float_of_int : Z -> res F;
  (** a decimal float literal, given by the fraction it denotes *)
  lit : Q -> F;
  add : F -> F -> F;
  sub : F -> F -> F;
  mul : F -> F -> F;
  (** the quotient when the divisor is not zero *)
  quot : F -> F -> F;
  eqb : F -> F -> bool;
  ltb : F -> F -> bool;
  (** [round(x, ndigits)] *)
  round : F -> nat -> F;
  (** [int(x)]: truncation toward zero; [ValueError] on NaN and
      [OverflowError] on an infinity *)
  to_int : F -> res Z
}.

Class PyFloatLaws (F : Type) `{PyFloat F} : Prop := {
  gt_zero_not_zero : forall x : F, ltb (of_int 0) x = true -> eqb x (of_int 0) = false;
  round_zero : forall n : nat, round (of_int 0) n = of_int 0
}.

Arguments PyFloatLaws F {_}.

Section FloatOps.
Context {F : Type} `{PyFloat F}.

(** [x > y] *)
Definition gtb (x y : F) : bool := ltb y x.

(** [x / y]: Python raises on a zero divisor *)
Definition truediv (x y : F) : res F :=
  if eqb y (of_int 0)
  then Raise (ZeroDivisionError "float division by zero")
  else Ok (quot x y).
End FloatOps.

(** ** Rounding a fraction to the nearest integer, ties to even *)

Definition round_half_even (p : Z) (q : positive) : Z :=
  let d := (p / Zpos q)%Z in
  let r := (p mod Zpos q)%Z in
  match (2 * r ?= Zpos q)%Z with
  | Lt => d
  | Gt => (d + 1)%Z
  | Eq => if Z.even d then d else (d + 1)%Z
  end.

Definition pow10 (n : nat) : positive := Pos.pow 10 (Pos.of_nat n).

Definition scale10 (n : nat) : positive :=
  match n with
  | O => 1%positive
  | S _ => pow10 n
  end.

(** ** Instance 1: exact rationals, kept in lowest terms

    A reference arithmetic, not the program's: no rounding, no overflow and
    no NaN. *)

Module ExactQ.

Definition add (x y : Q) : Q := Qred (x + y).
Definition sub (x y : Q) : Q := Qred (x - y).
Definition mul (x y : Q) : Q := Qred (x * y).
Definition quot (x y : Q) : Q := Qred (x / y).
Definition eqb (x y : Q) : bool := Qeq_bool x y.
Definition ltb (x y : Q) : bool := negb (Qle_bool y x).

(** [round(x, n)]: the multiple of [10^-n] nearest to [x], ties to even *)
Definition round (x : Q) (n : nat) : Q :=
  let s := scale10 n in
  Qred (round_half_even (Qnum x * Zpos s) (Qden x) # s).

Definition to_int (x : Q) : res Z := Ok (Z.quot (Qnum x) (Zpos (Qden x))).

End ExactQ.

#[export] Instance exactQ : PyFloat Q := {
  of_int := inject_Z;
  float_of_int := fun n => Ok (inject_Z n);
  lit := Qred;
  add := ExactQ.add;
  sub := ExactQ.sub;
  mul := ExactQ.mul;
  quot := ExactQ.quot;
  eqb := ExactQ.eqb;
  ltb := ExactQ.ltb;
  round := ExactQ.round;
  to_int := ExactQ.to_int
}.

(** ** Instance 2: IEEE 754 binary64 *)

Module Binary64.

Definition SF64round_div (s : bool) (p q : positive) : spec_float :=
  SF64div (S754_finite s p 0) (S754_finite false q 0).

(** the double nearest to the fraction [p/q] (as [strtod] and the
    compiler's literal conversion give it) *)
Definition nearest (x : Q) : float :=
  match Qnum x with
  | Z0 => PrimFloat.zero
  | Zpos p => SF2Prim (SF64round_div false p (Qden x))
  | Zneg p => SF2Prim (SF64round_div true p (Qden x))
  end.

(** the double nearest to an integer *)
Definition of_int (n : Z) : float := nearest (inject_Z n).

(** [float(n)] raises instead of returning an infinity *)
Definition float_of_int (n : Z) : res float :=
  let f := of_int n in
  if PrimFloat.is_infinity f
  then Raise (OverflowError "int too large to convert to float")
  else Ok f.

(** [round(x, n)] as CPython's [double_round]: the exact binary value of
    [x] is rounded, ties to even, to [n] decimals, and the decimal result is
    converted back to the nearest double.  Zeros, infinities and NaN round
    to themselves. *)
Definition round (x : float) (n : nat) : float :=
  match Prim2SF x with
  | S754_finite s m e =>
      let sc := scale10 n in
      let k :=
        match e with
        | Zneg e' => round_half_even (Zpos (m * sc)) (Pos.pow 2 e')
        | _ => (Zpos (m * sc) * 2 ^ e)%Z
        end in
      match k with
      | Zpos p => SF2Prim (SF64round_div s p sc)
      | _ => if s then PrimFloat.neg_zero else PrimFloat.zero
      end
  | _ => x
  end.

(** the rational a finite double stands for *)
Definition value (x : float) : option Q :=
  match Prim2SF x with
  | S754_zero _ => Some (0 # 1)
  | S754_finite s m e =>
      let a :=
        match e with
        | Zneg e' => Zpos m # Pos.pow 2 e'
        | _ => inject_Z (Zpos m * 2 ^ e)
        end in
      Some (if s then Qopp a else a)
  | _ => None
  end.

Definition to_int (x : float) : res Z :=
  match Prim2SF x with
  | S754_nan => Raise (ValueError "cannot convert float NaN to integer")
  | S754_infinity _ => Raise (OverflowError "cannot convert float infinity to integer")
  | S754_zero _ => Ok 0%Z
  | S754_finite s m e =>
      let a :=
        match e with
        | Zneg e' => (Zpos m / Zpos (Pos.pow 2 e'))%Z
        | _ => (Zpos m * 2 ^ e)%Z
        end in
      Ok (if s then (- a)%Z else a)
  end.

End Binary64.

#[export] Instance binary64 : PyFloat float := {
  of_int := Binary64.of_int;
  float_of_int := Binary64.float_of_int;
  lit := Binary64.nearest;
  add := PrimFloat.add;
  sub := PrimFloat.sub;
  mul := PrimFloat.mul;
  quot := PrimFloat.div;
  eqb := PrimFloat.eqb;
  ltb := PrimFloat.ltb;
  round := Binary64.round;
  to_int := Binary64.to_int
}.

(** ** [src/logic/pricing.py] *)

Module Pricing.

Section Calculator.
Context {F : Type} `{PyFloat F}.

(** The attributes of a [PricingCalculator] instance. *)
Record PricingCalculator : Type := {
  uniqueness_weight : F;
  demand_weight : F;
  economy_modifier : F;
  premium_modifier : F;
  suggested_price_multiplier : F
}.

(** [PricingCalculator.__init__] *)
Definition init : PricingCalculator := {|
  uniqueness_weight := lit (5 # 100);
  demand_weight := lit (4 # 100);
  economy_modifier := lit (85 # 100);
  premium_modifier := lit (125 # 100);
  suggested_price_multiplier := lit (2 # 1)
|}.

(** The local variables of [calculate_price] when control reaches the
    rounding block (line 72). *)
Record locals : Type := {
  l_labor_cost : F;
  l_base_price : F;
  l_uniqueness_adjustment : F;
  l_demand_adjustment : F;
  l_factor_adjustment : F;
  l_adjusted_price : F;
  l_final_price : F;
  l_profit_amount : F;
  l_profit_margin_percentage : F;
  l_markup_percentage : F;
  l_economy_price : F;
  l_premium_price : F
}.

(** The dictionary [calculate_price] returns; its keys are fixed. *)
Record PricingResult : Type := {
  material_cost : F;
  labor_cost : F;
  base_price : F;
  uniqueness_adjustment : F;
  demand_adjustment : F;
  factor_adjustment : F;
  adjusted_price : F;
  profit_amount : F;
  profit_margin_percentage : F;
  markup_percentage : F;
  final_price : F;
  economy_price : F;
  premium_price : F;
  selling_price : F
}.

(** [selling_price is not None and selling_price > 0] *)
Definition price_is_set (selling_price : option F) : bool :=
  match selling_price with
  | Some p => gtb p (of_int 0)
  | None => false
  end.

(** Lines 37-70 of [calculate_price].  The arguments are floats; an [int]
    argument (a rating from the integer validator) enters the arithmetic as the
    float of the same value. *)
Definition calculate_locals (self : PricingCalculator)
    (material_cost hours_worked labor_rate uniqueness demand : F)
    (selling_price : option F) : res locals :=
  let labor_cost := mul hours_worked labor_rate in
  let base_price := add material_cost labor_cost in
  let uniqueness_adjustment :=
    mul (mul base_price (sub uniqueness (of_int 5))) (uniqueness_weight self) in
  let demand_adjustment :=
    mul (mul base_price (sub demand (of_int 5))) (demand_weight self) in
  let factor_adjustment := add uniqueness_adjustment demand_adjustment in
  let adjusted_price := add base_price factor_adjustment in
  let final_price :=
    match selling_price with
    | Some p =>
        if gtb p (of_int 0) then p
        else mul adjusted_price (suggested_price_multiplier self)
    | None => mul adjusted_price (suggested_price_multiplier self)
    end in
  let profit_amount := sub final_price adjusted_price in
  (profit_margin_percentage <-
     (if gtb final_price (of_int 0)
      then (q <- truediv profit_amount final_price ;; Ok (mul q (of_int 100)))
      else Ok (of_int 0)) ;;
   markup_percentage <-
     (if gtb adjusted_price (of_int 0)
      then (q <- truediv profit_amount adjusted_price ;; Ok (mul q (of_int 100)))
      else Ok (of_int 0)) ;;
   let economy_price := mul final_price (economy_modifier self) in
   let premium_price := mul final_price (premium_modifier self) in
   Ok {| l_labor_cost := labor_cost;
         l_base_price := base_price;
         l_uniqueness_adjustment := uniqueness_adjustment;
         l_demand_adjustment := demand_adjustment;
         l_factor_adjustment := factor_adjustment;
         l_adjusted_price := adjusted_price;
         l_final_price := final_price;
         l_profit_amount := profit_amount;
         l_profit_margin_percentage := profit_margin_percentage;
         l_markup_percentage := markup_percentage;
         l_economy_price := economy_price;
         l_premium_price := premium_price |})%py.

(** Lines 72-96: the six roundings and the returned dictionary. *)
Definition rounded_result (material_cost : F) (selling_price : option F)
    (l : locals) : PricingResult :=
  let final_price := round (l_final_price l) 2 in
  let economy_price := round (l_economy_price l) 2 in
  let premium_price := round (l_premium_price l) 2 in
  let profit_amount := round (l_profit_amount l) 2 in
  let profit_margin_percentage := round (l_profit_margin_percentage l) 2 in
  let markup_percentage := round (l_markup_percentage l) 2 in
  {| material_cost := material_cost;
     labor_cost := l_labor_cost l;
     base_price := l_base_price l;
     uniqueness_adjustment := l_uniqueness_adjustment l;
     demand_adjustment := l_demand_adjustment l;
     factor_adjustment := l_factor_adjustment l;
     adjusted_price := l_adjusted_price l;
     profit_amount := profit_amount;
     profit_margin_percentage := profit_margin_percentage;
     markup_percentage := markup_percentage;
     final_price := final_price;
     economy_price := economy_price;
     premium_price := premium_price;
     selling_price :=
       match selling_price with
       | Some p => p
       | None => of_int 0
       end |}.

(** [PricingCalculator.calculate_price] *)
Definition calculate_price (self : PricingCalculator)
    (material_cost hours_worked labor_rate uniqueness demand : F)
    (selling_price : option F) : res PricingResult :=
  (l <- calculate_locals self material_cost hours_worked labor_rate
          uniqueness demand selling_price ;;
   Ok (rounded_result material_cost selling_price l))%py.

(** Attribute assignment [self.<name> = w]. *)
Definition set_uniqueness_weight (self : PricingCalculator) (w : F) :=
  {| uniqueness_weight := w;
     demand_weight := demand_weight self;
     economy_modifier := economy_modifier self;
     premium_modifier := premium_modifier self;
     suggested_price_multiplier := suggested_price_multiplier self |}.

Definition set_demand_weight (self : PricingCalculator) (w : F) :=
  {| uniqueness_weight := uniqueness_weight self;
     demand_weight := w;
     economy_modifier := economy_modifier self;
     premium_modifier := premium_modifier self;
     suggested_price_multiplier := suggested_price_multiplier self |}.

Definition set_economy_modifier (self : PricingCalculator) (w : F) :=
  {| uniqueness_weight := uniqueness_weight self;
     demand_weight := demand_weight self;
     economy_modifier := w;
     premium_modifier := premium_modifier self;
     suggested_price_multiplier := suggested_price_multiplier self |}.

Definition set_premium_modifier (self : PricingCalculator) (w : F) :=
  {| uniqueness_weight := uniqueness_weight self;
     demand_weight := demand_weight self;
     economy_modifier := economy_modifier self;
     premium_modifier := w;
     suggested_price_multiplier := suggested_price_multiplier self |}.

Definition set_suggested_price_multiplier (self : PricingCalculator) (w : F) :=
  {| uniqueness_weight := uniqueness_weight self;
     demand_weight := demand_weight self;
     economy_modifier := economy_modifier self;
     premium_modifier := premium_modifier self;
     suggested_price_multiplier := w |}.

(** [if arg is not None: self.<name> = arg] *)
Definition assign_if_given (set : PricingCalculator -> F -> PricingCalculator)
    (arg : option F) (self : PricingCalculator) : PricingCalculator :=
  match arg with
  | Some w => set self w
  | None => self
  end.

(** [PricingCalculator.update_weights]: every parameter defaults to
    [None]; the method returns nothing, the updated instance is its
    effect. *)
Definition update_weights (self : PricingCalculator)
    (uniqueness_weight demand_weight economy_modifier premium_modifier
       suggested_price_multiplier : option F) : PricingCalculator :=
  let self := assign_if_given set_uniqueness_weight uniqueness_weight self in
  let self := assign_if_given set_demand_weight demand_weight self in
  let self := assign_if_given set_economy_modifier economy_modifier self in
  let self := assign_if_given set_premium_modifier premium_modifier self in
  assign_if_given set_suggested_price_multiplier suggested_price_multiplier self.

(** A supplied weight replaces the stored one, an omitted one keeps it. *)
Definition merged (stored : F) (supplied : option F) : F :=
  match supplied with
  | Some w => w
  | None => stored
  end.

End Calculator.

Arguments PricingCalculator F : clear implicits.
Arguments locals F : clear implicits.
Arguments PricingResult F : clear implicits.

End Pricing.

(** ** Python values reaching the validators *)

(** The arguments of the validation helpers are untyped: a float, an int, a
    string (text typed into an entry) or [None]. *)
Inductive pyval (F : Type) : Type :=
| PyFloatV (x : F)
| PyInt (n : Z)
| PyStr (s : string)
| PyNone.

Arguments PyFloatV {F} x.
Arguments PyInt {F} n.
Arguments PyStr {F} s.
Arguments PyNone {F}.

(** [str(n)] for an [int] *)
Definition str_of_int (n : Z) : string :=
  DecimalString.NilZero.string_of_int (Z.to_int n).

(** [try: body  except (ValueError, TypeError): handler] *)
Definition except_ValueError_TypeError {A : Type} (body handler : res A) : res A :=
  match body with
  | Raise (ValueError _) => handler
  | Raise (TypeError _) => handler
  | _ => body
  end.

(** ** The builtins [float] and [int] *)

Module Builtins.

Section Conversions.
Context {F : Type} `{PyFloat F}.
Local Open Scope string_scope.

(** What [float] and [int] make of the text of a string; [None] when they
    reject it. *)
Variable parse_float : string -> option F.
Variable parse_int : string -> option Z.

(** [float(value)] *)
Definition py_float (value : pyval F) : res F :=
  match value with
  | PyFloatV x => Ok x
  | PyInt n => float_of_int n
  | PyStr s =>
      match parse_float s with
      | Some x => Ok x
      | None => Raise (ValueError ("could not convert string to float: '" ++ s ++ "'"))
      end
  | PyNone =>
      Raise (TypeError "float() argument must be a string or a real number, not 'NoneType'")
  end.

(** [int(value)] *)
Definition py_int (value : pyval F) : res Z :=
  match value with
  | PyFloatV x => to_int x
  | PyInt n => Ok n
  | PyStr s =>
      match parse_int s with
      | Some n => Ok n
      | None => Raise (ValueError ("invalid literal for int() with base 10: '" ++ s ++ "'"))
      end
  | PyNone =>
      Raise (TypeError "int() argument must be a string, a bytes-like object or a real number, not 'NoneType'")
  end.

(** [value > 0] for an untyped value *)
Definition py_gt_zero (value : pyval F) : res bool :=
  match value with
  | PyFloatV x => Ok (gtb x (of_int 0))
  | PyInt n => Ok (n >? 0)%Z
  | PyStr _ => Raise (TypeError "'>' not supported between instances of 'str' and 'int'")
  | PyNone => Raise (TypeError "'>' not supported between instances of 'NoneType' and 'int'")
  end.

End Conversions.

End Builtins.

(** ** [src/utils/validation.py] *)

Module Validation.

Section Validators.
Context {F : Type} `{PyFloat F}.
Local Open Scope string_scope.

Variable parse_float : string -> option F.
Variable parse_int : string -> option Z.

Let py_float := Builtins.py_float parse_float.
Let py_int := Builtins.py_int parse_int.

(** [validate_numeric_input]; the bounds the callers pass are [int]s.  The
    float is compared with the float of the bound, which is the comparison
    Python makes for a bound a double holds exactly (up to 2^53 in absolute
    value, as [exact_bound] says); the callers pass 0, 1 and 10. *)
Definition validate_numeric_input (value : pyval F)
    (min_value max_value : option Z) (field_name : string) : res F :=
  except_ValueError_TypeError
    (float_value <- py_float value ;;
     _ <- match min_value with
          | Some m =>
              if ltb float_value (of_int m)
              then Raise (ValueError (field_name ++ " must be at least " ++ str_of_int m))
              else Ok tt
          | None => Ok tt
          end ;;
     _ <- match max_value with
          | Some m =>
              if gtb float_value (of_int m)
              then Raise (ValueError (field_name ++ " cannot exceed " ++ str_of_int m))
              else Ok tt
          | None => Ok tt
          end ;;
     Ok float_value)%py
    (Raise (ValueError (field_name ++ " must be a valid number"))).

(** [validate_integer_input] *)
Definition validate_integer_input (value : pyval F)
    (min_value max_value : option Z) (field_name : string) : res Z :=
  except_ValueError_TypeError
    (int_value <- py_int value ;;
     _ <- match min_value with
          | Some m =>
              if (int_value <? m)%Z
              then Raise (ValueError (field_name ++ " must be at least " ++ str_of_int m))
              else Ok tt
          | None => Ok tt
          end ;;
     _ <- match max_value with
          | Some m =>
              if (int_value >? m)%Z
              then Raise (ValueError (field_name ++ " cannot exceed " ++ str_of_int m))
              else Ok tt
          | None => Ok tt
          end ;;
     Ok int_value)%py
    (Raise (ValueError (field_name ++ " must be a valid integer"))).

(** The dictionary [validate_pricing_inputs] returns; the key
    [selling_price] may be absent. *)
Record validated : Type := {
  material_cost : F;
  hours_worked : F;
  labor_rate : F;
  uniqueness : Z;
  demand : Z;
  selling_price : option F
}.

(** [validate_pricing_inputs] *)
Definition validate_pricing_inputs
    (material_cost hours_worked labor_rate uniqueness demand selling_price : pyval F)
    : res validated :=
  (validated_material_cost <-
     validate_numeric_input material_cost (Some 0%Z) None "Material cost" ;;
   validated_hours_worked <-
     validate_numeric_input hours_worked (Some 0%Z) None "Hours worked" ;;
   validated_labor_rate <-
     validate_numeric_input labor_rate (Some 0%Z) None "Labor rate" ;;
   validated_uniqueness <-
     validate_integer_input uniqueness (Some 1%Z) (Some 10%Z) "Uniqueness rating" ;;
   validated_demand <-
     validate_integer_input demand (Some 1%Z) (Some 10%Z) "Demand rating" ;;
   validated_selling_price <-
     match selling_price with
     | PyNone => Ok None
     | _ =>
         (v <- validate_numeric_input selling_price (Some 0%Z) None "Selling price" ;;
          Ok (Some v))
     end ;;
   Ok {| material_cost := validated_material_cost;
         hours_worked := validated_hours_worked;
         labor_rate := validated_labor_rate;
         uniqueness := validated_uniqueness;
         demand := validated_demand;
         selling_price :=
           match validated_selling_price with
           | Some v => if gtb v (of_int 0) then Some v else None
           | None => None
           end |})%py.






End Validators.

Arguments validated F : clear implicits.

End Validation.

(** ** [src/ai/models.py] *)

Module Models.

Section Model.
Context {F : Type} `{PyFloat F}.
Local Open Scope string_scope.

(** What the validation of a [float] field makes of text: the float that
    pydantic's lax mode reads from a string, [None] when it rejects it.  This
    is the library's own parser, which is not the builtin [float] on every
    text. *)
Variable parse_float : string -> option F.

(** [x >= y] and [x <= y] *)
Definition geb (x y : F) : bool := ltb y x || eqb x y.
Definition leb (x y : F) : bool := ltb x y || eqb x y.

(** [PricingRecommendation] *)
Record PricingRecommendation : Type := {
  material_cost : F;
  hours_worked : F;
  labor_rate : F;
  uniqueness : F;
  demand : F;
  selling_price : F;
  explanation : string
}.

(** [d[key]] on a dictionary with string keys *)
Fixpoint getitem {V : Type} (d : list (string * V)) (key : string) : res V :=
  match d with
  | [] => Raise (KeyError key)
  | (k, v) :: d' => if String.eqb k key then Ok v else getitem d' key
  end.

(** [key in d] *)
Definition contains {V : Type} (d : list (string * V)) (key : string) : bool :=
  existsb (fun kv => String.eqb (fst kv) key) d.

(** A [float] field with the keyword arguments [ge] and [le], in
    pydantic's lax mode: a float is taken as it is, an [int] is converted to its
    float, text goes through the library's parser [parse_float] and [None] is
    rejected (the case analysis of [Builtins.py_float], with that parser); the
    result is checked against the bounds. *)
Definition float_field (name : string) (ge le : option Z) (v : pyval F) : res F :=
  match Builtins.py_float parse_float v with
  | Ok x =>
      if match ge with Some m => geb x (of_int m) | None => true end
         && match le with Some m => leb x (of_int m) | None => true end
      then Ok x
      else Raise (ValidationError name)
  | Raise _ => Raise (ValidationError name)
  end.

(** A required field of the keyword arguments. *)
Definition required {V : Type} (kwargs : list (string * V)) (name : string) : res V :=
  match getitem kwargs name with
  | Ok v => Ok v
  | Raise _ => Raise (ValidationError name)
  end.

(** [round_to_one_decimal], the validator of [uniqueness] and [demand] *)
Definition round_to_one_decimal (v : F) : F := round v 1.

(** The constructor [PricingRecommendation] applied to keyword arguments: the fields are validated in the
    order of their declaration.  pydantic reports all the failing fields in one
    [ValidationError]; the model names the first. *)
Definition new (kwargs : list (string * pyval F)) : res PricingRecommendation :=
  (material_cost <-
     (v <- required kwargs "material_cost" ;; float_field "material_cost" (Some 0%Z) None v) ;;
   hours_worked <-
     (v <- required kwargs "hours_worked" ;; float_field "hours_worked" (Some 0%Z) None v) ;;
   labor_rate <-
     (v <- required kwargs "labor_rate" ;; float_field "labor_rate" (Some 0%Z) None v) ;;
   uniqueness <-
     (v <- required kwargs "uniqueness" ;;
      x <- float_field "uniqueness" (Some 1%Z) (Some 10%Z) v ;;
      Ok (round_to_one_decimal x)) ;;
   demand <-
     (v <- required kwargs "demand" ;;
      x <- float_field "demand" (Some 1%Z) (Some 10%Z) v ;;
      Ok (round_to_one_decimal x)) ;;
   selling_price <-
     (if contains kwargs "selling_price"
      then (v <- required kwargs "selling_price" ;;
            float_field "selling_price" (Some 0%Z) None v)
      else Ok (of_int 0)) ;;
   explanation <-
     (v <- required kwargs "explanation" ;;
      match v with
      | PyStr s => Ok s
      | _ => Raise (ValidationError "explanation")
      end) ;;
   Ok {| material_cost := material_cost;
         hours_worked := hours_worked;
         labor_rate := labor_rate;
         uniqueness := uniqueness;
         demand := demand;
         selling_price := selling_price;
         explanation := explanation |})%py.

End Model.

Arguments PricingRecommendation F : clear implicits.

(** A message of a conversation: a dictionary with the keys [role] and
    [content]. *)
Record ChatMessage : Type := {
  role : string;
  content : string
}.

End Models.

(** ** [src/ai/config.py] *)

Module Config.

Definition MODEL_NAME : string := "gpt-4o-mini".

Definition PRICING_ADVISOR_PROMPT : string := "
You are an expert pricing assistant for handmade goods. Your goal is to help artisans 
determine the best parameters for pricing their handcrafted items. Ask targeted questions 
to gather information about:

1. Materials used and their costs
2. Time spent creating the item
3. Artisan's experience level and desired hourly rate
4. Uniqueness of the product (how different it is from mass-produced alternatives)
5. Market demand for this type of product
6. Selling price (if they already have one in mind)

Be conversational but focused on gathering relevant information to provide accurate
pricing recommendations. If they have a target profit percentage in mind, explain that 
our system now focuses on costs and selling prices directly, showing the resulting profit.
".

(** [DEFAULT_PRICING_PARAMETERS] *)
Definition DEFAULT_PRICING_PARAMETERS {F : Type} `{PyFloat F} : list (string * pyval F) :=
  [ ("material_cost", PyFloatV (lit (10 # 1)));
    ("hours_worked", PyFloatV (lit (2 # 1)));
    ("labor_rate", PyFloatV (lit (15 # 1)));
    ("uniqueness", PyFloatV (lit (5 # 1)));
    ("demand", PyFloatV (lit (5 # 1)));
    ("selling_price", PyFloatV (lit (0 # 1))) ]%string.

End Config.

(** ** [src/ai/client.py] *)

Module Client.

Import Models.

Section AI.
Context {F : Type} `{PyFloat F}.
Local Open Scope string_scope.

(** The parser of text of the model's [float] fields (see [Models]). *)
Variable parse_float : string -> option F.

(** [json.loads] on the text of a response: the JSON object as a
    dictionary (numbers, strings and null as values), or [JSONDecodeError]. *)
Variable json_loads : string -> res (list (string * pyval F)).

(** A request to the chat completions API: the messages and whether
    [response_format] asks for a JSON object.  The sampling parameters do not
    enter the model. *)
Record request : Type := {
  messages : list ChatMessage;
  json_object : bool
}.

(** [AIClient]: [client] is the OpenAI client, [None] without an API key
    or when its construction failed.  Calling it stands for
    [client.chat.completions.create(...).choices[0].message.content] and
    raises when the request fails. *)
Record AIClient : Type := {
  api_key : option string;
  model_name : string;
  client : option (request -> res string)
}.

(** [AIClient.is_available] *)
Definition is_available (self : AIClient) : bool :=
  match client self, api_key self with
  | Some _, Some _ => true
  | _, _ => false
  end.

Definition create (self : AIClient) (req : request) : res string :=
  match client self with
  | Some c => c req
  | None => Raise (TypeError "'NoneType' object has no attribute 'chat'")
  end.

(** [try: body  except Exception: return None] *)
Definition except_Exception {A : Type} (body : res (option A)) : option A :=
  match body with
  | Ok r => r
  | Raise _ => None
  end.

(** [try: body  except (json.JSONDecodeError, KeyError): return None] *)
Definition except_JSONDecodeError_KeyError {A : Type} (body : res (option A))
    : res (option A) :=
  match body with
  | Raise JSONDecodeError => Ok None
  | Raise (KeyError _) => Ok None
  | _ => body
  end.

(** [AIClient.chat_completion] *)
Definition chat_completion (self : AIClient) (msgs : list ChatMessage) : option string :=
  if negb (is_available self) then None
  else except_Exception
         (content <- create self {| messages := msgs; json_object := false |} ;;
          Ok (Some content))%py.

Definition recommendation_system_prompt : string := "You are a pricing expert for handmade goods. Based on the conversation summary 
                     provided, recommend appropriate pricing parameters. Be realistic and consider 
                     the artisan's experience level, time investment, and material costs.
                     
                     You MUST respond with a valid JSON object containing the following fields:
                     - material_cost: Total cost of materials in dollars (number)
                     - hours_worked: Number of hours spent creating the product (number)
                     - labor_rate: Suggested hourly labor rate in dollars (number)
                     - uniqueness: Rating of product uniqueness on scale of 1-10 (number)
                     - demand: Rating of market demand on scale of 1-10 (number)
                     - selling_price: Optional recommended selling price in dollars (0 for automatic calculation) (number)
                     - explanation: Explanation for the recommendations (string)
                     
                     In most cases, set selling_price to 0 to let the system calculate the price automatically based on costs and market factors. Only provide a specific selling_price if there's a clear market price point that should be targeted regardless of costs.
                     
                     Ensure all number values are reasonable and appropriate.
                     ".

(** The request [get_pricing_recommendation] sends. *)
Definition recommendation_request (conversation_summary : string) : request :=
  {| messages :=
       [ {| role := "system"; content := recommendation_system_prompt |};
         {| role := "user";
            content := "Based on this conversation, recommend pricing parameters:

" ++ conversation_summary |} ];
     json_object := true |}.

(** [AIClient.get_pricing_recommendation] *)
Definition get_pricing_recommendation (self : AIClient)
    (conversation_summary : string) : option (PricingRecommendation F) :=
  if negb (is_available self) then None
  else except_Exception
    (content <- create self (recommendation_request conversation_summary) ;;
     except_JSONDecodeError_KeyError
       (data <- json_loads content ;;
        material_cost <- getitem data "material_cost" ;;
        hours_worked <- getitem data "hours_worked" ;;
        labor_rate <- getitem data "labor_rate" ;;
        uniqueness <- getitem data "uniqueness" ;;
        demand <- getitem data "demand" ;;
        explanation <- getitem data "explanation" ;;
        let recommendation_data :=
          [ ("material_cost", material_cost);
            ("hours_worked", hours_worked);
            ("labor_rate", labor_rate);
            ("uniqueness", uniqueness);
            ("demand", demand);
            ("explanation", explanation) ] in
        recommendation_data <-
          (if contains data "selling_price"
           then (selling_price <- getitem data "selling_price" ;;
                 positive <- Builtins.py_gt_zero selling_price ;;
                 Ok (if positive : bool
                     then recommendation_data ++ [("selling_price", selling_price)]
                     else recommendation_data)%list)
           else Ok recommendation_data) ;;
        recommendation <- Models.new parse_float recommendation_data ;;
        Ok (Some recommendation)))%py.

End AI.

End Client.

(** ** [src/ai/chat_handler.py] *)

Module ChatHandler.

Import Models.

(** [str.capitalize] on ASCII text: the first character in upper case, the
    others in lower case. *)
Definition upper (c : ascii) : ascii :=
  let n := nat_of_ascii c in
  if (97 <=? n)%nat && (n <=? 122)%nat then ascii_of_nat (n - 32) else c.

Definition lower (c : ascii) : ascii :=
  let n := nat_of_ascii c in
  if (65 <=? n)%nat && (n <=? 90)%nat then ascii_of_nat (n + 32) else c.

Fixpoint map_string (f : ascii -> ascii) (s : string) : string :=
  match s with
  | EmptyString => EmptyString
  | String c s' => String (f c) (map_string f s')
  end.

Definition capitalize (s : string) : string :=
  match s with
  | EmptyString => EmptyString
  | String c s' => String (upper c) (map_string lower s')
  end.

(** [sep.join(parts)] *)
Fixpoint join (sep : string) (parts : list string) : string :=
  match parts with
  | [] => EmptyString
  | [p] => p
  | p :: ps => (p ++ sep ++ join sep ps)%string
  end.

Definition newline : string := String (ascii_of_nat 10) EmptyString.

Section Handler.
Context {F : Type} `{PyFloat F}.
Local Open Scope string_scope.

Variable parse_float : string -> option F.
Variable json_loads : string -> res (list (string * pyval F)).

(** The attributes of a [ChatHandler]. *)
Record ChatHandler : Type := {
  ai_client : Client.AIClient;
  conversation_history : list ChatMessage
}.

(** [ChatHandler._initialize_conversation] *)
Definition _initialize_conversation (self : ChatHandler) : ChatHandler :=
  {| ai_client := ai_client self;
     conversation_history :=
       [ {| role := "system"; content := Config.PRICING_ADVISOR_PROMPT |} ] |}.

(** [ChatHandler.__init__] with a given client *)
Definition init (client : Client.AIClient) : ChatHandler :=
  _initialize_conversation {| ai_client := client; conversation_history := [] |}.

(** [ChatHandler.send_message]: the response and the handler after the
    call.  An empty response is falsy. *)
Definition send_message (self : ChatHandler) (user_message : string)
    : option string * ChatHandler :=
  let history :=
    (conversation_history self ++ [ {| role := "user"; content := user_message |} ])%list in
  match Client.chat_completion (ai_client self) history with
  | Some (String c r as response) =>
      (Some response,
       {| ai_client := ai_client self;
          conversation_history :=
            (history ++ [ {| role := "assistant"; content := response |} ])%list |})
  | _ => (None, {| ai_client := ai_client self; conversation_history := history |})
  end.

(** The summary [get_recommendations] builds from the history. *)
Definition conversation_summary (history : list ChatMessage) : string :=
  join newline (map (fun msg => capitalize (role msg) ++ ": " ++ content msg) history).

(** [ChatHandler.get_recommendations]: the value returned, and the
    summaries passed to [ai_client.get_pricing_recommendation] during the
    call, in order. *)
Definition get_recommendations (self : ChatHandler)
    : option (PricingRecommendation F) * list string :=
  if (List.length (conversation_history self) <? 3)%nat then (None, [])
  else
    let summary := conversation_summary (conversation_history self) in
    (* the call cannot raise: [get_pricing_recommendation] catches every
       exception itself, so the handler's own [except] is never entered *)
    (match Client.get_pricing_recommendation parse_float json_loads
             (ai_client self) summary with
     | Some recommendations => Some recommendations
     | None => None
     end,
     [summary]).

(** [ChatHandler.reset_conversation] *)
Definition reset_conversation (self : ChatHandler) : ChatHandler :=
  _initialize_conversation self.

End Handler.

End ChatHandler.

(** ** [src/ui/chat_frame.py]: the recommendation flow of [ChatFrame] *)

Module ChatFrame.

Import Models.

Section Frame.
Context {F : Type} `{PyFloat F}.
Local Open Scope string_scope.

Variable parse_float : string -> option F.
Variable json_loads : string -> res (list (string * pyval F)).

(** The text [_display_recommendations] renders from a recommendation
    (an f-string over its fields). *)
Variable summary_text : PricingRecommendation F -> string.

(** What the flow does to the window, in the order the main thread runs
    the scheduled callbacks. *)
Inductive ui_event : Type :=
| AddMessage (sender_type message : string)
| ApplyButton (recommendations : PricingRecommendation F).

(** [ChatFrame._display_recommendations] *)
Definition _display_recommendations
    (recommendations : option (PricingRecommendation F)) : list ui_event :=
  match recommendations with
  | Some r => [ AddMessage "assistant" (summary_text r); ApplyButton r ]
  | None =>
      [ AddMessage "system"
          "Could not generate recommendations. You can still use the calculator directly." ]
  end.

(** The constructor call of the fallback branch. *)
Definition fallback_recommendation : res (PricingRecommendation F) :=
  (material_cost <- getitem Config.DEFAULT_PRICING_PARAMETERS "material_cost" ;;
   hours_worked <- getitem Config.DEFAULT_PRICING_PARAMETERS "hours_worked" ;;
   labor_rate <- getitem Config.DEFAULT_PRICING_PARAMETERS "labor_rate" ;;
   uniqueness <- getitem Config.DEFAULT_PRICING_PARAMETERS "uniqueness" ;;
   demand <- getitem Config.DEFAULT_PRICING_PARAMETERS "demand" ;;
   selling_price <- getitem Config.DEFAULT_PRICING_PARAMETERS "selling_price" ;;
   Models.new parse_float
     [ ("material_cost", material_cost);
       ("hours_worked", hours_worked);
       ("labor_rate", labor_rate);
       ("uniqueness", uniqueness);
       ("demand", demand);
       ("selling_price", selling_price);
       ("explanation",
        PyStr "These are default recommendations since the AI is not available. In a real scenario, these would be generated based on our conversation.") ])%py.

(** [ChatFrame._generate_recommendations]: the recommendation handed to
    [_display_recommendations], the events on the window, and the summaries
    forwarded to the client. *)
Definition _generate_recommendations (chat_handler : ChatHandler.ChatHandler)
    : res (option (PricingRecommendation F) * list ui_event * list string) :=
  let '(recommendations, forwarded) :=
    ChatHandler.get_recommendations parse_float json_loads chat_handler in
  (fallback <-
     match recommendations with
     | None =>
         if negb (Client.is_available (ChatHandler.ai_client chat_handler))
         then (r <- fallback_recommendation ;;
               Ok (Some r,
                   [ AddMessage "system"
                       "Using default recommendations since the AI is not available. Enter your OpenAI API key in the .env file to enable AI features." ]))
         else Ok (recommendations, [])
     | Some _ => Ok (recommendations, [])
     end ;;
   let '(recommendations, events) := fallback in
   Ok (recommendations, (events ++ _display_recommendations recommendations)%list, forwarded))%py.

End Frame.

Arguments ui_event F : clear implicits.

End ChatFrame.

(** ** Exceptions of the window toolkit *)

(** What a handler of the user interface can see raised: a Python
    exception, or the toolkit's [TclError] (not a [ValueError]). *)
Inductive ui_exn : Type :=
| PyExn (e : exn)
| TclError (msg : string).

(** [str(e)] *)
Definition exn_str (e : exn) : string :=
  match e with
  | ValueError msg => msg
  | TypeError msg => msg
  | OverflowError msg => msg
  | ZeroDivisionError msg => msg
  | KeyError key => ("'" ++ key ++ "'")%string
  | JSONDecodeError => "JSONDecodeError"%string
  | ValidationError field => field
  | APIError => "APIError"%string
  end.

Definition ui_exn_str (e : ui_exn) : string :=
  match e with
  | PyExn e => exn_str e
  | TclError msg => msg
  end.

(** ** [src/ui/input_frame.py] *)

Module InputFrame.

Section Frame.
Context {F : Type} `{PyFloat F}.
Local Open Scope string_scope.

(** What a [tk.DoubleVar] bound to an entry holds: a float, or text that
    [get] cannot read as one, with the message of the [TclError] it raises. *)
Inductive double_var : Type :=
| Holds (x : F)
| Unreadable (message : string).

(** [var.get()] *)
Definition var_get (v : double_var) : ui_exn + F :=
  match v with
  | Holds x => inr x
  | Unreadable message => inl (TclError message)
  end.

(** The attributes of an [InputFrame] the methods below use. *)
Record InputFrame : Type := {
  recommended_values : option (list (string * F));
  material_cost_var : double_var;
  hours_worked_var : double_var;
  labor_rate_var : double_var;
  uniqueness_var : double_var;
  demand_var : double_var;
  selling_price_var : double_var
}.

(** [self.default_values] *)
Definition default_values : list (string * F) :=
  [ ("material_cost", lit (10 # 1));
    ("hours_worked", lit (2 # 1));
    ("labor_rate", lit (15 # 1));
    ("uniqueness", of_int 5);
    ("demand", of_int 5);
    ("selling_price", lit (0 # 1)) ].

(** The value of a key of [default_values]: all six keys are present. *)
Definition default_value (key : string) : F :=
  match Models.getitem default_values key with
  | Ok x => x
  | Raise _ => of_int 0
  end.

(** [InputFrame.__init__] *)
Definition init : InputFrame := {|
  recommended_values := None;
  material_cost_var := Holds (default_value "material_cost");
  hours_worked_var := Holds (default_value "hours_worked");
  labor_rate_var := Holds (default_value "labor_rate");
  uniqueness_var := Holds (default_value "uniqueness");
  demand_var := Holds (default_value "demand");
  selling_price_var := Holds (default_value "selling_price")
|}.

(** The dictionary [get_values] returns: the keyword arguments of
    [calculate_price]. *)
Record values : Type := {
  material_cost : F;
  hours_worked : F;
  labor_rate : F;
  uniqueness : F;
  demand : F;
  selling_price : F
}.

(** [InputFrame.get_values] *)
Definition get_values (self : InputFrame) : ui_exn + values :=
  match var_get (material_cost_var self) with
  | inl e => inl e
  | inr material_cost =>
  match var_get (hours_worked_var self) with
  | inl e => inl e
  | inr hours_worked =>
  match var_get (labor_rate_var self) with
  | inl e => inl e
  | inr labor_rate =>
  match var_get (uniqueness_var self) with
  | inl e => inl e
  | inr u =>
  let uniqueness := round u 1 in
  match var_get (demand_var self) with
  | inl e => inl e
  | inr d =>
  let demand := round d 1 in
  match var_get (selling_price_var self) with
  | inl e => inl e
  | inr selling_price =>
    if ltb material_cost (of_int 0) then
      inl (PyExn (ValueError "Material cost cannot be negative"))
    else if ltb hours_worked (of_int 0) then
      inl (PyExn (ValueError "Hours worked cannot be negative"))
    else if ltb labor_rate (of_int 0) then
      inl (PyExn (ValueError "Labor rate cannot be negative"))
    else if ltb selling_price (of_int 0) then
      inl (PyExn (ValueError "Selling price cannot be negative"))
    else
      inr {| material_cost := material_cost;
             hours_worked := hours_worked;
             labor_rate := labor_rate;
             uniqueness := uniqueness;
             demand := demand;
             selling_price := selling_price |}
  end end end end end end.

(** The value [_sync_slider_from_entry] hands to [slider.set]:
    [max(min_val, min(max_val, value))].  The builtins keep their first
    argument unless the second is strictly smaller, or strictly larger. *)
Definition py_min (a b : F) : F := if ltb b a then b else a.
Definition py_max (a b : F) : F := if ltb a b then b else a.

Definition clamp (min_val max_val value : F) : F :=
  py_max min_val (py_min max_val value).

(** [InputFrame._sync_slider_from_entry]: the new position of the slider;
    an unreadable entry leaves it where it is. *)
Definition _sync_slider_from_entry (var : double_var) (slider min_val max_val : F) : F :=
  match var_get var with
  | inr value => clamp min_val max_val value
  | inl _ => slider
  end.

End Frame.

Arguments InputFrame F : clear implicits.
Arguments double_var F : clear implicits.
Arguments values F : clear implicits.

End InputFrame.

(** ** [src/ui/result_frame.py] *)

Module ResultFrame.

Section Frame.
Context {F : Type} `{PyFloat F}.
Local Open Scope string_scope.

(** The renderings of a float by the format specifications [.2f] and
    [.1f]. *)
Variable format_2f : F -> string.
Variable format_1f : F -> string.

(** [ResultFrame._create_price_breakdown_chart]: the bars are drawn by the
    plotting library; what the model keeps of the call is the exception it
    raises, if any. *)
Variable _create_price_breakdown_chart : Pricing.PricingResult F -> option ui_exn.

(** The text variables of a [ResultFrame]. *)
Record ResultFrame : Type := {
  recommended_price_var : string;
  base_price_var : string;
  economy_price_var : string;
  premium_price_var : string;
  profit_amount_var : string;
  profit_margin_var : string;
  markup_percentage_var : string
}.

(** [ResultFrame.__init__] *)
Definition init : ResultFrame := {|
  recommended_price_var := "$0.00";
  base_price_var := "$0.00";
  economy_price_var := "$0.00";
  premium_price_var := "$0.00";
  profit_amount_var := "$0.00";
  profit_margin_var := "0.0%";
  markup_percentage_var := "0.0%"
|}.

(** [ResultFrame.update_results]: the frame after the call, and the
    exception raised, if any.  The text variables are set before the chart is
    drawn; the result of [calculate_price] always has the key
    [selling_price]. *)
Definition update_results (self : ResultFrame) (result : Pricing.PricingResult F)
    : ResultFrame * option ui_exn :=
  let not_set := eqb (Pricing.selling_price result) (of_int 0) in
  ({| recommended_price_var := "$" ++ format_2f (Pricing.final_price result);
      base_price_var := "$" ++ format_2f (Pricing.base_price result);
      economy_price_var := "$" ++ format_2f (Pricing.economy_price result);
      premium_price_var := "$" ++ format_2f (Pricing.premium_price result);
      profit_amount_var := "$" ++ format_2f (Pricing.profit_amount result);
      profit_margin_var :=
        if not_set then "N/A"
        else format_1f (Pricing.profit_margin_percentage result) ++ "%";
      markup_percentage_var :=
        if not_set then "N/A"
        else format_1f (Pricing.markup_percentage result) ++ "%" |},
   _create_price_breakdown_chart result).

End Frame.

End ResultFrame.

(** ** [src/ui/app.py]: the calculator flow of [PricingAssistantApp] *)

Module App.

Section Application.
Context {F : Type} `{PyFloat F}.
Local Open Scope string_scope.

Variable format_2f : F -> string.
Variable format_1f : F -> string.
Variable _create_price_breakdown_chart : Pricing.PricingResult F -> option ui_exn.

(** A message box of [messagebox.showerror]. *)
Inductive dialog : Type :=
| ShowError (title message : string).

(** The calculator, the two frames of the calculator tab, and the message
    boxes shown so far, oldest first. *)
Record App : Type := {
  calculator : Pricing.PricingCalculator F;
  input_frame : InputFrame.InputFrame F;
  result_frame : ResultFrame.ResultFrame;
  dialogs : list dialog
}.

Definition with_result_frame (self : App) (r : ResultFrame.ResultFrame) : App :=
  {| calculator := calculator self;
     input_frame := input_frame self;
     result_frame := r;
     dialogs := dialogs self |}.

Definition show (self : App) (d : dialog) : App :=
  {| calculator := calculator self;
     input_frame := input_frame self;
     result_frame := result_frame self;
     dialogs := (dialogs self ++ [d])%list |}.

(** The [try] block of [_calculate_price]: the application after it, and
    the exception that ended it, if any. *)
Definition calculate_and_update (self : App) : App * option ui_exn :=
  match InputFrame.get_values (input_frame self) with
  | inl e => (self, Some e)
  | inr values =>
      match Pricing.calculate_price (calculator self)
              (InputFrame.material_cost values) (InputFrame.hours_worked values)
              (InputFrame.labor_rate values) (InputFrame.uniqueness values)
              (InputFrame.demand values) (Some (InputFrame.selling_price values)) with
      | Raise e => (self, Some (PyExn e))
      | Ok results =>
          let '(frame, raised) :=
            ResultFrame.update_results format_2f format_1f _create_price_breakdown_chart
              (result_frame self) results in
          (with_result_frame self frame, raised)
      end
  end.

(** [PricingAssistantApp._calculate_price] *)
Definition _calculate_price (self : App) : App :=
  match calculate_and_update self with
  | (self, None) => self
  | (self, Some (PyExn (ValueError msg))) => show self (ShowError "Invalid Input" msg)
  | (self, Some e) => show self (ShowError "Error" ("An error occurred: " ++ ui_exn_str e))
  end.

End Application.

Arguments App F : clear implicits.

End App.

(** ** [src/main.py]: the geometry of the main window *)

Module Main.

(** The size and position [main] gives the window on a screen of the given
    width and height: [(window_width, window_height, x, y)]. *)
Definition geometry (screen_width screen_height : Z) : Z * Z * Z * Z :=
  let window_width := Z.min 1200 (screen_width - 100) in
  let window_height := Z.min 900 (screen_height - 100) in
  let x := ((screen_width - window_width) / 2)%Z in
  let y := ((screen_height - window_height) / 2)%Z in
  (window_width, window_height, x, y).

End Main.

(** ** Vocabulary of the further properties *)

(** The argument a later call of [update_weights] leaves in force: its own
    when supplied, else the earlier one. *)
Definition later_wins {A : Type} (later earlier : option A) : option A :=
  match later with
  | Some _ => later
  | None => earlier
  end.

(** [send_message] for each message of a list, in order. *)
Fixpoint send_messages (h : ChatHandler.ChatHandler) (msgs : list string)
    : ChatHandler.ChatHandler :=
  match msgs with
  | [] => h
  | m :: rest => send_messages (snd (ChatHandler.send_message h m)) rest
  end.

(** A bound of [validate_numeric_input] that a float holds exactly: then
    comparing a float with the [int] is comparing it with the float of the
    [int]. *)
Definition exact_bound (bound : option Z) : Prop :=
  match bound with
  | Some m => (Z.abs m <= 2 ^ 53)%Z
  | None => True
  end.

Section RecommendationVocabulary.
Context {F : Type} `{PyFloat F}.
Variable parse_float : string -> option F.
Import Models.
Local Open Scope string_scope.

(** The float [x] is what [float] makes of the entry [key] of a dictionary,
    and is at least 0. *)
Definition cost_from (d : list (string * pyval F)) (key : string) (x : F) : Prop :=
  exists v,
    getitem d key = Ok v /\
    Builtins.py_float parse_float v = Ok x /\
    geb x (of_int 0) = true.

(** The float [x] is the rounding to one decimal of what [float] makes of
    the entry [key], which lies between 1 and 10. *)
Definition rating_from (d : list (string * pyval F)) (key : string) (x : F) : Prop :=
  exists v y,
    getitem d key = Ok v /\
    Builtins.py_float parse_float v = Ok y /\
    geb y (of_int 1) = true /\
    leb y (of_int 10) = true /\
    x = round y 1.

(** The recommendation [r] holds the validated fields of the keyword
    arguments. *)
Definition built_from (kwargs : list (string * pyval F))
    (r : PricingRecommendation F) : Prop :=
  cost_from kwargs "material_cost" (material_cost r) /\
  cost_from kwargs "hours_worked" (hours_worked r) /\
  cost_from kwargs "labor_rate" (labor_rate r) /\
  rating_from kwargs "uniqueness" (uniqueness r) /\
  rating_from kwargs "demand" (demand r) /\
  (if contains kwargs "selling_price"
   then cost_from kwargs "selling_price" (selling_price r)
   else selling_price r = of_int 0) /\
  getitem kwargs "explanation" = Ok (PyStr (explanation r)).

(** The names of the fields of [PricingRecommendation]. *)
Definition field_names : list string :=
  [ "material_cost"; "hours_worked"; "labor_rate"; "uniqueness"; "demand";
    "selling_price"; "explanation" ].

End RecommendationVocabulary.

(** ** Signs of doubles *)

(** The double carries the sign [s], or is a NaN. *)
Definition sign_or_nan (s : bool) (z : spec_float) : Prop :=
  match z with
  | S754_nan => True
  | S754_zero s' | S754_infinity s' | S754_finite s' _ _ => s' = s
  end.

(** The double is not zero and not a NaN, and carries the sign [s]. *)
Definition nonzero_of_sign (s : bool) (z : spec_float) : Prop :=
  match z with
  | S754_infinity s' | S754_finite s' _ _ => s' = s
  | _ => False
  end.

(** ** Rounding and values of doubles *)

Section DoubleRounding.
Local Open Scope Z_scope.

(** The state of a right shift of [m] by [k] bits, with [half = 2^(k-1)]:
    [r] holds the quotient, and its round and sticky bits tell where the
    remainder lies. *)
Definition shifted (m : Z) (half : Z) (r : shr_record) : Prop :=
  exists rem,
    m = shr_m r * (2 * half) + rem /\
    0 <= rem < 2 * half /\
    (shr_r r = true -> half <= rem) /\
    (shr_r r = false -> rem < half) /\
    (shr_s r = true -> rem <> 0 /\ rem <> half) /\
    (shr_s r = false -> rem = 0 \/ rem = half).

(** The mantissa [q] at the exponent [e1] is the rounding of the exact
    mantissa [m] at the exponent [e]: equal when the exponent is kept, within
    half a unit when it is raised. *)
Definition rounded_to (m : positive) (e e1 q : Z) : Prop :=
  0 <= q <= 2 ^ 53 /\
  (e1 = e -> q = Zpos m) /\
  (e < e1 -> - 2 ^ (e1 - e - 1) <= q * 2 ^ (e1 - e) - Zpos m <= 2 ^ (e1 - e - 1)).

(** The double of sign [s] with the mantissa [q] at the exponent [e1]: the
    mantissa [2^53], which rounding up can give, is renormalised, and an
    exponent above the largest gives an infinity. *)
Definition packed (s : bool) (q e1 : Z) : spec_float :=
  match q with
  | Z0 => S754_zero s
  | Zpos p =>
      if q =? 2 ^ 53
      then if e1 + 1 <=? emax - prec then S754_finite s (2 ^ 52)%positive (e1 + 1)
           else S754_infinity s
      else if e1 <=? emax - prec then S754_finite s p e1 else S754_infinity s
  | Zneg _ => S754_nan
  end.

(** The double is not a NaN and carries the sign [s]. *)
Definition has_sign (s : bool) (z : spec_float) : Prop :=
  match z with
  | S754_nan => False
  | S754_zero s' | S754_infinity s' | S754_finite s' _ _ => s' = s
  end.

(** At least zero: a zero of either sign, a positive double or [+inf]. *)
Definition at_least_zero (z : spec_float) : Prop :=
  match z with
  | S754_zero _ => True
  | S754_infinity s | S754_finite s _ _ => s = false
  | S754_nan => False
  end.

End DoubleRounding.

Section DoubleValues.
Local Open Scope Q_scope.

(** [v] with the sign [s]. *)
Definition signed (s : bool) (v : Q) : Q := if s then - v else v.

(** The rational a finite double stands for, [0] for the others. *)
Definition SFreal (z : spec_float) : Q :=
  match z with
  | S754_finite s m e => signed s (inject_Z (Zpos m) * 2 ^ e)
  | _ => 0
  end.

(** Neither an infinity nor a NaN. *)
Definition SFfinite (z : spec_float) : Prop :=
  match z with
  | S754_zero _ | S754_finite _ _ _ => True
  | _ => False
  end.

(** Half a unit in the last place of 1, and half the smallest positive
    double. *)
Definition eps : Q := 1 # 9007199254740992.
Definition eta : Q := 2 ^ (-1075).

(** [z] is a finite double within the rounding error of the exact [X]
    (relative [2^-53], absolute [h]), on the same side of zero. *)
Definition approx (h X : Q) (z : spec_float) : Prop :=
  SFfinite z /\
  Qabs (SFreal z - X) <= Qabs X * eps + h /\
  (0 <= X -> 0 <= SFreal z) /\
  (X <= 0 -> SFreal z <= 0).

(** The same of a primitive float, through [Binary64.value]. *)
Definition approxF (h X : Q) (z : float) : Prop :=
  exists v, Binary64.value z = Some v /\
    Qabs (v - X) <= Qabs X * eps + h /\
    (0 <= X -> 0 <= v) /\ (X <= 0 -> v <= 0).

End DoubleValues.

(** ** Order laws of the two instances *)

Class PyOrderLaws (F : Type) `{PyFloat F} : Prop := {
  ltb_asym : forall x y : F, ltb x y = true -> ltb y x = false;
  eqb_not_ltb : forall x y : F, eqb x y = true -> ltb x y = false
}.

Arguments PyOrderLaws F {_}.

(** ** The scenario of the specification and the inputs of the examples *)

Section Scenario.
Import Pricing.
Local Open Scope float_scope.

(** The values the specification lists for the scenario. *)
Definition simple_jewelry_listed : Pricing.PricingResult float := {|
  material_cost := 5;
  labor_cost := 30;
  base_price := 35;
  uniqueness_adjustment := 1.75;
  demand_adjustment := lit 2.8%Q;
  factor_adjustment := lit 4.55%Q;
  adjusted_price := lit 39.55%Q;
  profit_amount := lit 39.55%Q;
  profit_margin_percentage := 50;
  markup_percentage := 100;
  final_price := lit 79.10%Q;
  economy_price := lit 67.24%Q;
  premium_price := lit 98.88%Q;
  selling_price := 0
|}.

End Scenario.

Section FlowExamples.
Import Models.
Local Open Scope float_scope.
Local Open Scope string_scope.

(** The recommendation of the fallback branch. *)
Definition default_recommendation : PricingRecommendation float := {|
  material_cost := 10;
  hours_worked := 2;
  labor_rate := 15;
  uniqueness := 5;
  demand := 5;
  selling_price := 0;
  explanation :=
    "These are default recommendations since the AI is not available. In a real scenario, these would be generated based on our conversation."
|}.

Definition default_notice : string :=
  "Using default recommendations since the AI is not available. Enter your OpenAI API key in the .env file to enable AI features.".

Definition could_not_generate : string :=
  "Could not generate recommendations. You can still use the calculator directly.".

(** A client with an API key whose every request fails: the network is
    down. *)
Definition offline_client : Client.AIClient := {|
  Client.api_key := Some "sk-test";
  Client.model_name := Config.MODEL_NAME;
  Client.client := Some (fun _ => Raise APIError)
|}.

(** The client of an installation without an API key. *)
Definition unavailable_client : Client.AIClient := {|
  Client.api_key := None;
  Client.model_name := Config.MODEL_NAME;
  Client.client := None
|}.

(** A client whose responses are plain text. *)
Definition garbled_client : Client.AIClient := {|
  Client.api_key := Some "sk-test";
  Client.model_name := Config.MODEL_NAME;
  Client.client := Some (fun _ => Ok "I cannot answer that.")
|}.

(** [json.loads] on text that is not JSON. *)
Definition not_json : string -> res (list (string * pyval float)) :=
  fun _ => Raise JSONDecodeError.

(** [float] and [int] rejecting every text: the parsers play no part on
    float and int arguments. *)
Definition no_float_text : string -> option float := fun _ => None.
Definition no_int_text : string -> option Z := fun _ => None.

(** A stand-in for the text rendered from a recommendation. *)
Definition plain_summary (r : Models.PricingRecommendation float) : string :=
  Models.explanation r.

(** The handler after the greeting and one more message of the user. *)
Definition after_two_messages (c : Client.AIClient) : ChatHandler.ChatHandler :=
  let h0 := ChatHandler.init c in
  let h1 := snd (ChatHandler.send_message h0
                   "Hello! I'm looking for help with pricing a handmade item.") in
  snd (ChatHandler.send_message h1 "I make silver rings, about two hours each.").

(** A client that answers every request with the same text. *)
Definition answering_client : Client.AIClient := {|
  Client.api_key := Some "sk-test";
  Client.model_name := Config.MODEL_NAME;
  Client.client := Some (fun _ => Ok "Silver rings of this kind sell well.")
|}.

(** [json.loads] on a response that is a JSON object with the seven
    fields, the selling price negative. *)
Definition parsed_response : string -> res (list (string * pyval float)) :=
  fun _ =>
    Ok [ ("material_cost", PyFloatV (lit (25 # 2)));
         ("hours_worked", PyInt 3);
         ("labor_rate", PyInt 20);
         ("uniqueness", PyFloatV (lit (768 # 100)));
         ("demand", PyInt 8);
         ("selling_price", PyInt (-5));
         ("explanation", PyStr "Silver rings of this kind sell well.") ].

(** The handler after one message of the user that the AI answered: two
    turns after the system prompt. *)
Definition after_one_answer : ChatHandler.ChatHandler :=
  snd (ChatHandler.send_message (ChatHandler.init answering_client) "I make silver rings.").

(** The summary of that conversation. *)
Definition one_answer_summary : string :=
  "System: " ++ Config.PRICING_ADVISOR_PROMPT ++ ChatHandler.newline
  ++ "User: I make silver rings." ++ ChatHandler.newline
  ++ "Assistant: Silver rings of this kind sell well.".

End FlowExamples.

Section FormExamples.
Local Open Scope string_scope.

(** Stand-ins for the two format specifications and for a chart that is
    drawn without an exception. *)
Definition two_decimals : float -> string := fun _ => "0.00".
Definition one_decimal : float -> string := fun _ => "0.0".
Definition chart_drawn : Pricing.PricingResult float -> option ui_exn := fun _ => None.

(** The application when the calculator tab has just been built. *)
Definition new_calculator_tab : App.App float := {|
  App.calculator := Pricing.init;
  App.input_frame := InputFrame.init;
  App.result_frame := ResultFrame.init;
  App.dialogs := []
|}.

(** The same after a click on the Calculate button. *)
Definition after_calculate : App.App float :=
  App._calculate_price two_decimals one_decimal chart_drawn new_calculator_tab.

End FormExamples.

(** * Properties *)

Unset Implicit Arguments.

(** ** Laws of the two instances *)

#[export] Instance exactQ_laws : PyFloatLaws Q.
Proof.
  split.
  - intros x Hlt. cbn in *. unfold ExactQ.ltb, ExactQ.eqb in *.
    destruct (Qeq_bool x (inject_Z 0)) eqn:E; [ | reflexivity ].
    apply Qeq_bool_iff in E.
    assert (L : Qle_bool x (inject_Z 0) = true) by (apply Qle_bool_iff; rewrite E; apply Qle_refl).
    rewrite L in Hlt. discriminate.
  - intros n. reflexivity.
Qed.

#[export] Instance binary64_laws : PyFloatLaws float.
Proof.
  split.
  - intros x. cbn. change (Binary64.of_int 0) with PrimFloat.zero.
    rewrite ltb_spec, eqb_spec.
    change (Prim2SF PrimFloat.zero) with (S754_zero false).
    destruct (Prim2SF x) as [ s | s | | s m e ]; try destruct s; cbn; congruence.
  - intros n. reflexivity.
Qed.

(** ** The pricing engine, for any float arithmetic *)

Section PricingProperties.
Context {F : Type} `{PyFloat F}.
Import Pricing.

(** C6: [update_weights] is a partial merge.  Whatever subset of the five
    parameters is supplied, each supplied parameter replaces the stored
    weight and each omitted one leaves it as it was; in particular
    [update_weights(demand_weight=w)] changes [demand_weight] alone. *)
Theorem update_weights_partial_merge :
  forall (self : PricingCalculator F) (uw dw em pm spm : option F),
    let self' := update_weights self uw dw em pm spm in
    (uniqueness_weight self' = merged (uniqueness_weight self) uw /\
     demand_weight self' = merged (demand_weight self) dw /\
     economy_modifier self' = merged (economy_modifier self) em /\
     premium_modifier self' = merged (premium_modifier self) pm /\
     suggested_price_multiplier self' = merged (suggested_price_multiplier self) spm) /\
    (forall w : F,
        let only := update_weights self None (Some w) None None None in
        demand_weight only = w /\
        uniqueness_weight only = uniqueness_weight self /\
        economy_modifier only = economy_modifier self /\
        premium_modifier only = premium_modifier self /\
        suggested_price_multiplier only = suggested_price_multiplier self).
Proof.
  intros self uw dw em pm spm. cbv zeta. split.
  - destruct uw, dw, em, pm, spm; repeat split; reflexivity.
  - intros w. repeat split; reflexivity.
Qed.

(** Inversion of a successful call: the locals exist and the result is
    their rounding. *)
Lemma calculate_price_inv :
  forall (self : PricingCalculator F) mc hw lr u d sp r,
    calculate_price self mc hw lr u d sp = Ok r ->
    exists l,
      calculate_locals self mc hw lr u d sp = Ok l /\
      r = rounded_result mc sp l.
Proof.
  intros self mc hw lr u d sp r Hr. unfold calculate_price in Hr.
  destruct (calculate_locals self mc hw lr u d sp) as [l | e]; cbn in Hr.
  - exists l. split; [ reflexivity | congruence ].
  - discriminate.
Qed.

(** The values of the locals that do not go through a division. *)
Lemma calculate_locals_inv :
  forall (self : PricingCalculator F) mc hw lr u d sp l,
    calculate_locals self mc hw lr u d sp = Ok l ->
    let base := add mc (mul hw lr) in
    let ua := mul (mul base (sub u (of_int 5))) (uniqueness_weight self) in
    let da := mul (mul base (sub d (of_int 5))) (demand_weight self) in
    let adjusted := add base (add ua da) in
    let final :=
      if price_is_set sp
      then match sp with Some p => p | None => of_int 0 end
      else mul adjusted (suggested_price_multiplier self) in
    l_labor_cost l = mul hw lr /\
    l_base_price l = base /\
    l_uniqueness_adjustment l = ua /\
    l_demand_adjustment l = da /\
    l_factor_adjustment l = add ua da /\
    l_adjusted_price l = adjusted /\
    l_final_price l = final /\
    l_profit_amount l = sub final adjusted /\
    l_economy_price l = mul final (economy_modifier self) /\
    l_premium_price l = mul final (premium_modifier self) /\
    l_profit_margin_percentage l =
      (if gtb final (of_int 0)
       then mul (quot (sub final adjusted) final) (of_int 100) else of_int 0) /\
    l_markup_percentage l =
      (if gtb adjusted (of_int 0)
       then mul (quot (sub final adjusted) adjusted) (of_int 100) else of_int 0).
Proof.
  intros self mc hw lr u d sp l Hl. cbv zeta.
  unfold calculate_locals in Hl.
  assert (Hfin :
    match sp with
    | Some p =>
        if gtb p (of_int 0) then p
        else mul (add (add mc (mul hw lr))
                   (add (mul (mul (add mc (mul hw lr)) (sub u (of_int 5))) (uniqueness_weight self))
                        (mul (mul (add mc (mul hw lr)) (sub d (of_int 5))) (demand_weight self))))
                 (suggested_price_multiplier self)
    | None =>
        mul (add (add mc (mul hw lr))
               (add (mul (mul (add mc (mul hw lr)) (sub u (of_int 5))) (uniqueness_weight self))
                    (mul (mul (add mc (mul hw lr)) (sub d (of_int 5))) (demand_weight self))))
            (suggested_price_multiplier self)
    end =
    if price_is_set sp
    then match sp with Some p => p | None => of_int 0 end
    else mul (add (add mc (mul hw lr))
               (add (mul (mul (add mc (mul hw lr)) (sub u (of_int 5))) (uniqueness_weight self))
                    (mul (mul (add mc (mul hw lr)) (sub d (of_int 5))) (demand_weight self))))
             (suggested_price_multiplier self)).
  { destruct sp as [p | ]; cbn; [ destruct (gtb p (of_int 0)) | ]; reflexivity. }
  cbv zeta in Hl. rewrite Hfin in Hl. clear Hfin.
  set (adjusted := add (add mc (mul hw lr)) _) in *.
  set (final := if price_is_set sp then _ else _) in *.
  unfold truediv in Hl.
  destruct (gtb final (of_int 0)); destruct (gtb adjusted (of_int 0));
    cbn in Hl;
    repeat match type of Hl with
           | context [if ?c then _ else _] => destruct c; cbn in Hl
           end;
    try discriminate;
    injection Hl as <-; cbn; repeat split; reflexivity.
Qed.

End PricingProperties.

Section PricingGeneral.
Context {F : Type} `{PyFloat F}.
Import Pricing.

(** C1, as the code has it: the price selected by the sentinel convention is
    rounded on the way out.  A call that returns [r] has
    [r.final_price = round(adjusted_price * suggested_price_multiplier, 2)]
    when [selling_price] is absent or not above 0, and
    [r.final_price = round(P, 2)] when [selling_price = P > 0]; before the
    rounding block the local [final_price] is the unrounded product, and [P]
    itself, respectively. *)
Theorem final_price_sentinel_rounded :
  forall (self : PricingCalculator F) mc hw lr u d sp r,
    calculate_price self mc hw lr u d sp = Ok r ->
    exists l,
      calculate_locals self mc hw lr u d sp = Ok l /\
      final_price r = round (l_final_price l) 2 /\
      (price_is_set sp = false ->
       l_final_price l = mul (adjusted_price r) (suggested_price_multiplier self)) /\
      (forall P, sp = Some P -> gtb P (of_int 0) = true -> l_final_price l = P).
Proof.
  intros self mc hw lr u d sp r Hr.
  destruct (calculate_price_inv _ _ _ _ _ _ _ _ Hr) as (l & Hl & ->).
  exists l. split; [ exact Hl | ].
  pose proof (calculate_locals_inv _ _ _ _ _ _ _ _ Hl) as Hinv. cbv zeta in Hinv.
  destruct Hinv as (_ & _ & _ & _ & _ & Hadj & Hfin & _).
  split; [ reflexivity | ]. split.
  - intros Hunset. rewrite Hfin, Hunset. cbn. rewrite Hadj. reflexivity.
  - intros P -> HP. rewrite Hfin. cbn. rewrite HP. reflexivity.
Qed.

(** C3, as the code has it: the rounding block rounds six values and no
    more.  In the dictionary a call returns, [final_price], [economy_price],
    [premium_price], [profit_amount], [profit_margin_percentage] and
    [markup_percentage] are [round(., 2)] of the full-precision locals, while
    [material_cost], [labor_cost], [base_price], [uniqueness_adjustment],
    [demand_adjustment], [factor_adjustment] and [adjusted_price] are the
    full-precision values themselves. *)
Theorem six_fields_rounded_seven_unrounded :
  forall (self : PricingCalculator F) mc hw lr u d sp r,
    calculate_price self mc hw lr u d sp = Ok r ->
    exists l,
      calculate_locals self mc hw lr u d sp = Ok l /\
      (final_price r = round (l_final_price l) 2 /\
       economy_price r = round (mul (l_final_price l) (economy_modifier self)) 2 /\
       premium_price r = round (mul (l_final_price l) (premium_modifier self)) 2 /\
       profit_amount r = round (sub (l_final_price l) (adjusted_price r)) 2 /\
       profit_margin_percentage r = round (l_profit_margin_percentage l) 2 /\
       markup_percentage r = round (l_markup_percentage l) 2) /\
      (material_cost r = mc /\
       labor_cost r = mul hw lr /\
       base_price r = add mc (mul hw lr) /\
       uniqueness_adjustment r =
         mul (mul (base_price r) (sub u (of_int 5))) (uniqueness_weight self) /\
       demand_adjustment r =
         mul (mul (base_price r) (sub d (of_int 5))) (demand_weight self) /\
       factor_adjustment r = add (uniqueness_adjustment r) (demand_adjustment r) /\
       adjusted_price r = add (base_price r) (factor_adjustment r)).
Proof.
  intros self mc hw lr u d sp r Hr.
  destruct (calculate_price_inv _ _ _ _ _ _ _ _ Hr) as (l & Hl & ->).
  exists l. split; [ exact Hl | ].
  pose proof (calculate_locals_inv _ _ _ _ _ _ _ _ Hl) as Hinv. cbv zeta in Hinv.
  destruct Hinv as (Hlab & Hbase & Hua & Hda & Hfa & Hadj & Hfin & Hprof & Heco & Hprem & _).
  cbn. split.
  - rewrite Heco, Hprem, Hprof, Hfin, Hadj. repeat split; reflexivity.
  - rewrite Hlab, Hbase, Hua, Hda, Hfa, Hadj. repeat split; reflexivity.
Qed.

(** With the laws of the arithmetic, no division raises. *)
Lemma calculate_locals_total :
  forall (L : PyFloatLaws F) (self : PricingCalculator F) mc hw lr u d sp,
    exists l, calculate_locals self mc hw lr u d sp = Ok l.
Proof.
  intros L self mc hw lr u d sp.
  assert (Hdiv : forall x y, gtb y (of_int 0) = true -> truediv x y = Ok (quot x y)).
  { intros x y Hy. unfold truediv. unfold gtb in Hy.
    rewrite (gt_zero_not_zero _ Hy). reflexivity. }
  unfold calculate_locals. cbv zeta.
  set (adjusted := add (add mc (mul hw lr)) _).
  set (final := match sp with Some _ => _ | None => _ end).
  destruct (gtb final (of_int 0)) eqn:Ef; destruct (gtb adjusted (of_int 0)) eqn:Ea;
    rewrite ?(Hdiv _ _ Ef), ?(Hdiv _ _ Ea); cbn; eexists; reflexivity.
Qed.

Lemma zero_not_gt_zero :
  forall (L : PyFloatLaws F) (y : F),
    eqb y (of_int 0) = true -> gtb y (of_int 0) = false.
Proof.
  intros L y Hy. unfold gtb. destruct (ltb (of_int 0) y) eqn:E; [ | reflexivity ].
  rewrite (gt_zero_not_zero _ E) in Hy. discriminate.
Qed.

(** C5, as the code has it.  [calculate_price] returns a result on every
    input and raises nothing: the result is the dictionary below, every field
    computed by its formula, the two percentages by a division that runs only
    when its divisor is above 0.  Whenever the adjusted price equals 0, or is
    not above 0, the returned [markup_percentage] is 0; whenever the final
    price the guard tests (the local, before rounding) equals 0, or is not
    above 0, the returned [profit_margin_percentage] is 0. *)
Theorem calculate_price_total_and_guarded :
  forall (L : PyFloatLaws F) (self : PricingCalculator F) mc hw lr u d sp,
    let labor := mul hw lr in
    let base := add mc labor in
    let ua := mul (mul base (sub u (of_int 5))) (uniqueness_weight self) in
    let da := mul (mul base (sub d (of_int 5))) (demand_weight self) in
    let factor := add ua da in
    let adjusted := add base factor in
    let final :=
      if price_is_set sp
      then match sp with Some p => p | None => of_int 0 end
      else mul adjusted (suggested_price_multiplier self) in
    let profit := sub final adjusted in
    let margin :=
      if gtb final (of_int 0) then mul (quot profit final) (of_int 100) else of_int 0 in
    let markup :=
      if gtb adjusted (of_int 0) then mul (quot profit adjusted) (of_int 100) else of_int 0 in
    calculate_price self mc hw lr u d sp =
    Ok {| material_cost := mc;
          labor_cost := labor;
          base_price := base;
          uniqueness_adjustment := ua;
          demand_adjustment := da;
          factor_adjustment := factor;
          adjusted_price := adjusted;
          profit_amount := round profit 2;
          profit_margin_percentage := round margin 2;
          markup_percentage := round markup 2;
          final_price := round final 2;
          economy_price := round (mul final (economy_modifier self)) 2;
          premium_price := round (mul final (premium_modifier self)) 2;
          selling_price := match sp with Some p => p | None => of_int 0 end |} /\
    (eqb adjusted (of_int 0) = true -> round markup 2 = of_int 0) /\
    (gtb adjusted (of_int 0) = false -> round markup 2 = of_int 0) /\
    (eqb final (of_int 0) = true -> round margin 2 = of_int 0) /\
    (gtb final (of_int 0) = false -> round margin 2 = of_int 0).
Proof.
  intros L self mc hw lr u d sp. cbv zeta.
  destruct (calculate_locals_total L self mc hw lr u d sp) as (l & Hl).
  pose proof (calculate_locals_inv _ _ _ _ _ _ _ _ Hl) as Hinv. cbv zeta in Hinv.
  destruct Hinv as (Hlab & Hbase & Hua & Hda & Hfa & Hadj & Hfin & Hprof & Heco & Hprem
                    & Hmargin & Hmarkup).
  split.
  - unfold calculate_price. rewrite Hl. cbn [bind]. unfold rounded_result.
    rewrite Hlab, Hbase, Hua, Hda, Hfa, Hadj, Hfin, Hprof, Heco, Hprem, Hmargin, Hmarkup.
    reflexivity.
  - assert (Hnot : forall y : F, gtb y (of_int 0) = false ->
                     round (if gtb y (of_int 0)
                            then mul (quot (sub
                                   (if price_is_set sp
                                    then match sp with Some p => p | None => of_int 0 end
                                    else mul (add (add mc (mul hw lr))
                                                (add (mul (mul (add mc (mul hw lr))
                                                             (sub u (of_int 5)))
                                                        (uniqueness_weight self))
                                                     (mul (mul (add mc (mul hw lr))
                                                             (sub d (of_int 5)))
                                                        (demand_weight self))))
                                             (suggested_price_multiplier self))
                                   (add (add mc (mul hw lr))
                                      (add (mul (mul (add mc (mul hw lr)) (sub u (of_int 5)))
                                              (uniqueness_weight self))
                                           (mul (mul (add mc (mul hw lr)) (sub d (of_int 5)))
                                              (demand_weight self))))) y)
                                   (of_int 100)
                            else of_int 0) 2 = of_int 0).
    { intros y Hy. rewrite Hy. apply round_zero. }
    split; [ intros Hz; apply Hnot; apply (zero_not_gt_zero L); exact Hz | ].
    split; [ apply Hnot | ].
    split; [ intros Hz; apply Hnot; apply (zero_not_gt_zero L); exact Hz | apply Hnot ].
Qed.

End PricingGeneral.

(** ** The pricing engine on binary64: what the program computes *)

Section PricingBinary64.
Import Pricing.
Local Open Scope float_scope.

Lemma final_price_sentinel_rounded_witness :
  exists r,
    calculate_price (F := float) init 5 2 15 6 7 (Some 120) = Ok r /\
    exists l,
      calculate_locals (F := float) init 5 2 15 6 7 (Some 120) = Ok l /\
      final_price r = round (l_final_price l) 2 /\
      (price_is_set (Some 120) = false ->
       l_final_price l = mul (adjusted_price r) (suggested_price_multiplier init)) /\
      (forall P, Some 120 = Some P -> gtb P (of_int 0) = true -> l_final_price l = P).
Proof.
  eexists. split.
  - vm_compute. reflexivity.
  - apply (final_price_sentinel_rounded (F := float)). vm_compute. reflexivity.
Defined.

(** A user-set price with more than two decimals does not come back
    exactly: [selling_price = 1.0078125] gives [final_price = 1.01]; and an
    automatic price is the rounded product, here 2.38 for 2.37890625. *)
Lemma final_price_not_exact :
  (exists r,
      calculate_price (F := float) init 1.0078125 0.5 0.25 5 5 (Some 1.0078125) = Ok r /\
      gtb 1.0078125 (of_int 0) = true /\
      final_price r = lit 1.01%Q /\
      eqb (final_price r) 1.0078125 = false) /\
  (exists r,
      calculate_price (F := float) init 1.0078125 0.5 0.25 6 5 None = Ok r /\
      adjusted_price r = 1.189453125 /\
      mul (adjusted_price r) (suggested_price_multiplier init) = 2.37890625 /\
      final_price r = lit 2.38%Q /\
      eqb (final_price r) (mul (adjusted_price r) (suggested_price_multiplier init)) = false).
Proof.
  split; eexists; (split; [ vm_compute; reflexivity | ]); vm_compute; repeat split; reflexivity.
Qed.

Lemma six_fields_rounded_seven_unrounded_witness :
  exists r,
    calculate_price (F := float) init 1.0078125 0.5 0.25 6 6 None = Ok r /\
    exists l,
      calculate_locals (F := float) init 1.0078125 0.5 0.25 6 6 None = Ok l /\
      (final_price r = round (l_final_price l) 2 /\
       economy_price r = round (mul (l_final_price l) (economy_modifier init)) 2 /\
       premium_price r = round (mul (l_final_price l) (premium_modifier init)) 2 /\
       profit_amount r = round (sub (l_final_price l) (adjusted_price r)) 2 /\
       profit_margin_percentage r = round (l_profit_margin_percentage l) 2 /\
       markup_percentage r = round (l_markup_percentage l) 2) /\
      (material_cost r = 1.0078125 /\
       labor_cost r = mul 0.5 0.25 /\
       base_price r = add 1.0078125 (mul 0.5 0.25) /\
       uniqueness_adjustment r =
         mul (mul (base_price r) (sub 6 (of_int 5))) (uniqueness_weight init) /\
       demand_adjustment r =
         mul (mul (base_price r) (sub 6 (of_int 5))) (demand_weight init) /\
       factor_adjustment r = add (uniqueness_adjustment r) (demand_adjustment r) /\
       adjusted_price r = add (base_price r) (factor_adjustment r)).
Proof.
  eexists. split.
  - vm_compute. reflexivity.
  - apply (six_fields_rounded_seven_unrounded (F := float)). vm_compute. reflexivity.
Defined.

(** The seven cost and adjustment fields come back with more than two
    decimals: none of them is its own rounding to 2 decimals. *)
Lemma cost_fields_not_rounded :
  exists r,
    calculate_price (F := float) init 1.0078125 0.5 0.25 6 6 None = Ok r /\
    material_cost r = 1.0078125 /\
    labor_cost r = 0.125 /\
    base_price r = 1.1328125 /\
    eqb (round (material_cost r) 2) (material_cost r) = false /\
    eqb (round (labor_cost r) 2) (labor_cost r) = false /\
    eqb (round (base_price r) 2) (base_price r) = false /\
    eqb (round (uniqueness_adjustment r) 2) (uniqueness_adjustment r) = false /\
    eqb (round (demand_adjustment r) 2) (demand_adjustment r) = false /\
    eqb (round (factor_adjustment r) 2) (factor_adjustment r) = false /\
    eqb (round (adjusted_price r) 2) (adjusted_price r) = false.
Proof.
  eexists. split; [ vm_compute; reflexivity | ].
  vm_compute. repeat split; reflexivity.
Qed.

Lemma calculate_price_total_and_guarded_witness :
  exists r,
    calculate_price (F := float) init 0 0 0 5 5 None = Ok r /\
    eqb (adjusted_price r) (of_int 0) = true /\
    markup_percentage r = of_int 0 /\
    profit_margin_percentage r = of_int 0.
Proof.
  destruct (calculate_price_total_and_guarded binary64_laws init 0 0 0 5 5 None)
    as (E & Hmarkup & _ & Hmargin & _).
  eexists. split; [ exact E | ].
  cbn [adjusted_price markup_percentage profit_margin_percentage].
  split; [ vm_compute; reflexivity | ].
  split; [ apply Hmarkup | apply Hmargin ]; vm_compute; reflexivity.
Defined.

(** A price below half a cent is returned as 0 and keeps its margin: on
    [material_cost = 0.002] the returned [final_price] equals 0 while the
    returned [profit_margin_percentage] is 50 and the markup 100. *)
Lemma rounded_zero_price_keeps_margin :
  exists r,
    calculate_price (F := float) init (lit (2 # 1000)) 0 0 5 5 None = Ok r /\
    eqb (final_price r) (of_int 0) = true /\
    profit_margin_percentage r = of_int 50 /\
    eqb (profit_margin_percentage r) (of_int 0) = false /\
    markup_percentage r = of_int 100.
Proof.
  eexists. split; [ vm_compute; reflexivity | ]. vm_compute. repeat split; reflexivity.
Qed.

(** The two guards fire on the all-zero input. *)
Lemma guards_fire_on_zero_costs :
  exists r,
    calculate_price (F := float) init 0 0 0 5 5 None = Ok r /\
    eqb (adjusted_price r) (of_int 0) = true /\
    markup_percentage r = 0 /\
    profit_margin_percentage r = 0.
Proof.
  eexists. split; [ vm_compute; reflexivity | ]. vm_compute. repeat split; reflexivity.
Qed.

(** On the scenario input the program does not return the listed values:
    three fields differ.  The unrounded [demand_adjustment] and
    [factor_adjustment] are one unit in the last place above 2.8 and 4.55, and
    [economy_price] is 67.23: the product 79.1 * 0.85 is a double just below
    67.235, which rounds down. *)
Lemma simple_jewelry_differs :
  exists r,
    calculate_price (F := float) init 5 2 15 6 7 (Some 0) = Ok r /\
    r <> simple_jewelry_listed /\
    eqb (demand_adjustment r) (demand_adjustment simple_jewelry_listed) = false /\
    eqb (factor_adjustment r) (factor_adjustment simple_jewelry_listed) = false /\
    eqb (economy_price r) (economy_price simple_jewelry_listed) = false /\
    Binary64.value (mul (lit 79.10%Q) (economy_modifier init))
      = Some (4731242514785239 # 70368744177664)%Q /\
    (4731242514785239 # 70368744177664 < 67.235)%Q.
Proof.
  eexists. split; [ vm_compute; reflexivity | ].
  split; [ intros E | vm_compute; repeat split; reflexivity ].
  apply (f_equal (fun x => PrimFloat.eqb (economy_price x) (lit 67.24%Q))) in E.
  vm_compute in E. discriminate.
Qed.

(** C2, as the program computes it: on [material_cost=5.0],
    [hours_worked=2.0], [labor_rate=15.0], [uniqueness=6.0], [demand=7.0],
    [selling_price=0.0] with the default weights, [calculate_price] returns
    [labor_cost=30.0], [base_price=35.0], [uniqueness_adjustment=1.75],
    [demand_adjustment=2.8000000000000003],
    [factor_adjustment=4.550000000000001], [adjusted_price=39.55],
    [final_price=79.1], [profit_amount=39.55],
    [profit_margin_percentage=50.0], [markup_percentage=100.0],
    [economy_price=67.23] and [premium_price=98.88]. *)
Theorem simple_jewelry_scenario :
  calculate_price (F := float) init 5 2 15 6 7 (Some 0) =
  Ok {| material_cost := 5;
        labor_cost := 30;
        base_price := 35;
        uniqueness_adjustment := 1.75;
        demand_adjustment := lit 2.8000000000000003%Q;
        factor_adjustment := lit 4.550000000000001%Q;
        adjusted_price := lit 39.55%Q;
        profit_amount := lit 39.55%Q;
        profit_margin_percentage := 50;
        markup_percentage := 100;
        final_price := lit 79.10%Q;
        economy_price := lit 67.23%Q;
        premium_price := lit 98.88%Q;
        selling_price := 0 |}.
Proof. vm_compute. reflexivity. Qed.

(** In exact arithmetic the scenario gives the listed values: 79.1 * 0.85
    is 67.235 exactly, a tie that rounds to the even 67.24. *)
Example simple_jewelry_exact :
  calculate_price (F := Q) init 5%Q 2%Q 15%Q 6%Q 7%Q (Some 0%Q) =
  Ok {| material_cost := 5%Q;
        labor_cost := 30%Q;
        base_price := 35%Q;
        uniqueness_adjustment := Qred 1.75%Q;
        demand_adjustment := Qred 2.8%Q;
        factor_adjustment := Qred 4.55%Q;
        adjusted_price := Qred 39.55%Q;
        profit_amount := Qred 39.55%Q;
        profit_margin_percentage := 50%Q;
        markup_percentage := 100%Q;
        final_price := Qred 79.10%Q;
        economy_price := Qred 67.24%Q;
        premium_price := Qred 98.88%Q;
        selling_price := 0%Q |}.
Proof. vm_compute. reflexivity. Qed.

(** A user-set price below the adjusted price by less than half a cent:
    [selling_price = 1000] against [adjusted_price = 1000.0009765625].  The
    three returned profit figures are zero, none is negative. *)
Lemma undercut_profit_rounds_to_zero :
  exists r,
    calculate_price (F := float) init 1000.0009765625 0 0 5 5 (Some 1000) = Ok r /\
    gtb 1000 (of_int 0) = true /\
    ltb 1000 (adjusted_price r) = true /\
    ltb (profit_amount r) (of_int 0) = false /\
    ltb (profit_margin_percentage r) (of_int 0) = false /\
    ltb (markup_percentage r) (of_int 0) = false /\
    eqb (profit_amount r) (of_int 0) = true /\
    eqb (profit_margin_percentage r) (of_int 0) = true /\
    eqb (markup_percentage r) (of_int 0) = true.
Proof.
  eexists. split; [ vm_compute; reflexivity | ]. vm_compute. repeat split; reflexivity.
Qed.

(** With the default weights, [material_cost = 35], no labor and both
    ratings 1: the factor adjustment is the double -12.600000000000001, below
    -0.36 * 35, and the adjusted price is the double nearest 22.4, below
    0.64 * 35, whether the bound is computed in doubles or exactly.  And when
    the labor cost overflows, the adjusted price is [inf - inf]: the returned
    final price is NaN, which is not at least 0, and the guard branch of the
    markup is taken although the costs are not zero. *)
Lemma default_weight_bounds_fail_in_doubles :
  (exists r f a b,
      calculate_price (F := float) init 35 0 0 1 1 None = Ok r /\
      base_price r = 35 /\
      ltb (factor_adjustment r) (mul (lit (-0.36)%Q) (base_price r)) = true /\
      ltb (adjusted_price r) (mul (lit 0.64%Q) (base_price r)) = true /\
      Binary64.value (factor_adjustment r) = Some f /\
      Binary64.value (adjusted_price r) = Some a /\
      Binary64.value (base_price r) = Some b /\
      (f < -0.36 * b)%Q /\
      (a < 0.64 * b)%Q) /\
  (exists r,
      calculate_price (F := float) init (lit 1e308%Q) (lit 1e308%Q) (lit 1e308%Q) 1 1 None
        = Ok r /\
      PrimFloat.is_nan (adjusted_price r) = true /\
      PrimFloat.is_nan (final_price r) = true /\
      Models.geb (final_price r) (of_int 0) = false /\
      gtb (adjusted_price r) (of_int 0) = false /\
      eqb (material_cost r) (of_int 0) = false).
Proof.
  split.
  - eexists. eexists. eexists. eexists.
    split; [ vm_compute; reflexivity | ].
    repeat (split; [ vm_compute; reflexivity | ]).
    vm_compute. reflexivity.
  - eexists. split; [ vm_compute; reflexivity | ].
    vm_compute. repeat split; reflexivity.
Qed.

End PricingBinary64.

(** ** Signs of doubles: what the operations do to the sign *)

Section Binary64Signs.
Local Open Scope Z_scope.

Lemma binary_round_aux_sign (s : bool) (m e : Z) (l : location) :
  sign_or_nan s (binary_round_aux prec emax s m e l).
Proof.
  unfold binary_round_aux.
  destruct (shr_fexp prec emax m e l) as [ mrs' e' ].
  destruct (shr_fexp prec emax _ e' loc_Exact) as [ mrs'' e'' ].
  destruct (shr_m mrs''); simpl; [ reflexivity | | exact I ].
  destruct (Z.leb e'' _); reflexivity.
Qed.

Lemma binary_round_sign (s : bool) (m : positive) (e : Z) :
  sign_or_nan s (binary_round prec emax s m e).
Proof.
  unfold binary_round. destruct (shl_align m e _) as [ mz ez ].
  apply binary_round_aux_sign.
Qed.

Lemma SFdiv_sign (x y : spec_float) (sx sy : bool) :
  sign_or_nan sx x -> sign_or_nan sy y -> sign_or_nan (xorb sx sy) (SF64div x y).
Proof.
  destruct x as [ s1 | s1 | | s1 m1 e1 ], y as [ s2 | s2 | | s2 m2 e2 ]; cbn;
    intros Hx Hy; subst; try exact I; try reflexivity.
  unfold SF64div, SFdiv.
  destruct (SFdiv_core_binary prec emax (Zpos m1) e1 (Zpos m2) e2) as [ [ mz ez ] lz ].
  apply binary_round_aux_sign.
Qed.

Lemma SFmul_sign (x y : spec_float) (sx sy : bool) :
  sign_or_nan sx x -> sign_or_nan sy y -> sign_or_nan (xorb sx sy) (SF64mul x y).
Proof.
  destruct x as [ s1 | s1 | | s1 m1 e1 ], y as [ s2 | s2 | | s2 m2 e2 ]; cbn;
    intros Hx Hy; subst; try exact I; try reflexivity.
  apply binary_round_aux_sign.
Qed.

Lemma SF2Prim_sign (s : bool) (z : spec_float) :
  sign_or_nan s z -> sign_or_nan s (Prim2SF (SF2Prim z)).
Proof.
  destruct z as [ s' | s' | | s' m e ]; cbn [sign_or_nan]; intros Hs; subst.
  - destruct s; vm_compute; reflexivity.
  - destruct s; vm_compute; reflexivity.
  - vm_compute. exact I.
  - unfold SF2Prim.
    assert (Hf : sign_or_nan false
                   (Prim2SF (FloatOps.Z.ldexp (of_uint63 (Uint63.of_Z (Zpos m))) e))).
    { unfold FloatOps.Z.ldexp. rewrite ldshiftexp_spec, of_uint63_spec.
      pose proof (Uint63.to_Z_bounded (Uint63.of_Z (Zpos m))) as B.
      destruct (Uint63.to_Z (Uint63.of_Z (Zpos m))) as [ | k | k ]; [ | | lia ].
      - reflexivity.
      - cbn [binary_normalize].
        pose proof (binary_round_sign false k 0) as R.
        destruct (binary_round prec emax false k 0) as [ s1 | s1 | | s1 m1 e1 ];
          cbn [SFldexp sign_or_nan] in *; try assumption.
        subst s1. apply binary_round_sign. }
    destruct s; [ | exact Hf ].
    rewrite opp_spec.
    destruct (Prim2SF (FloatOps.Z.ldexp _ e)) as [ s1 | s1 | | s1 m1 e1 ];
      cbn in *; subst; reflexivity || exact I.
Qed.

Lemma digits2_pos_size (m : positive) : digits2_pos m = Pos.size m.
Proof. induction m; cbn; congruence. Qed.

Lemma digits2_pos_bounds (m : positive) :
  2 ^ (Zpos (digits2_pos m) - 1) <= Zpos m < 2 ^ Zpos (digits2_pos m).
Proof.
  rewrite digits2_pos_size.
  pose proof (Pos.size_gt m) as G. pose proof (Pos.size_le m) as L.
  assert (E : Zpos (2 ^ Pos.size m) = 2 ^ Zpos (Pos.size m)) by apply Pos2Z.inj_pow.
  assert (P : 2 ^ Zpos (Pos.size m) = 2 * 2 ^ (Zpos (Pos.size m) - 1)).
  { rewrite <- Z.pow_succ_r by lia. f_equal. lia. }
  lia.
Qed.

Lemma iter_pos_iter {A : Type} (f : A -> A) (p : positive) (x : A) :
  iter_pos f p x = Pos.iter f x p.
Proof.
  revert x. induction p as [ p IH | p IH | ]; intros x; cbn.
  - rewrite !IH. rewrite <- !Pos.iter_swap. reflexivity.
  - rewrite !IH. reflexivity.
  - reflexivity.
Qed.

Lemma shr_1_div2 (r : shr_record) :
  0 <= shr_m r -> shr_m (shr_1 r) = shr_m r / 2.
Proof.
  destruct r as [ m rb sb ]. cbn [shr_m]. intros Hm.
  destruct m as [ | [ p | p | ] | p ]; cbn [shr_1 shr_m]; try reflexivity; try lia.
  - apply Z.div_unique with 1; lia.
  - apply Z.div_unique with 0; lia.
Qed.

Lemma shr_iter_div (p : positive) (r : shr_record) :
  0 <= shr_m r -> shr_m (iter_pos shr_1 p r) = shr_m r / 2 ^ Zpos p.
Proof.
  intros Hm. rewrite iter_pos_iter.
  induction p as [ | p IH ] using Pos.peano_ind.
  - cbn [Pos.iter]. rewrite shr_1_div2 by exact Hm. reflexivity.
  - rewrite Pos.iter_succ. rewrite shr_1_div2.
    + rewrite IH. rewrite Pos2Z.inj_succ, Z.pow_succ_r by lia.
      rewrite Z.div_div by lia. f_equal. lia.
    + rewrite IH. apply Z.div_pos; lia.
Qed.

Lemma shifted_mantissa_pos (q p : positive) :
  Zpos p < Zpos (digits2_pos q) -> 0 < Zpos q / 2 ^ Zpos p.
Proof.
  intros Hp. pose proof (digits2_pos_bounds q) as (L & _).
  apply Z.div_str_pos. split; [ lia | ].
  apply Z.le_trans with (2 ^ (Zpos (digits2_pos q) - 1)); [ | exact L ].
  apply Z.pow_le_mono_r; lia.
Qed.

(** The second normalisation of [binary_round_aux] keeps a positive mantissa. *)
Lemma shr_fexp_pos (q : positive) (e : Z) :
  emin <= e ->
  0 < shr_m (fst (shr_fexp prec emax (Zpos q) e loc_Exact)).
Proof.
  intros He. unfold shr_fexp, shr. cbn [shr_record_of_loc Zdigits2].
  destruct (fexp prec emax (Zpos (digits2_pos q) + e) - e) as [ | n | n ] eqn:En;
    cbn [fst shr_m]; try lia.
  rewrite shr_iter_div by (cbn; lia). cbn [shr_m].
  apply shifted_mantissa_pos.
  unfold fexp, SpecFloat.emin, prec, emax in *. lia.
Qed.

Lemma round_nearest_even_pos (m : Z) (l : location) :
  0 < m -> 0 < round_nearest_even m l.
Proof.
  intros Hm. destruct l as [ | [ | | ] ]; cbn; try lia.
  destruct (Z.even m); lia.
Qed.

Lemma binary_round_aux_nonzero (s : bool) (mz : positive) (ez : Z) :
  emin <= ez ->
  nonzero_of_sign s (binary_round_aux prec emax s (Zpos mz) ez loc_Exact).
Proof.
  intros He. unfold binary_round_aux.
  pose proof (shr_fexp_pos mz ez He) as H1.
  destruct (shr_fexp prec emax (Zpos mz) ez loc_Exact) as [ mrs' e' ] eqn:E1.
  cbn [fst] in H1.
  assert (He' : emin <= e').
  { unfold shr_fexp, shr in E1.
    destruct (fexp prec emax (Zdigits2 (Zpos mz) + ez) - ez) as [ | n | n ];
      injection E1 as _ <-; lia. }
  pose proof (round_nearest_even_pos (shr_m mrs') (loc_of_shr_record mrs') H1) as H2.
  destruct (round_nearest_even (shr_m mrs') (loc_of_shr_record mrs')) as [ | q | q ];
    try lia.
  pose proof (shr_fexp_pos q e' He') as H3.
  destruct (shr_fexp prec emax (Zpos q) e' loc_Exact) as [ mrs'' e'' ].
  cbn [fst] in H3.
  destruct (shr_m mrs'') as [ | m | m ]; try lia.
  destruct (Z.leb e'' _); reflexivity.
Qed.

Lemma shl_align_value (m : positive) (e e' : Z) :
  e' <= e ->
  Zpos (fst (shl_align m e e')) = Zpos m * 2 ^ (e - e') /\ snd (shl_align m e e') = e'.
Proof.
  intros Hle. unfold shl_align.
  destruct (e' - e) as [ | d | d ] eqn:Ed; cbn [fst snd]; try lia.
  - assert (e = e') by lia. subst. rewrite Z.sub_diag. cbn. lia.
  - assert (Hd : e - e' = Zpos d) by lia. rewrite Hd. split; [ | reflexivity ].
    clear. induction d as [ | d IH ] using Pos.peano_ind.
    + cbn. lia.
    + rewrite Pos.iter_succ, Pos2Z.inj_xO, IH, Pos2Z.inj_succ, Z.pow_succ_r by lia. lia.
Qed.

Lemma shl_align_digits (m : positive) (e e' : Z) :
  e' <= e ->
  Zpos (digits2_pos (fst (shl_align m e e'))) = Zpos (digits2_pos m) + (e - e').
Proof.
  intros Hle. unfold shl_align.
  destruct (e' - e) as [ | d | d ] eqn:Ed; cbn [fst]; try lia.
  assert (Hd : e - e' = Zpos d) by lia. rewrite Hd.
  clear. induction d as [ | d IH ] using Pos.peano_ind.
  - cbn. lia.
  - rewrite Pos.iter_succ. cbn [digits2_pos]. rewrite Pos2Z.inj_succ, IH. lia.
Qed.

Lemma binary_round_nonzero (s : bool) (k : positive) (e : Z) :
  emin <= e -> nonzero_of_sign s (binary_round prec emax s k e).
Proof.
  intros He. unfold binary_round.
  destruct (shl_align k e (fexp prec emax (Zpos (digits2_pos k) + e))) as [ mz ez ] eqn:Es.
  apply binary_round_aux_nonzero.
  unfold shl_align in Es.
  destruct (fexp prec emax (Zpos (digits2_pos k) + e) - e) as [ | d | d ] eqn:Ed;
    injection Es as _ <-; try lia.
  unfold fexp, SpecFloat.emin, prec, emax in *. lia.
Qed.

Lemma canonical_bounds (m : positive) (e : Z) :
  bounded prec emax m e = true ->
  emin <= e /\ Zpos (digits2_pos m) <= 53 /\ (emin < e -> Zpos (digits2_pos m) = 53).
Proof.
  unfold bounded, canonical_mantissa. intros Hb.
  apply andb_prop in Hb. destruct Hb as (Hc & _). apply Z.eqb_eq in Hc.
  unfold fexp, SpecFloat.emin, prec, emax in *. lia.
Qed.

Lemma SFsub_lt_negative (x y : spec_float) :
  valid_binary x = true -> valid_binary y = true ->
  nonzero_of_sign false x -> SFltb x y = true ->
  nonzero_of_sign true (SF64sub x y).
Proof.
  intros Vx Vy Px Hlt. unfold SFltb in Hlt.
  destruct x as [ s1 | s1 | | s1 m1 e1 ]; cbn in Px; try contradiction; subst s1.
  - destruct y as [ s2 | [ | ] | | s2 m2 e2 ]; cbn in Hlt; discriminate.
  - destruct y as [ s2 | [ | ] | | [ | ] m2 e2 ]; cbn in Hlt; try discriminate.
    + reflexivity.
    + cbn in Vx, Vy.
      destruct (canonical_bounds m1 e1 Vx) as (L1 & D1 & _).
      destruct (canonical_bounds m2 e2 Vy) as (L2 & D2 & N2).
      pose proof (digits2_pos_bounds m1) as (_ & U1).
      pose proof (digits2_pos_bounds m2) as (B2 & _).
      assert (Hord : e1 < e2 \/ (e1 = e2 /\ Zpos m1 < Zpos m2)).
      { destruct (Z.compare_spec e1 e2) as [ E | E | E ]; cbn in Hlt;
          [ | left; exact E | discriminate ].
        right. split; [ exact E | ].
        destruct (Pos.compare_cont Eq m1 m2) eqn:C; cbn in Hlt; try discriminate.
        exact C. }
      unfold SF64sub, SFsub. cbv zeta.
      assert (Emin : Z.min e1 e2 = e1) by lia. rewrite Emin.
      destruct (shl_align_value m1 e1 e1 (Z.le_refl _)) as (V1 & _).
      destruct (shl_align_value m2 e2 e1 ltac:(lia)) as (V2 & _).
      rewrite Z.sub_diag in V1. cbn [cond_Zopp].
      assert (Hneg : Zpos (fst (shl_align m1 e1 e1)) - Zpos (fst (shl_align m2 e2 e1)) < 0).
      { rewrite V1, V2. destruct Hord as [ E | (E & M) ].
        - assert (P53 : Zpos m1 < 2 ^ 53).
          { apply Z.lt_le_trans with (2 ^ Zpos (digits2_pos m1)); [ exact U1 | ].
            apply Z.pow_le_mono_r; lia. }
          assert (P52 : 2 ^ 52 <= Zpos m2).
          { rewrite (N2 ltac:(lia)) in B2. exact B2. }
          assert (P2 : 2 ^ 1 <= 2 ^ (e2 - e1)) by (apply Z.pow_le_mono_r; lia).
          assert (2 ^ 52 * 2 ^ 1 <= Zpos m2 * 2 ^ (e2 - e1)).
          { apply Z.mul_le_mono_nonneg; lia. }
          change (2 ^ 52 * 2 ^ 1) with (2 ^ 53) in *. lia.
        - subst e2. rewrite Z.sub_diag. lia. }
      destruct (Zpos (fst (shl_align m1 e1 e1)) - Zpos (fst (shl_align m2 e2 e1)))
        as [ | k | k ]; try lia.
      cbn [binary_normalize]. apply binary_round_nonzero. exact L1.
Qed.

Lemma positive_of_gt_zero (x : float) :
  PrimFloat.ltb PrimFloat.zero x = true -> nonzero_of_sign false (Prim2SF x).
Proof.
  rewrite ltb_spec. change (Prim2SF PrimFloat.zero) with (S754_zero false).
  unfold SFltb. destruct (Prim2SF x) as [ s | [ | ] | | [ | ] m e ]; cbn;
    try discriminate; reflexivity.
Qed.

Lemma negative_lt_zero (z : float) :
  nonzero_of_sign true (Prim2SF z) -> PrimFloat.ltb z PrimFloat.zero = true.
Proof.
  rewrite ltb_spec. change (Prim2SF PrimFloat.zero) with (S754_zero false).
  unfold SFltb. destruct (Prim2SF z) as [ s | s | | s m e ]; cbn;
    try contradiction; intros ->; reflexivity.
Qed.

Lemma nonzero_sign_or_nan (s : bool) (z : spec_float) :
  nonzero_of_sign s z -> sign_or_nan s z.
Proof. destruct z; cbn; tauto. Qed.

Lemma not_positive_of_sign (z : float) :
  sign_or_nan true (Prim2SF z) -> PrimFloat.ltb PrimFloat.zero z = false.
Proof.
  rewrite ltb_spec. change (Prim2SF PrimFloat.zero) with (S754_zero false).
  unfold SFltb. destruct (Prim2SF z) as [ s | s | | s m e ]; cbn;
    try reflexivity; intros ->; reflexivity.
Qed.

(** A positive double below another: the difference is strictly negative. *)
Lemma sub_lt_negative (p a : float) :
  PrimFloat.ltb PrimFloat.zero p = true -> PrimFloat.ltb p a = true ->
  nonzero_of_sign true (Prim2SF (p - a)%float) /\
  nonzero_of_sign false (Prim2SF a).
Proof.
  intros Hp Hlt. pose proof (positive_of_gt_zero p Hp) as Pp.
  rewrite ltb_spec in Hlt. split.
  - rewrite sub_spec. apply SFsub_lt_negative; try apply Prim2SF_valid; assumption.
  - unfold SFltb in Hlt.
    destruct (Prim2SF p) as [ s1 | s1 | | s1 m1 e1 ]; cbn in Pp; try contradiction; subst s1;
      destruct (Prim2SF a) as [ s2 | [ | ] | | [ | ] m2 e2 ]; cbn in Hlt |- *;
      try discriminate; reflexivity.
Qed.

End Binary64Signs.

(** ** Rounding of doubles, on the mantissa *)

Section Binary64Rounding.
Local Open Scope Z_scope.

Lemma shifted_first (m : Z) :
  0 <= m -> shifted m 1 (shr_1 {| shr_m := m; shr_r := false; shr_s := false |}).
Proof.
  intros Hm. unfold shifted.
  destruct m as [ | [ p | p | ] | p ]; cbn [shr_1 shr_m shr_r shr_s orb]; try lia.
  - exists 0. repeat split; try lia; intros; try discriminate; lia.
  - exists 1. rewrite Pos2Z.inj_xI. repeat split; try lia; intros; try discriminate; lia.
  - exists 0. rewrite Pos2Z.inj_xO. repeat split; try lia; intros; try discriminate; lia.
  - exists 1. repeat split; try lia; intros; try discriminate; lia.
Qed.

Lemma shifted_next (m half : Z) (r : shr_record) :
  0 < half -> 0 <= shr_m r -> shifted m half r -> shifted m (2 * half) (shr_1 r).
Proof.
  intros Hh Hm (rem & Em & Hrem & R1 & R0 & S1 & S0).
  destruct r as [ q rb sb ]. cbn [shr_m shr_r shr_s] in *.
  assert (Hcases : (rb = true /\ half <= rem) \/ (rb = false /\ rem < half)).
  { destruct rb; [ left | right ]; split; auto. }
  assert (Hs : (orb rb sb = true /\ rem <> 0) \/ (orb rb sb = false /\ rem = 0)).
  { destruct rb, sb; cbn; try (left; split; [ reflexivity | ]);
      try (right; split; [ reflexivity | ]).
    - specialize (R1 eq_refl). lia.
    - specialize (R1 eq_refl). lia.
    - destruct (S1 eq_refl). assumption.
    - specialize (R0 eq_refl). destruct (S0 eq_refl); lia. }
  unfold shifted.
  clear R1 R0 S1 S0 Hcases.
  destruct q as [ | [ p | p | ] | p ]; cbn [shr_1 shr_m shr_r shr_s]; try lia.
  - exists rem.
    destruct Hs as [ (Eo & Hr) | (Eo & Hr) ]; rewrite Eo;
      repeat split; intros; try discriminate; try lia.
  - exists (2 * half + rem). rewrite Pos2Z.inj_xI in Em.
    destruct Hs as [ (Eo & Hr) | (Eo & Hr) ]; rewrite Eo;
      repeat split; intros; try discriminate; try lia.
  - exists rem. rewrite Pos2Z.inj_xO in Em.
    destruct Hs as [ (Eo & Hr) | (Eo & Hr) ]; rewrite Eo;
      repeat split; intros; try discriminate; try lia.
  - exists (2 * half + rem).
    destruct Hs as [ (Eo & Hr) | (Eo & Hr) ]; rewrite Eo;
      repeat split; intros; try discriminate; try lia.
Qed.

Lemma shr_1_nonneg (r : shr_record) : 0 <= shr_m r -> 0 <= shr_m (shr_1 r).
Proof. intros H. rewrite shr_1_div2 by exact H. apply Z.div_pos; lia. Qed.

Lemma shifted_iter (m : Z) (p : positive) :
  0 <= m ->
  shifted m (2 ^ (Zpos p - 1))
    (iter_pos shr_1 p {| shr_m := m; shr_r := false; shr_s := false |}) /\
  0 <= shr_m (iter_pos shr_1 p {| shr_m := m; shr_r := false; shr_s := false |}).
Proof.
  intros Hm. rewrite iter_pos_iter.
  induction p as [ | p IH ] using Pos.peano_ind.
  - cbn [Pos.iter]. split; [ apply shifted_first; exact Hm | ].
    apply shr_1_nonneg. cbn. exact Hm.
  - rewrite Pos.iter_succ. destruct IH as (IH & Hq). split.
    + replace (2 ^ (Zpos (Pos.succ p) - 1)) with (2 * 2 ^ (Zpos p - 1)).
      * apply shifted_next; [ apply Z.pow_pos_nonneg; lia | exact Hq | exact IH ].
      * rewrite <- Z.pow_succ_r by lia. f_equal. lia.
    + apply shr_1_nonneg. exact Hq.
Qed.

(** Rounding to nearest after a shift: the rounded quotient is within half
    a unit of the exact one. *)
Lemma round_after_shift (m half : Z) (r : shr_record) :
  0 < half -> shifted m half r ->
  let q := round_nearest_even (shr_m r) (loc_of_shr_record r) in
  (shr_m r <= q <= shr_m r + 1) /\
  - half <= q * (2 * half) - m <= half.
Proof.
  intros Hh (rem & Em & Hrem & R1 & R0 & S1 & S0). cbv zeta.
  destruct r as [ q rb sb ]. cbn [shr_m shr_r shr_s] in *.
  destruct rb, sb; cbn [loc_of_shr_record round_nearest_even].
  - specialize (R1 eq_refl). destruct (S1 eq_refl). lia.
  - specialize (R1 eq_refl). destruct (S0 eq_refl) as [ E | E ]; [ lia | ].
    destruct (Z.even q); lia.
  - specialize (R0 eq_refl). lia.
  - specialize (R0 eq_refl). destruct (S0 eq_refl) as [ E | E ]; lia.
Qed.

Lemma digits_le_of_lt_pow (p : positive) (k : Z) :
  0 <= k -> Zpos p < 2 ^ k -> Zpos (digits2_pos p) <= k.
Proof.
  intros Hk Hp. pose proof (digits2_pos_bounds p) as (L & _).
  assert (H : 2 ^ (Zpos (digits2_pos p) - 1) < 2 ^ k) by lia.
  apply Z.pow_lt_mono_r_iff in H; lia.
Qed.

(** The second normalisation of [binary_round_aux]: a mantissa of at most
    53 bits is kept, and [2^53], which rounding up can produce, is
    renormalised exactly. *)
Lemma shr_fexp_second (q e1 : Z) :
  emin <= e1 -> 0 <= q <= 2 ^ 53 ->
  shr_fexp prec emax q e1 loc_Exact =
    if q =? 2 ^ 53
    then ({| shr_m := 2 ^ 52; shr_r := false; shr_s := false |}, e1 + 1)
    else ({| shr_m := q; shr_r := false; shr_s := false |}, e1).
Proof.
  intros He Hq. unfold shr_fexp, shr. cbn [shr_record_of_loc].
  destruct (q =? 2 ^ 53) eqn:Eq.
  - apply Z.eqb_eq in Eq. subst q.
    change (Zdigits2 (2 ^ 53)) with 54.
    replace (fexp prec emax (54 + e1) - e1) with 1
      by (unfold fexp, SpecFloat.emin, prec, emax in *; lia).
    reflexivity.
  - apply Z.eqb_neq in Eq.
    destruct q as [ | p | p ]; [ | | lia ].
    + cbn [Zdigits2].
      destruct (fexp prec emax (0 + e1) - e1) eqn:En; try reflexivity.
      unfold fexp, SpecFloat.emin, prec, emax in *. lia.
    + cbn [Zdigits2].
      pose proof (digits_le_of_lt_pow p 53 ltac:(lia) ltac:(lia)) as Hd.
      destruct (fexp prec emax (Zpos (digits2_pos p) + e1) - e1) eqn:En; try reflexivity.
      unfold fexp, SpecFloat.emin, prec, emax in *. lia.
Qed.

Lemma binary_round_aux_cases (s : bool) (m : positive) (e : Z) :
  let e1 := Z.max e (fexp prec emax (Zpos (digits2_pos m) + e)) in
  exists q : Z,
    rounded_to m e e1 q /\
    binary_round_aux prec emax s (Zpos m) e loc_Exact = packed s q e1.
Proof.
  cbv zeta. unfold binary_round_aux.
  pose proof (digits2_pos_bounds m) as (Lm & Um).
  set (d := Zpos (digits2_pos m)) in *.
  assert (Hd : 0 < d) by (unfold d; lia).
  unfold shr_fexp at 1. unfold shr. cbn [shr_record_of_loc Zdigits2]. fold d.
  destruct (fexp prec emax (d + e) - e) as [ | n | n ] eqn:En.
  - (* no shift *)
    assert (E1 : Z.max e (fexp prec emax (d + e)) = e) by lia. rewrite E1.
    assert (Hlt : Zpos m < 2 ^ 53).
    { apply Z.lt_le_trans with (2 ^ d); [ exact Um | ].
      apply Z.pow_le_mono_r; unfold fexp, SpecFloat.emin, prec, emax in *; lia. }
    exists (Zpos m). split.
    + repeat split; try lia.
    + cbn [shr_m loc_of_shr_record round_nearest_even].
      rewrite shr_fexp_second
        by (unfold fexp, SpecFloat.emin, prec, emax in *; lia).
      unfold packed.
      destruct (Zpos m =? 2 ^ 53) eqn:Eq; [ apply Z.eqb_eq in Eq; lia | ].
      reflexivity.
  - (* a shift by n bits *)
    assert (E1 : Z.max e (fexp prec emax (d + e)) = e + Zpos n) by lia. rewrite E1.
    destruct (shifted_iter (Zpos m) n ltac:(lia)) as (Hs & Hq0).
    set (mrs := iter_pos shr_1 n {| shr_m := Zpos m; shr_r := false; shr_s := false |}) in *.
    assert (Hhalf : 0 < 2 ^ (Zpos n - 1)) by (apply Z.pow_pos_nonneg; lia).
    assert (Hpow : 2 ^ Zpos n = 2 * 2 ^ (Zpos n - 1)).
    { rewrite <- Z.pow_succ_r by lia. f_equal. lia. }
    pose proof (round_after_shift (Zpos m) _ mrs Hhalf Hs) as (Hq & Herr).
    cbv zeta in Hq, Herr.
    set (q := round_nearest_even (shr_m mrs) (loc_of_shr_record mrs)) in *.
    assert (Hm : shr_m mrs = Zpos m / 2 ^ Zpos n).
    { unfold mrs. rewrite shr_iter_div by (cbn; lia). reflexivity. }
    assert (Hub : shr_m mrs < 2 ^ 53).
    { rewrite Hm. apply Z.div_lt_upper_bound; [ lia | ].
      apply Z.lt_le_trans with (2 ^ d); [ exact Um | ].
      rewrite <- Z.pow_add_r by lia.
      apply Z.pow_le_mono_r; unfold fexp, SpecFloat.emin, prec, emax in *; lia. }
    exists q. split.
    + repeat split; try lia.
      * replace (e + Zpos n - e) with (Zpos n) by lia.
        replace (Zpos n - 1) with (Zpos n - 1) by lia. rewrite Hpow. lia.
      * replace (e + Zpos n - e) with (Zpos n) by lia. rewrite Hpow. lia.
    + rewrite shr_fexp_second
        by (unfold fexp, SpecFloat.emin, prec, emax in *; lia).
      unfold packed.
      destruct (q =? 2 ^ 53) eqn:Eq.
      * apply Z.eqb_eq in Eq. rewrite Eq. cbn [shr_m]. reflexivity.
      * cbn [shr_m]. destruct q as [ | p | p ]; reflexivity.
  - (* the exponent is already large enough *)
    assert (E1 : Z.max e (fexp prec emax (d + e)) = e) by lia. rewrite E1.
    assert (Hlt : Zpos m < 2 ^ 53).
    { apply Z.lt_le_trans with (2 ^ d); [ exact Um | ].
      apply Z.pow_le_mono_r; unfold fexp, SpecFloat.emin, prec, emax in *; lia. }
    exists (Zpos m). split.
    + repeat split; try lia.
    + cbn [shr_m loc_of_shr_record round_nearest_even].
      rewrite shr_fexp_second
        by (unfold fexp, SpecFloat.emin, prec, emax in *; lia).
      unfold packed.
      destruct (Zpos m =? 2 ^ 53) eqn:Eq; [ apply Z.eqb_eq in Eq; lia | ].
      reflexivity.
Qed.

Lemma shr_fexp_nonneg (m e : Z) (l : location) :
  0 <= m -> 0 <= shr_m (fst (shr_fexp prec emax m e l)).
Proof.
  intros Hm. unfold shr_fexp, shr.
  assert (H0 : shr_m (shr_record_of_loc m l) = m) by (destruct l as [ | [ | | ] ]; reflexivity).
  destruct (fexp prec emax (Zdigits2 m + e) - e) as [ | p | p ]; cbn [fst]; try lia.
  rewrite shr_iter_div by lia. rewrite H0. apply Z.div_pos; lia.
Qed.

Lemma round_nearest_even_nonneg (m : Z) (l : location) :
  0 <= m -> 0 <= round_nearest_even m l.
Proof.
  intros Hm. destruct l as [ | [ | | ] ]; cbn; try lia.
  destruct (Z.even m); lia.
Qed.

Lemma binary_round_aux_has_sign (s : bool) (m e : Z) (l : location) :
  0 <= m -> has_sign s (binary_round_aux prec emax s m e l).
Proof.
  intros Hm. unfold binary_round_aux.
  pose proof (shr_fexp_nonneg m e l Hm) as H1.
  destruct (shr_fexp prec emax m e l) as [ mrs' e' ]. cbn [fst] in H1.
  pose proof (round_nearest_even_nonneg (shr_m mrs') (loc_of_shr_record mrs') H1) as H2.
  pose proof (shr_fexp_nonneg _ e' loc_Exact H2) as H3.
  destruct (shr_fexp prec emax _ e' loc_Exact) as [ mrs'' e'' ]. cbn [fst] in H3.
  destruct (shr_m mrs'') as [ | q | q ]; [ reflexivity | | lia ].
  destruct (Z.leb e'' _); reflexivity.
Qed.

Lemma binary_round_has_sign (s : bool) (m : positive) (e : Z) :
  has_sign s (binary_round prec emax s m e).
Proof.
  unfold binary_round. destruct (shl_align m e _) as [ mz ez ].
  apply binary_round_aux_has_sign. lia.
Qed.

Lemma SFdiv_has_sign (sx sy : bool) (mx my : positive) (ex ey : Z) :
  has_sign (xorb sx sy) (SF64div (S754_finite sx mx ex) (S754_finite sy my ey)).
Proof.
  unfold SF64div, SFdiv.
  assert (Hq : 0 <= fst (fst (SFdiv_core_binary prec emax (Zpos mx) ex (Zpos my) ey))).
  { unfold SFdiv_core_binary.
    set (m' := match _ - _ - _ with Zpos _ => _ | Z0 => _ | Zneg _ => _ end).
    assert (Hm' : 0 <= m').
    { unfold m'. destruct (_ - _ - _) eqn:E; try lia.
      apply Z.shiftl_nonneg. lia. }
    pose proof (Z_div_mod m' (Zpos my) ltac:(lia)) as D.
    destruct (Z.div_eucl m' (Zpos my)) as [ q r ]. cbn [fst].
    destruct D as (D1 & D2). nia. }
  destruct (SFdiv_core_binary prec emax (Zpos mx) ex (Zpos my) ey) as [ [ mz ez ] lz ].
  apply binary_round_aux_has_sign. exact Hq.
Qed.

Lemma SF2Prim_has_sign (s : bool) (z : spec_float) :
  has_sign s z -> has_sign s (Prim2SF (SF2Prim z)).
Proof.
  destruct z as [ s' | s' | | s' m e ]; cbn [has_sign]; intros Hs; subst.
  - destruct s; vm_compute; reflexivity.
  - destruct s; vm_compute; reflexivity.
  - contradiction.
  - unfold SF2Prim.
    assert (Hf : has_sign false
                   (Prim2SF (FloatOps.Z.ldexp (of_uint63 (Uint63.of_Z (Zpos m))) e))).
    { unfold FloatOps.Z.ldexp. rewrite ldshiftexp_spec, of_uint63_spec.
      pose proof (Uint63.to_Z_bounded (Uint63.of_Z (Zpos m))) as B.
      destruct (Uint63.to_Z (Uint63.of_Z (Zpos m))) as [ | k | k ]; [ | | lia ].
      - reflexivity.
      - cbn [binary_normalize].
        pose proof (binary_round_has_sign false k 0) as R.
        destruct (binary_round prec emax false k 0) as [ s1 | s1 | | s1 m1 e1 ];
          cbn [SFldexp has_sign] in *; try assumption.
        subst s1. apply binary_round_has_sign. }
    destruct s; [ | exact Hf ].
    rewrite opp_spec.
    destruct (Prim2SF (FloatOps.Z.ldexp _ e)) as [ s1 | s1 | | s1 m1 e1 ];
      cbn in *; subst; try reflexivity; contradiction.
Qed.

Lemma at_least_zero_geb (x : float) :
  at_least_zero (Prim2SF x) ->
  (PrimFloat.ltb PrimFloat.zero x || PrimFloat.eqb x PrimFloat.zero)%bool = true.
Proof.
  rewrite ltb_spec, eqb_spec. change (Prim2SF PrimFloat.zero) with (S754_zero false).
  destruct (Prim2SF x) as [ s | s | | s m e ]; cbn; try contradiction;
    try (intros ->); reflexivity.
Qed.

End Binary64Rounding.

(** ** The error of addition, subtraction and multiplication of doubles *)

Section Binary64Values.
Local Open Scope Q_scope.

Lemma pow2_pos (e : Z) : 0 < 2 ^ e.
Proof. apply Qpower_0_lt. reflexivity. Qed.

Lemma pow2_add (a b : Z) : 2 ^ (a + b) == 2 ^ a * 2 ^ b.
Proof. apply Qpower_plus. discriminate. Qed.

Lemma pow2_inject (n : Z) : (0 <= n)%Z -> inject_Z (2 ^ n) == 2 ^ n.
Proof. intros H. rewrite Zpower_Qpower by exact H. reflexivity. Qed.

Lemma pow2_le (a b : Z) : (a <= b)%Z -> 2 ^ a <= 2 ^ b.
Proof. intros H. apply Qpower_le_compat_l; [ exact H | discriminate ]. Qed.

Lemma eps_pos : 0 < eps.
Proof. reflexivity. Qed.

Lemma eps_pow2 : 2 ^ (-53) == eps.
Proof. reflexivity. Qed.

Lemma eta_pos : 0 < eta.
Proof. apply pow2_pos. Qed.

(** The mantissa is at least [2^(d-1)]: the exact value bounds the
    number of digits plus the exponent. *)
Lemma mantissa_ge_pow (m : positive) (e : Z) :
  2 ^ (Zpos (digits2_pos m) - 1 + e) <= inject_Z (Zpos m) * 2 ^ e.
Proof.
  pose proof (digits2_pos_bounds m) as (L & _).
  rewrite pow2_add. apply Qmult_le_compat_r; [ | apply Qlt_le_weak, pow2_pos ].
  rewrite <- pow2_inject by lia. rewrite <- Zle_Qle. exact L.
Qed.

Lemma digits_exp_bound (m : positive) (e k : Z) :
  inject_Z (Zpos m) * 2 ^ e < 2 ^ k -> (Zpos (digits2_pos m) + e <= k)%Z.
Proof.
  intros H. pose proof (mantissa_ge_pow m e) as L.
  assert (Hlt : 2 ^ (Zpos (digits2_pos m) - 1 + e) < 2 ^ k)
    by (eapply Qle_lt_trans; eassumption).
  apply Qpower_lt_compat_l_inv in Hlt; [ lia | reflexivity ].
Qed.

Lemma packed_real (s : bool) (q e1 : Z) :
  (0 <= q <= 2 ^ 53)%Z -> (e1 <= 971)%Z -> (q = 2 ^ 53 -> e1 <= 970)%Z ->
  SFfinite (packed s q e1) /\ SFreal (packed s q e1) == signed s (inject_Z q * 2 ^ e1).
Proof.
  intros Hq He Hc. unfold packed.
  destruct q as [ | p | p ]; [ | | lia ].
  - split; [ exact I | ]. cbn [SFreal]. destruct s; cbn [signed]; ring.
  - destruct (Z.eqb_spec (Zpos p) (2 ^ 53)) as [ E | E ].
    + specialize (Hc E).
      replace (e1 + 1 <=? emax - prec)%Z with true
        by (symmetry; apply Z.leb_le; unfold prec, emax; lia).
      split; [ exact I | ]. cbn [SFreal]. rewrite E.
      assert (P : inject_Z (Zpos (2 ^ 52)) * 2 ^ (e1 + 1) == inject_Z (2 ^ 53) * 2 ^ e1).
      { rewrite pow2_add. change (2 ^ 1) with 2.
        change (inject_Z (2 ^ 53)) with (inject_Z (Zpos (2 ^ 52)) * 2). ring. }
      destruct s; cbn [signed]; rewrite P; reflexivity.
    + replace (e1 <=? emax - prec)%Z with true
        by (symmetry; apply Z.leb_le; unfold prec, emax; lia).
      split; [ exact I | ]. reflexivity.
Qed.

Lemma rounded_error (h : Q) (m : positive) (e q : Z) :
  let e1 := Z.max e (fexp prec emax (Zpos (digits2_pos m) + e)) in
  let x := inject_Z (Zpos m) * 2 ^ e in
  0 <= h -> ((e < emin)%Z -> eta <= h) ->
  rounded_to m e e1 q ->
  - (x * eps + h) <= inject_Z q * 2 ^ e1 - x <= x * eps + h.
Proof.
  cbv zeta. intros Hh0 Hh (Hq & Hex & Herr).
  set (d := Zpos (digits2_pos m)) in *.
  set (e1 := Z.max e (fexp prec emax (d + e))) in *.
  set (x := inject_Z (Zpos m) * 2 ^ e).
  assert (Hx : 0 < x).
  { apply Qmult_lt_0_compat; [ | apply pow2_pos ].
    change 0 with (inject_Z 0). rewrite <- Zlt_Qlt. lia. }
  pose proof eps_pos as Heps. pose proof eta_pos as Heta.
  assert (Hxe : 0 < x * eps) by (apply Qmult_lt_0_compat; assumption).
  destruct (Z.eq_dec e1 e) as [ E | E ].
  - rewrite (Hex E), E. fold x. split; lra.
  - assert (Hlt : (e < e1)%Z) by (unfold e1 in *; lia).
    specialize (Herr Hlt).
    set (n := (e1 - e)%Z) in *.
    assert (Hn : (0 < n)%Z) by (unfold n; lia).
    (* the error is at most half a unit at [e1] *)
    assert (Hhalf : - 2 ^ (e1 - 1) <= inject_Z q * 2 ^ e1 - x <= 2 ^ (e1 - 1)).
    { assert (A : 2 ^ e1 == inject_Z (2 ^ n) * 2 ^ e).
      { rewrite pow2_inject by lia. rewrite <- pow2_add. unfold n.
        replace (e1 - e + e)%Z with e1 by lia. reflexivity. }
      assert (B : 2 ^ (e1 - 1) == inject_Z (2 ^ (n - 1)) * 2 ^ e).
      { rewrite pow2_inject by lia. rewrite <- pow2_add. unfold n.
        replace (e1 - e - 1 + e)%Z with (e1 - 1)%Z by lia. reflexivity. }
      destruct Herr as (Lz & Uz). fold n in Lz, Uz.
      set (Pz := (2 ^ n)%Z) in *. set (Hz := (2 ^ (n - 1))%Z) in *.
      rewrite Zle_Qle in Lz, Uz.
      rewrite inject_Z_opp in Lz.
      unfold Z.sub in Lz, Uz. rewrite inject_Z_plus, inject_Z_opp, inject_Z_mult in Lz, Uz.
      pose proof (pow2_pos e) as T.
      rewrite A, B. unfold x.
      clear - Lz Uz T.
      generalize dependent (2 ^ e). intros t T.
      generalize dependent (inject_Z Pz). intros P.
      generalize dependent (inject_Z Hz). intros H.
      generalize dependent (inject_Z q). intros q'.
      generalize dependent (inject_Z (Zpos m)). intros m'. intros.
      split; nra. }
    (* half a unit is below the relative or the absolute bound *)
    assert (Hb : 2 ^ (e1 - 1) <= x * eps + h).
    { unfold e1, fexp, SpecFloat.emin, prec, emax in *.
      destruct (Z.max_spec (d + e - 53) (3 - 1024 - 53)) as [ (Hc & Em) | (Hc & Em) ].
      - assert (E1 : Z.max e (Z.max (d + e - 53) (3 - 1024 - 53)) = (3 - 1024 - 53)%Z) by lia.
        rewrite E1. change (2 ^ (3 - 1024 - 53 - 1)) with eta.
        assert (eta <= h) by (apply Hh; lia). lra.
      - assert (E1 : Z.max e (Z.max (d + e - 53) (3 - 1024 - 53)) = (d + e - 53)%Z) by lia.
        rewrite E1.
        replace (d + e - 53 - 1)%Z with ((d - 1 + e) + -53)%Z by lia.
        rewrite pow2_add, eps_pow2.
        pose proof (mantissa_ge_pow m e) as L. fold d in L. fold x in L.
        assert (2 ^ (d - 1 + e) * eps <= x * eps)
          by (apply Qmult_le_compat_r; [ exact L | lra ]).
        lra. }
    destruct Hhalf. split; lra.
Qed.

Lemma approx_ext (h X Y : Q) (z : spec_float) :
  X == Y -> approx h X z -> approx h Y z.
Proof.
  intros E (F & A & P & N). repeat split.
  - exact F.
  - rewrite <- E. exact A.
  - rewrite <- E. exact P.
  - rewrite <- E. exact N.
Qed.

Lemma approx_exact (h X : Q) (z : spec_float) :
  0 <= h -> SFfinite z -> SFreal z == X -> approx h X z.
Proof.
  intros Hh F E. repeat split.
  - exact F.
  - rewrite E. setoid_replace (X - X) with 0 by ring.
    pose proof (Qabs_nonneg X) as HX. pose proof eps_pos.
    assert (0 <= Qabs X * eps) by (apply Qmult_le_0_compat; lra).
    change (Qabs 0) with 0. generalize dependent (Qabs X). intros. lra.
  - rewrite E. auto.
  - rewrite E. auto.
Qed.

Lemma mantissa_value_pos (m : positive) (e : Z) : 0 < inject_Z (Zpos m) * 2 ^ e.
Proof.
  apply Qmult_lt_0_compat; [ | apply pow2_pos ].
  change 0 with (inject_Z 0). rewrite <- Zlt_Qlt. lia.
Qed.

Lemma approx_signed (h : Q) (s : bool) (x v : Q) (z : spec_float) :
  0 < x -> 0 <= v ->
  - (x * eps + h) <= v - x <= x * eps + h ->
  SFfinite z -> SFreal z == signed s v ->
  approx h (signed s x) z.
Proof.
  intros Hx Hv (L & U) F E. repeat split.
  - exact F.
  - rewrite E. destruct s; cbn [signed].
    + rewrite Qabs_opp. rewrite (Qabs_pos x) by lra.
      apply Qabs_Qle_condition. split; lra.
    + rewrite (Qabs_pos x) by lra.
      apply Qabs_Qle_condition. split; lra.
  - rewrite E. destruct s; cbn [signed]; intros; lra.
  - rewrite E. destruct s; cbn [signed]; intros; lra.
Qed.

Lemma binary_round_aux_approx (h : Q) (s : bool) (m : positive) (e : Z) :
  0 <= h -> ((e < emin)%Z -> eta <= h) ->
  (e <= 971 \/ 53 < Zpos (digits2_pos m))%Z ->
  inject_Z (Zpos m) * 2 ^ e < 2 ^ 1023 ->
  approx h (signed s (inject_Z (Zpos m) * 2 ^ e))
         (binary_round_aux prec emax s (Zpos m) e loc_Exact).
Proof.
  intros Hh0 Hh Hc Hx.
  pose proof (digits_exp_bound m e 1023 Hx) as Hd.
  destruct (binary_round_aux_cases s m e) as (q & Hr & Eq). cbv zeta in Hr, Eq.
  pose proof (rounded_error h m e q Hh0 Hh Hr) as Herr. cbv zeta in Herr.
  pose proof (digits2_pos_bounds m) as (Lm & Um).
  set (d := Zpos (digits2_pos m)) in *.
  set (e1 := Z.max e (fexp prec emax (d + e))) in *.
  destruct Hr as (Hq & Hex & _).
  assert (He1 : (e1 <= 971)%Z).
  { unfold e1, fexp, SpecFloat.emin, prec, emax in *. lia. }
  assert (Hcarry : (q = 2 ^ 53 -> e1 <= 970)%Z).
  { intros Eq53.
    destruct (Z.eq_dec e1 e) as [ E | E ].
    - specialize (Hex E).
      assert (d <= 53)%Z by (unfold e1, fexp, SpecFloat.emin, prec, emax in *; lia).
      assert (2 ^ d <= 2 ^ 53)%Z by (apply Z.pow_le_mono_r; lia).
      lia.
    - unfold e1, fexp, SpecFloat.emin, prec, emax in *. lia. }
  destruct (packed_real s q e1 Hq He1 Hcarry) as (F & R).
  rewrite Eq.
  apply approx_signed with (v := inject_Z q * 2 ^ e1).
  - apply mantissa_value_pos.
  - apply Qmult_le_0_compat; [ | apply Qlt_le_weak, pow2_pos ].
    change 0 with (inject_Z 0). rewrite <- Zle_Qle. lia.
  - exact Herr.
  - exact F.
  - exact R.
Qed.

Lemma binary_round_approx (s : bool) (k : positive) (e : Z) :
  (emin <= e <= 971)%Z ->
  inject_Z (Zpos k) * 2 ^ e < 2 ^ 1023 ->
  approx 0 (signed s (inject_Z (Zpos k) * 2 ^ e)) (binary_round prec emax s k e).
Proof.
  intros He Hx. unfold binary_round.
  pose proof (digits_exp_bound k e 1023 Hx) as Hd.
  set (f := fexp prec emax (Zpos (digits2_pos k) + e)).
  destruct (Z_le_gt_dec f e) as [ Hf | Hf ].
  - pose proof (shl_align_value k e f Hf) as (Ev & Ee).
    destruct (shl_align k e f) as [ mz ez ]. cbn [fst snd] in Ev, Ee. subst ez.
    assert (Evq : inject_Z (Zpos mz) * 2 ^ f == inject_Z (Zpos k) * 2 ^ e).
    { rewrite Ev, inject_Z_mult, pow2_inject by lia.
      rewrite <- Qmult_assoc, <- pow2_add.
      replace (e - f + f)%Z with e by lia. reflexivity. }
    apply approx_ext with (signed s (inject_Z (Zpos mz) * 2 ^ f)).
    { destruct s; cbn [signed]; rewrite Evq; reflexivity. }
    apply binary_round_aux_approx.
    + apply Qle_refl.
    + unfold f, fexp, SpecFloat.emin, prec, emax in *. lia.
    + left. unfold f, fexp, SpecFloat.emin, prec, emax in *. lia.
    + rewrite Evq. exact Hx.
  - assert (Es : shl_align k e f = (k, e)).
    { unfold shl_align. destruct (f - e)%Z eqn:Ed; try reflexivity. lia. }
    rewrite Es. apply binary_round_aux_approx;
      [ apply Qle_refl | lia | left; lia | exact Hx ].
Qed.

Lemma binary_normalize_approx (z e : Z) :
  (emin <= e <= 971)%Z ->
  Qabs (inject_Z z * 2 ^ e) < 2 ^ 1023 ->
  approx 0 (inject_Z z * 2 ^ e) (binary_normalize prec emax z e false).
Proof.
  intros He Hx. destruct z as [ | k | k ]; cbn [binary_normalize].
  - apply approx_exact; [ apply Qle_refl | exact I | ]. cbn [SFreal]. ring.
  - rewrite Qabs_pos in Hx by (apply Qlt_le_weak, mantissa_value_pos).
    exact (binary_round_approx false k e He Hx).
  - assert (E : inject_Z (Zneg k) * 2 ^ e == - (inject_Z (Zpos k) * 2 ^ e)).
    { change (Zneg k) with (- Zpos k)%Z. rewrite inject_Z_opp. ring. }
    rewrite E, Qabs_opp in Hx.
    rewrite Qabs_pos in Hx by (apply Qlt_le_weak, mantissa_value_pos).
    apply approx_ext with (signed true (inject_Z (Zpos k) * 2 ^ e)).
    { cbn [signed]. rewrite E. reflexivity. }
    exact (binary_round_approx true k e He Hx).
Qed.

Lemma aligned_value (s : bool) (m : positive) (e ez : Z) :
  (ez <= e)%Z ->
  inject_Z (cond_Zopp s (Zpos (fst (shl_align m e ez)))) * 2 ^ ez ==
  signed s (inject_Z (Zpos m) * 2 ^ e).
Proof.
  intros Hle. destruct (shl_align_value m e ez Hle) as (Ev & _).
  assert (Evq : inject_Z (Zpos (fst (shl_align m e ez))) * 2 ^ ez == inject_Z (Zpos m) * 2 ^ e).
  { rewrite Ev, inject_Z_mult, pow2_inject by lia.
    rewrite <- Qmult_assoc, <- pow2_add.
    replace (e - ez + ez)%Z with e by lia. reflexivity. }
  destruct s; cbn [cond_Zopp signed].
  - rewrite inject_Z_opp. rewrite <- Evq. ring.
  - exact Evq.
Qed.

Lemma digits_mul_ge (a b : positive) :
  (Zpos (digits2_pos a) + Zpos (digits2_pos b) - 1 <= Zpos (digits2_pos (a * b)))%Z.
Proof.
  pose proof (digits2_pos_bounds a) as (La & _).
  pose proof (digits2_pos_bounds b) as (Lb & _).
  pose proof (digits2_pos_bounds (a * b)) as (_ & U).
  set (da := Zpos (digits2_pos a)) in *. set (db := Zpos (digits2_pos b)) in *.
  set (d := Zpos (digits2_pos (a * b))) in *.
  assert (Hda : (0 < da)%Z) by (unfold da; lia).
  assert (Hdb : (0 < db)%Z) by (unfold db; lia).
  assert (P : (2 ^ (da - 1 + (db - 1)) <= Zpos a * Zpos b)%Z).
  { rewrite Z.pow_add_r by lia. apply Z.mul_le_mono_nonneg; try lia;
      apply Z.pow_nonneg; lia. }
  rewrite Pos2Z.inj_mul in U.
  assert (H : (2 ^ (da - 1 + (db - 1)) < 2 ^ d)%Z) by lia.
  apply Z.pow_lt_mono_r_iff in H; unfold d; lia.
Qed.

Lemma SFfinite_valid (x : spec_float) (s : bool) (m : positive) (e : Z) :
  valid_binary x = true -> x = S754_finite s m e ->
  (emin <= e <= 971)%Z /\ (Zpos (digits2_pos m) <= 53)%Z /\
  (emin < e -> Zpos (digits2_pos m) = 53)%Z.
Proof.
  intros V ->. cbn [valid_binary] in V.
  pose proof (canonical_bounds m e V) as (A & B & C).
  unfold bounded in V. apply andb_prop in V. destruct V as (_ & V).
  apply Z.leb_le in V. unfold prec, emax in V. repeat split; try assumption; lia.
Qed.

Lemma SFmul_approx (x y : spec_float) :
  valid_binary x = true -> valid_binary y = true ->
  SFfinite x -> SFfinite y ->
  Qabs (SFreal x * SFreal y) < 2 ^ 1023 ->
  approx eta (SFreal x * SFreal y) (SFmul prec emax x y).
Proof.
  intros Vx Vy Fx Fy Hb.
  destruct x as [ sx | sx | | sx mx ex ]; try contradiction;
    destruct y as [ sy | sy | | sy my ey ]; try contradiction;
    cbn [SFmul];
    try (apply approx_exact; [ apply Qlt_le_weak, eta_pos | exact I | cbn [SFreal]; ring ]).
  pose proof (SFfinite_valid _ sx mx ex Vx eq_refl) as (Hex & Hdx & Hnx).
  pose proof (SFfinite_valid _ sy my ey Vy eq_refl) as (Hey & Hdy & Hny).
  cbn [SFreal] in *.
  assert (E : signed sx (inject_Z (Zpos mx) * 2 ^ ex) * signed sy (inject_Z (Zpos my) * 2 ^ ey)
              == signed (xorb sx sy) (inject_Z (Zpos (mx * my)) * 2 ^ (ex + ey))).
  { destruct sx, sy; cbn [signed xorb];
      rewrite Pos2Z.inj_mul, inject_Z_mult, pow2_add; ring. }
  rewrite E in Hb. apply (approx_ext _ _ _ _ (Qeq_sym _ _ E)).
  assert (Ea : Qabs (signed (xorb sx sy) (inject_Z (Zpos (mx * my)) * 2 ^ (ex + ey)))
               == inject_Z (Zpos (mx * my)) * 2 ^ (ex + ey)).
  { destruct (xorb sx sy); cbn [signed]; [ rewrite Qabs_opp | ];
      apply Qabs_pos, Qlt_le_weak, mantissa_value_pos. }
  rewrite Ea in Hb.
  apply binary_round_aux_approx;
    [ apply Qlt_le_weak, eta_pos | intros _; apply Qle_refl | | exact Hb ].
  pose proof (digits_mul_ge mx my).
  unfold SpecFloat.emin, prec, emax in *. lia.
Qed.

Lemma SFadd_approx (x y : spec_float) :
  valid_binary x = true -> valid_binary y = true ->
  SFfinite x -> SFfinite y ->
  Qabs (SFreal x + SFreal y) < 2 ^ 1023 ->
  approx 0 (SFreal x + SFreal y) (SFadd prec emax x y).
Proof.
  intros Vx Vy Fx Fy Hb.
  destruct x as [ sx | sx | | sx mx ex ]; try contradiction;
    destruct y as [ sy | sy | | sy my ey ]; try contradiction;
    cbn [SFadd].
  - destruct sx, sy; apply approx_exact; try exact I; try apply Qle_refl; cbn [SFreal]; ring.
  - apply approx_exact; [ apply Qle_refl | exact I | cbn [SFreal]; ring ].
  - apply approx_exact; [ apply Qle_refl | exact I | cbn [SFreal]; ring ].
  - pose proof (SFfinite_valid _ sx mx ex Vx eq_refl) as (Hex & _).
    pose proof (SFfinite_valid _ sy my ey Vy eq_refl) as (Hey & _).
    cbv zeta. set (ez := Z.min ex ey).
    cbn [SFreal] in *.
    assert (E : inject_Z (cond_Zopp sx (Zpos (fst (shl_align mx ex ez))) +
                          cond_Zopp sy (Zpos (fst (shl_align my ey ez)))) * 2 ^ ez
                == signed sx (inject_Z (Zpos mx) * 2 ^ ex) + signed sy (inject_Z (Zpos my) * 2 ^ ey)).
    { rewrite inject_Z_plus, Qmult_plus_distr_l.
      rewrite !aligned_value by (unfold ez; lia). reflexivity. }
    rewrite <- E in Hb. apply (approx_ext _ _ _ _ E).
    apply binary_normalize_approx;
      [ unfold ez, SpecFloat.emin, prec, emax in *; lia | exact Hb ].
Qed.

Lemma SFsub_approx (x y : spec_float) :
  valid_binary x = true -> valid_binary y = true ->
  SFfinite x -> SFfinite y ->
  Qabs (SFreal x - SFreal y) < 2 ^ 1023 ->
  approx 0 (SFreal x - SFreal y) (SFsub prec emax x y).
Proof.
  intros Vx Vy Fx Fy Hb.
  destruct x as [ sx | sx | | sx mx ex ]; try contradiction;
    destruct y as [ sy | sy | | sy my ey ]; try contradiction;
    cbn [SFsub].
  - destruct sx, sy; apply approx_exact; try exact I; try apply Qle_refl; cbn [SFreal]; ring.
  - apply approx_exact; [ apply Qle_refl | exact I | ].
    cbn [SFreal]. destruct sy; cbn [signed negb]; ring.
  - apply approx_exact; [ apply Qle_refl | exact I | cbn [SFreal]; ring ].
  - pose proof (SFfinite_valid _ sx mx ex Vx eq_refl) as (Hex & _).
    pose proof (SFfinite_valid _ sy my ey Vy eq_refl) as (Hey & _).
    cbv zeta. set (ez := Z.min ex ey).
    cbn [SFreal] in *.
    assert (E : inject_Z (cond_Zopp sx (Zpos (fst (shl_align mx ex ez))) -
                          cond_Zopp sy (Zpos (fst (shl_align my ey ez)))) * 2 ^ ez
                == signed sx (inject_Z (Zpos mx) * 2 ^ ex) - signed sy (inject_Z (Zpos my) * 2 ^ ey)).
    { unfold Z.sub. rewrite inject_Z_plus, inject_Z_opp, Qmult_plus_distr_l.
      setoid_replace (- inject_Z (cond_Zopp sy (Zpos (fst (shl_align my ey ez)))) * 2 ^ ez)
        with (- (inject_Z (cond_Zopp sy (Zpos (fst (shl_align my ey ez)))) * 2 ^ ez)) by ring.
      rewrite !aligned_value by (unfold ez; lia). reflexivity. }
    rewrite <- E in Hb. apply (approx_ext _ _ _ _ E).
    apply binary_normalize_approx;
      [ unfold ez, SpecFloat.emin, prec, emax in *; lia | exact Hb ].
Qed.

Lemma mantissa_value (m : positive) (e : Z) :
  match e with
  | Zneg e' => Zpos m # Pos.pow 2 e'
  | _ => inject_Z (Zpos m * 2 ^ e)
  end == inject_Z (Zpos m) * 2 ^ e.
Proof.
  destruct e as [ | p | p ].
  - rewrite inject_Z_mult, pow2_inject by lia. reflexivity.
  - rewrite inject_Z_mult, pow2_inject by lia. reflexivity.
  - rewrite Qmake_Qdiv. change (Zneg p) with (- Zpos p)%Z.
    rewrite Qpower_opp, <- pow2_inject by lia.
    rewrite Pos2Z.inj_pow. reflexivity.
Qed.

Lemma value_SF (x : float) (v : Q) :
  Binary64.value x = Some v -> SFfinite (Prim2SF x) /\ v == SFreal (Prim2SF x).
Proof.
  unfold Binary64.value. destruct (Prim2SF x) as [ s | s | | s m e ]; try discriminate.
  - intros [= <-]. split; [ exact I | reflexivity ].
  - intros [= <-]. split; [ exact I | ].
    pose proof (mantissa_value m e) as P.
    destruct s; unfold SFreal, signed; [ apply Qopp_comp | ]; exact P.
Qed.

Lemma SF_value (x : float) :
  SFfinite (Prim2SF x) -> exists v, Binary64.value x = Some v /\ v == SFreal (Prim2SF x).
Proof.
  intros F. unfold Binary64.value. destruct (Prim2SF x) as [ s | s | | s m e ]; try contradiction.
  - eexists. split; [ reflexivity | reflexivity ].
  - eexists. split; [ reflexivity | ].
    pose proof (mantissa_value m e) as P.
    destruct s; unfold SFreal, signed; [ apply Qopp_comp | ]; exact P.
Qed.

Lemma approxF_of_SF (h X Y : Q) (z : float) :
  X == Y -> approx h X (Prim2SF z) -> approxF h Y z.
Proof.
  intros E (F & A & P & N).
  destruct (SF_value z F) as (v & Ev & Hv).
  exists v. split; [ exact Ev | ]. rewrite Hv, <- E. repeat split; assumption.
Qed.

Lemma mul_approx (x y : float) (vx vy : Q) :
  Binary64.value x = Some vx -> Binary64.value y = Some vy ->
  Qabs (vx * vy) < 2 ^ 1023 ->
  approxF eta (vx * vy) (PrimFloat.mul x y).
Proof.
  intros Hx Hy Hb.
  destruct (value_SF x vx Hx) as (Fx & Ex). destruct (value_SF y vy Hy) as (Fy & Ey).
  apply approxF_of_SF with (SFreal (Prim2SF x) * SFreal (Prim2SF y)).
  - rewrite Ex, Ey. reflexivity.
  - rewrite mul_spec. apply SFmul_approx; try assumption; try apply Prim2SF_valid.
    rewrite <- Ex, <- Ey. exact Hb.
Qed.

Lemma add_approx (x y : float) (vx vy : Q) :
  Binary64.value x = Some vx -> Binary64.value y = Some vy ->
  Qabs (vx + vy) < 2 ^ 1023 ->
  approxF 0 (vx + vy) (PrimFloat.add x y).
Proof.
  intros Hx Hy Hb.
  destruct (value_SF x vx Hx) as (Fx & Ex). destruct (value_SF y vy Hy) as (Fy & Ey).
  apply approxF_of_SF with (SFreal (Prim2SF x) + SFreal (Prim2SF y)).
  - rewrite Ex, Ey. reflexivity.
  - rewrite add_spec. apply SFadd_approx; try assumption; try apply Prim2SF_valid.
    rewrite <- Ex, <- Ey. exact Hb.
Qed.

Lemma sub_approx (x y : float) (vx vy : Q) :
  Binary64.value x = Some vx -> Binary64.value y = Some vy ->
  Qabs (vx - vy) < 2 ^ 1023 ->
  approxF 0 (vx - vy) (PrimFloat.sub x y).
Proof.
  intros Hx Hy Hb.
  destruct (value_SF x vx Hx) as (Fx & Ex). destruct (value_SF y vy Hy) as (Fy & Ey).
  apply approxF_of_SF with (SFreal (Prim2SF x) - SFreal (Prim2SF y)).
  - rewrite Ex, Ey. reflexivity.
  - rewrite sub_spec. apply SFsub_approx; try assumption; try apply Prim2SF_valid.
    rewrite <- Ex, <- Ey. exact Hb.
Qed.

(** Every finite double is a whole number of units [2^-1074]. *)
Lemma value_grid (x : float) (v : Q) :
  Binary64.value x = Some v -> exists k : Z, v == inject_Z k * (2 * eta).
Proof.
  intros Hx. destruct (value_SF x v Hx) as (_ & Ev).
  pose proof (Prim2SF_valid x) as V.
  destruct (Prim2SF x) as [ s | s | | s m e ] eqn:E; cbn [SFreal] in Ev.
  - exists 0%Z. rewrite Ev. ring.
  - exists 0%Z. rewrite Ev. ring.
  - exists 0%Z. rewrite Ev. ring.
  - pose proof (SFfinite_valid _ s m e V eq_refl) as (He & _).
    unfold SpecFloat.emin, prec, emax in He.
    assert (P : 2 ^ e == inject_Z (2 ^ (e + 1074)) * (2 * eta)).
    { rewrite pow2_inject by lia.
      assert (U : 2 * eta == 2 ^ (-1074)) by reflexivity. rewrite U.
      rewrite <- pow2_add. replace (e + 1074 + -1074)%Z with e by lia. reflexivity. }
    exists (if s then - (Zpos m * 2 ^ (e + 1074)) else Zpos m * 2 ^ (e + 1074))%Z.
    rewrite Ev. destruct s; cbn [signed];
      rewrite ?inject_Z_opp, inject_Z_mult, P; ring.
Qed.

Lemma value_pos_gt (x : float) (v : Q) :
  Binary64.value x = Some v -> 0 < v -> PrimFloat.ltb PrimFloat.zero x = true.
Proof.
  intros Hx Hv. destruct (value_SF x v Hx) as (_ & Ev).
  rewrite ltb_spec. change (Prim2SF PrimFloat.zero) with (S754_zero false).
  destruct (Prim2SF x) as [ s | s | | s m e ]; cbn [SFreal] in Ev.
  - rewrite Ev in Hv. discriminate.
  - rewrite Ev in Hv. discriminate.
  - rewrite Ev in Hv. discriminate.
  - destruct s; cbn [signed] in Ev; [ | reflexivity ].
    pose proof (mantissa_value_pos m e). lra.
Qed.

Lemma SF_value_exists (x : float) :
  SFfinite (Prim2SF x) -> exists v, Binary64.value x = Some v.
Proof. intros F. destruct (SF_value x F) as (v & Hv & _). exists v. exact Hv. Qed.

Lemma SFreal_sign (s : bool) (z : spec_float) :
  has_sign s z -> if s then SFreal z <= 0 else 0 <= SFreal z.
Proof.
  destruct z as [ s' | s' | | s' m e ]; cbn [has_sign SFreal]; intros Hs;
    try contradiction; subst.
  - destruct s; apply Qle_refl.
  - destruct s; apply Qle_refl.
  - pose proof (mantissa_value_pos m e). destruct s; cbn [signed]; lra.
Qed.

Lemma SFreal_nonneg_sign (s : bool) (m : positive) (e : Z) :
  0 <= SFreal (S754_finite s m e) -> s = false.
Proof.
  cbn [SFreal]. pose proof (mantissa_value_pos m e).
  destruct s; cbn [signed]; intros; [ lra | reflexivity ].
Qed.

Lemma value_at_least_zero (x : float) (v : Q) :
  Binary64.value x = Some v -> 0 <= v -> at_least_zero (Prim2SF x).
Proof.
  intros Hx Hv. destruct (value_SF x v Hx) as (F & E). rewrite E in Hv.
  destruct (Prim2SF x) as [ s | s | | s m e ]; try contradiction; cbn [at_least_zero].
  - exact I.
  - apply (SFreal_nonneg_sign s m e Hv).
Qed.

(** The product of two doubles that are at least zero, when finite, is at
    least zero. *)
Lemma mul_nonneg (x y : float) (vx vy v : Q) :
  Binary64.value x = Some vx -> 0 <= vx -> Binary64.value y = Some vy -> 0 <= vy ->
  Binary64.value (PrimFloat.mul x y) = Some v -> 0 <= v.
Proof.
  intros Hx Px Hy Py Hv.
  destruct (value_SF x vx Hx) as (Fx & Ex). destruct (value_SF y vy Hy) as (Fy & Ey).
  destruct (value_SF _ v Hv) as (Fv & Ev). rewrite Ex in Px. rewrite Ey in Py.
  rewrite mul_spec in Fv, Ev. rewrite Ev. unfold SF64mul in *.
  destruct (Prim2SF x) as [ sx | sx | | sx mx ex ]; try contradiction;
    destruct (Prim2SF y) as [ sy | sy | | sy my ey ]; try contradiction;
    cbn [SFmul SFreal]; try apply Qle_refl.
  pose proof (SFreal_nonneg_sign _ _ _ Px). pose proof (SFreal_nonneg_sign _ _ _ Py).
  subst sx sy. cbn [xorb].
  apply (SFreal_sign false). apply binary_round_aux_has_sign. lia.
Qed.

(** A finite sum has finite terms. *)
Lemma add_finite_r (x y : float) (vx v : Q) :
  Binary64.value x = Some vx -> Binary64.value (PrimFloat.add x y) = Some v ->
  exists vy, Binary64.value y = Some vy.
Proof.
  intros Hx Hv.
  destruct (value_SF x vx Hx) as (Fx & _). destruct (value_SF _ v Hv) as (Fv & _).
  rewrite add_spec in Fv. unfold SF64add in Fv. apply SF_value_exists.
  destruct (Prim2SF x) as [ sx | sx | | sx mx ex ]; try contradiction;
    destruct (Prim2SF y) as [ sy | sy | | sy my ey ]; try contradiction; exact I.
Qed.

(** The sum of two doubles that are at least zero, when finite, is at least
    zero, and is zero only when both are. *)
Lemma add_nonneg (x y : float) (vx vy v : Q) :
  Binary64.value x = Some vx -> 0 <= vx -> Binary64.value y = Some vy -> 0 <= vy ->
  Binary64.value (PrimFloat.add x y) = Some v ->
  0 <= v /\ (v == 0 <-> vx == 0 /\ vy == 0).
Proof.
  intros Hx Px Hy Py Hv.
  destruct (value_SF x vx Hx) as (Fx & Ex). destruct (value_SF y vy Hy) as (Fy & Ey).
  destruct (value_SF _ v Hv) as (Fv & Ev). rewrite Ex in Px. rewrite Ey in Py.
  rewrite add_spec in Fv, Ev. rewrite Ev, Ex, Ey. clear Ev Ex Ey Hx Hy Hv.
  unfold SF64add in *.
  pose proof (Prim2SF_valid x) as Vx. pose proof (Prim2SF_valid y) as Vy.
  destruct (Prim2SF x) as [ sx | sx | | sx mx ex ]; try contradiction;
    destruct (Prim2SF y) as [ sy | sy | | sy my ey ]; try contradiction.
  - assert (E : SFreal (SFadd prec emax (S754_zero sx) (S754_zero sy)) == 0)
      by (destruct sx, sy; reflexivity).
    rewrite E. cbn [SFreal]. split; [ apply Qle_refl | ].
    split; intros; [ split | ]; reflexivity.
  - cbn [SFadd]. split; [ exact Py | ]. cbn [SFreal] in *.
    split; [ intros E; split; [ reflexivity | exact E ] | intros (_ & E); exact E ].
  - cbn [SFadd]. split; [ exact Px | ]. cbn [SFreal] in *.
    split; [ intros E; split; [ exact E | reflexivity ] | intros (E & _); exact E ].
  - pose proof (SFreal_nonneg_sign _ _ _ Px). pose proof (SFreal_nonneg_sign _ _ _ Py).
    subst sx sy.
    pose proof (SFfinite_valid _ false mx ex Vx eq_refl) as (Hex & _).
    pose proof (SFfinite_valid _ false my ey Vy eq_refl) as (Hey & _).
    cbn [SFadd] in *. cbv zeta in *. cbn [cond_Zopp] in *.
    set (ez := Z.min ex ey) in *.
    change (Zpos (fst (shl_align mx ex ez)) + Zpos (fst (shl_align my ey ez)))%Z
      with (Zpos (fst (shl_align mx ex ez) + fst (shl_align my ey ez))) in *.
    cbn [binary_normalize] in *.
    pose proof (binary_round_nonzero false
                  (fst (shl_align mx ex ez) + fst (shl_align my ey ez)) ez
                  ltac:(unfold ez; lia)) as N.
    destruct (binary_round prec emax false _ ez) as [ s | s | | s m e ];
      cbn [nonzero_of_sign SFfinite] in N, Fv; try contradiction.
    subst s.
    cbn [SFreal signed].
    pose proof (mantissa_value_pos m e). pose proof (mantissa_value_pos mx ex).
    split; [ lra | ]. split; [ intros; lra | intros (? & _); lra ].
Qed.

Lemma approxF_interval (h X L U : Q) (z : float) :
  0 <= h -> 0 <= L -> 0 <= U -> - L <= X <= U -> approxF h X z ->
  exists v, Binary64.value z = Some v /\
    - (L * (1 + eps) + h) <= v <= U * (1 + eps) + h /\
    (0 < X -> X * (1 - eps) - h <= v).
Proof.
  intros Hh HL HU (HXl & HXu) (v & Hv & A & P & N).
  exists v. split; [ exact Hv | ].
  destruct (Qlt_le_dec X 0) as [ Hneg | Hpos ].
  - rewrite (Qabs_neg X) in A by lra.
    apply Qabs_Qle_condition in A. destruct A as (A1 & A2).
    specialize (N ltac:(lra)). unfold eps in *. split; [ split | ]; intros; lra.
  - rewrite (Qabs_pos X) in A by lra.
    apply Qabs_Qle_condition in A. destruct A as (A1 & A2).
    specialize (P Hpos). unfold eps in *. split; [ split | ]; intros; lra.
Qed.

Lemma below_overflow (b x : Q) :
  0 <= b <= 2 ^ 1000 -> - (100 * b + 100) <= x <= 100 * b + 100 -> Qabs x < 2 ^ 1023.
Proof.
  intros Hb Hx.
  assert (HT : 2 ^ 1023 == 8388608 * 2 ^ 1000).
  { change 1023%Z with (23 + 1000)%Z. rewrite pow2_add. reflexivity. }
  assert (H1 : 1 <= 2 ^ 1000) by (change 1 with (2 ^ 0); apply pow2_le; lia).
  rewrite HT. apply Qabs_Qlt_condition.
  generalize dependent (2 ^ 1000). intros T HbT _ HT1. split; lra.
Qed.

Lemma eta_small : eta <= 1.
Proof. change 1 with (2 ^ 0). apply pow2_le. lia. Qed.

Lemma grid_unit (k : Z) (u : Q) :
  0 < u -> - u < inject_Z k * u < u -> inject_Z k * u == 0.
Proof.
  intros Hu (L & U).
  assert (Hk : (-1 < k < 1)%Z).
  { split; rewrite Zlt_Qlt.
    - change (inject_Z (-1)) with (- (1)). 
      apply Qnot_le_lt. intros C.
      assert (inject_Z k * u <= - (1) * u) by (apply Qmult_le_compat_r; lra). lra.
    - change (inject_Z 1) with 1.
      apply Qnot_le_lt. intros C.
      assert (1 * u <= inject_Z k * u) by (apply Qmult_le_compat_r; lra). lra. }
  assert (k = 0%Z) by lia. subst k. ring.
Qed.

Lemma grid_pos (k : Z) (u : Q) :
  0 < u -> 0 < inject_Z k * u -> u <= inject_Z k * u.
Proof.
  intros Hu Hp.
  assert (Hk : (0 < k)%Z).
  { rewrite Zlt_Qlt. change (inject_Z 0) with 0.
    apply Qnot_le_lt. intros C.
    assert (inject_Z k * u <= 0 * u) by (apply Qmult_le_compat_r; lra). lra. }
  assert (H1 : 1 <= inject_Z k).
  { change 1 with (inject_Z 1). rewrite <- Zle_Qle. lia. }
  assert (1 * u <= inject_Z k * u) by (apply Qmult_le_compat_r; lra). lra.
Qed.

Lemma grid_below (k : Z) (u : Q) :
  0 < u -> inject_Z k * u < 2 * u -> inject_Z k * u <= u.
Proof.
  intros Hu U.
  assert (Hk : (k < 2)%Z).
  { rewrite Zlt_Qlt. change (inject_Z 2) with 2.
    apply Qnot_le_lt. intros C.
    assert (2 * u <= inject_Z k * u) by (apply Qmult_le_compat_r; lra). lra. }
  assert (H1 : inject_Z k <= 1).
  { change 1 with (inject_Z 1). rewrite <- Zle_Qle. lia. }
  assert (inject_Z k * u <= 1 * u) by (apply Qmult_le_compat_r; lra). lra.
Qed.

Lemma grid_one (k : Z) (u : Q) :
  0 < u -> 0 < inject_Z k * u < 2 * u -> inject_Z k * u == u.
Proof.
  intros Hu (L & U).
  assert (Hk : (0 < k < 2)%Z).
  { split; rewrite Zlt_Qlt.
    - change (inject_Z 0) with 0.
      apply Qnot_le_lt. intros C.
      assert (inject_Z k * u <= 0 * u) by (apply Qmult_le_compat_r; lra). lra.
    - change (inject_Z 2) with 2.
      apply Qnot_le_lt. intros C.
      assert (2 * u <= inject_Z k * u) by (apply Qmult_le_compat_r; lra). lra. }
  assert (k = 1%Z) by lia. subst k. ring.
Qed.

Lemma scale_interval (b c lo hi : Q) :
  0 <= b -> - lo <= c <= hi -> - (lo * b) <= c * b <= hi * b.
Proof.
  intros Hb (L & U). split.
  - setoid_replace (- (lo * b)) with ((- lo) * b) by ring.
    apply Qmult_le_compat_r; assumption.
  - apply Qmult_le_compat_r; assumption.
Qed.

Lemma shrink (a w : Q) : 0 <= a -> 0 <= w <= 1 -> 0 <= a * w <= a.
Proof.
  intros Ha (L & U). split.
  - apply Qmult_le_0_compat; assumption.
  - setoid_replace a with (1 * a) at 2 by ring. rewrite (Qmult_comm a w).
    apply Qmult_le_compat_r; assumption.
Qed.

Section Adjusted.

Variables (base u d five w1 w2 : float).
Variables (b vu vd v5 W1 W2 : Q).
Hypothesis Hbase : Binary64.value base = Some b.
Hypothesis Hbpos : 0 <= b.
Hypothesis Hbmax : b <= 2 ^ 1000.
Hypothesis Hu : Binary64.value u = Some vu.
Hypothesis Hur : 1 <= vu <= 10.
Hypothesis Hd : Binary64.value d = Some vd.
Hypothesis Hdr : 1 <= vd <= 10.
Hypothesis H5 : Binary64.value five = Some v5.
Hypothesis E5 : v5 == 5.
Hypothesis Hw1 : Binary64.value w1 = Some W1.
Hypothesis EW1 : W1 == 3602879701896397 # 72057594037927936.
Hypothesis Hw2 : Binary64.value w2 = Some W2.
Hypothesis EW2 : W2 == 5764607523034235 # 144115188075855872.

(** One rating adjustment [base * (rating - 5) * weight]. *)
Lemma adjustment_interval (r w : float) (vr W Wc : Q) :
  Binary64.value r = Some vr -> 1 <= vr <= 10 ->
  Binary64.value w = Some W -> W == Wc -> 0 <= Wc <= 1 ->
  exists v,
    Binary64.value (PrimFloat.mul (PrimFloat.mul base (PrimFloat.sub r five)) w) = Some v /\
    - (((4 * (1 + eps) * b) * (1 + eps) + eta) * Wc * (1 + eps) + eta) <= v /\
    v <= ((5 * (1 + eps) * b) * (1 + eps) + eta) * Wc * (1 + eps) + eta.
Proof.
  intros Hr Hrr Hw EW HWc.
  pose proof eta_pos as He0. pose proof eta_small as He1.
  assert (Hbr : 0 <= b <= 2 ^ 1000) by (split; [ exact Hbpos | exact Hbmax ]).
  (* rating - 5 *)
  assert (B1 : Qabs (vr - v5) < 2 ^ 1023).
  { apply (below_overflow b); [ exact Hbr | rewrite E5; lra ]. }
  destruct (approxF_interval 0 (vr - v5) 4 5 _ ltac:(lra) ltac:(lra) ltac:(lra)
              ltac:(rewrite E5; lra) (sub_approx r five vr v5 Hr H5 B1))
    as (c & Hc & (Lc & Uc) & _).
  (* base * (rating - 5) *)
  assert (P1 : - (4 * (1 + eps) * b) <= b * c <= 5 * (1 + eps) * b).
  { rewrite (Qmult_comm b c). apply scale_interval; [ lra | ].
    unfold eps in *. split; lra. }
  assert (B2 : Qabs (b * c) < 2 ^ 1023).
  { apply (below_overflow b); [ exact Hbr | unfold eps in *; split; lra ]. }
  destruct (approxF_interval eta (b * c) (4 * (1 + eps) * b) (5 * (1 + eps) * b) _
              ltac:(lra) ltac:(unfold eps; lra) ltac:(unfold eps; lra) P1
              (mul_approx base _ b c Hbase Hc B2))
    as (x & Hx & (Lx & Ux) & _).
  clear P1 B2 Lc Uc. generalize dependent (b * c). intros.
  (* ... * weight *)
  set (Lx' := 4 * (1 + eps) * b * (1 + eps) + eta) in *.
  set (Ux' := 5 * (1 + eps) * b * (1 + eps) + eta) in *.
  assert (HL0 : 0 <= Lx' <= 50 * b + 50) by (unfold Lx', eps; split; lra).
  assert (HU0 : 0 <= Ux' <= 50 * b + 50) by (unfold Ux', eps; split; lra).
  assert (P2 : - (Lx' * Wc) <= x * W <= Ux' * Wc).
  { rewrite EW. apply scale_interval; [ lra | split; assumption ]. }
  destruct (shrink Lx' Wc ltac:(lra) HWc) as (SL0 & SL1).
  destruct (shrink Ux' Wc ltac:(lra) HWc) as (SU0 & SU1).
  assert (B3 : Qabs (x * W) < 2 ^ 1023).
  { apply (below_overflow b); [ exact Hbr | ]. split; lra. }
  destruct (approxF_interval eta (x * W) _ _ _
              ltac:(lra) SL0 SU0 P2 (mul_approx _ w x W Hx Hw B3))
    as (v & Hv & (Lv & Uv) & _).
  exists v. split; [ exact Hv | ]. split; assumption.
Qed.

(** The factor adjustment and the adjusted price. *)
Lemma adjusted_interval :
  exists f a,
    Binary64.value (PrimFloat.add
             (PrimFloat.mul (PrimFloat.mul base (PrimFloat.sub u five)) w1)
             (PrimFloat.mul (PrimFloat.mul base (PrimFloat.sub d five)) w2)) = Some f /\
    Binary64.value (PrimFloat.add base
             (PrimFloat.add
                (PrimFloat.mul (PrimFloat.mul base (PrimFloat.sub u five)) w1)
                (PrimFloat.mul (PrimFloat.mul base (PrimFloat.sub d five)) w2))) = Some a /\
    - ((36 # 100) * (1 + 2 ^ (-50)) * b) - 2 ^ (-1073) <= f /\
    (64 # 100) * (1 - 2 ^ (-50)) * b - 2 ^ (-1073) <= a /\
    0 <= a /\ (0 < b -> 0 < a) /\ (b == 0 -> a == 0) /\ a <= 3 * b.
Proof.
  pose proof eta_pos as He0. pose proof eta_small as He1.
  assert (Hbr : 0 <= b <= 2 ^ 1000) by (split; [ exact Hbpos | exact Hbmax ]).
  assert (E50 : 2 ^ (-50) == 1 # 1125899906842624) by reflexivity.
  assert (E1073 : 2 ^ (-1073) == 4 * eta) by reflexivity.
  destruct (adjustment_interval u w1 vu W1 _ Hu Hur Hw1 EW1 ltac:(split; discriminate))
    as (ua & Hua & Lua & Uua).
  destruct (adjustment_interval d w2 vd W2 _ Hd Hdr Hw2 EW2 ltac:(split; discriminate))
    as (da & Hda & Lda & Uda).
  set (UA := PrimFloat.mul (PrimFloat.mul base (PrimFloat.sub u five)) w1) in *.
  set (DA := PrimFloat.mul (PrimFloat.mul base (PrimFloat.sub d five)) w2) in *.
  unfold eps in Lua, Uua, Lda, Uda.
  destruct (Qlt_le_dec b (4 * eta)) as [ Hsmall | Hlarge ].
  - (* the base price is zero or the smallest positive double *)
    destruct (value_grid base b Hbase) as (kb & Eb).
    assert (Eb2 : b <= 2 * eta).
    { rewrite Eb. apply grid_below; [ lra | rewrite <- Eb; lra ]. }
    destruct (value_grid UA ua Hua) as (ka & Eka).
    assert (Eua : ua == 0).
    { rewrite Eka. apply grid_unit; [ lra | rewrite <- Eka; split; lra ]. }
    destruct (value_grid DA da Hda) as (kd & Ekd).
    assert (Eda : da == 0).
    { rewrite Ekd. apply grid_unit; [ lra | rewrite <- Ekd; split; lra ]. }
    assert (B1 : Qabs (ua + da) < 2 ^ 1023).
    { apply (below_overflow b); [ exact Hbr | split; lra ]. }
    destruct (approxF_interval 0 (ua + da) 0 0 _ ltac:(lra) ltac:(lra) ltac:(lra)
                ltac:(split; lra) (add_approx UA DA ua da Hua Hda B1))
      as (f & Hf & (Lf & Uf) & _).
    assert (B2 : Qabs (b + f) < 2 ^ 1023).
    { apply (below_overflow b); [ exact Hbr | split; lra ]. }
    destruct (approxF_interval 0 (b + f) 0 b _ ltac:(lra) ltac:(lra) ltac:(lra)
                ltac:(split; lra) (add_approx base _ b f Hbase Hf B2))
      as (a & Ha & (La & Ua) & Pa).
    unfold eps in *.
    exists f, a. rewrite E50, E1073.
    repeat split; try assumption; lra.
  - (* at least two units *)
    assert (B1 : Qabs (ua + da) < 2 ^ 1023).
    { apply (below_overflow b); [ exact Hbr | split; lra ]. }
    set (Lu := (4 * (1 + (1 # 9007199254740992)) * b * (1 + (1 # 9007199254740992)) + eta) *
               (3602879701896397 # 72057594037927936) * (1 + (1 # 9007199254740992)) + eta) in *.
    set (Ld := (4 * (1 + (1 # 9007199254740992)) * b * (1 + (1 # 9007199254740992)) + eta) *
               (5764607523034235 # 144115188075855872) * (1 + (1 # 9007199254740992)) + eta) in *.
    set (Uu := (5 * (1 + (1 # 9007199254740992)) * b * (1 + (1 # 9007199254740992)) + eta) *
               (3602879701896397 # 72057594037927936) * (1 + (1 # 9007199254740992)) + eta) in *.
    set (Ud := (5 * (1 + (1 # 9007199254740992)) * b * (1 + (1 # 9007199254740992)) + eta) *
               (5764607523034235 # 144115188075855872) * (1 + (1 # 9007199254740992)) + eta) in *.
    destruct (approxF_interval 0 (ua + da) (Lu + Ld) (Uu + Ud) _
                ltac:(lra) ltac:(unfold Lu, Ld; lra) ltac:(unfold Uu, Ud; lra)
                ltac:(split; lra) (add_approx UA DA ua da Hua Hda B1))
      as (f & Hf & (Lf & Uf) & _).
    unfold eps in Lf, Uf. unfold Lu, Ld, Uu, Ud in *.
    assert (B2 : Qabs (b + f) < 2 ^ 1023).
    { apply (below_overflow b); [ exact Hbr | split; lra ]. }
    destruct (approxF_interval 0 (b + f) 0 (2 * b) _ ltac:(lra) ltac:(lra) ltac:(lra)
                ltac:(split; lra) (add_approx base _ b f Hbase Hf B2))
      as (a & Ha & (La & Ua) & Pa).
    specialize (Pa ltac:(lra)). unfold eps in *.
    exists f, a. rewrite E50, E1073. repeat split; try assumption; intros; lra.
Qed.

End Adjusted.

(** The suggested price [adjusted * 2] of a positive adjusted price is
    positive. *)
Lemma doubled_positive (x two : float) (a b v2 : Q) :
  Binary64.value x = Some a -> 0 < a -> a <= 3 * b -> 0 <= b <= 2 ^ 1000 ->
  Binary64.value two = Some v2 -> v2 == 2 ->
  exists p, Binary64.value (PrimFloat.mul x two) = Some p /\ 0 < p.
Proof.
  intros Hx Ha Hab Hb H2 E2.
  pose proof eta_pos as He0. pose proof eta_small as He1.
  destruct (value_grid x a Hx) as (k & Ek).
  assert (Hunit : 2 * eta <= a).
  { rewrite Ek. apply grid_pos; [ lra | rewrite <- Ek; exact Ha ]. }
  assert (B : Qabs (a * v2) < 2 ^ 1023).
  { apply (below_overflow b); [ exact Hb | rewrite E2; split; lra ]. }
  destruct (approxF_interval eta (a * v2) 0 (6 * b) _ ltac:(lra) ltac:(lra) ltac:(lra)
              ltac:(rewrite E2; split; lra) (mul_approx x two a v2 Hx H2 B))
    as (p & Hp & _ & Pp).
  specialize (Pp ltac:(rewrite E2; lra)). rewrite E2 in Pp. unfold eps in Pp.
  exists p. split; [ exact Hp | lra ].
Qed.

End Binary64Values.

(** ** A selling price below the adjusted price, on doubles *)

Section UndercutBinary64.
Import Pricing.

(** [round(x, n)] keeps the sign, and a NaN comes from a NaN only. *)
Lemma round_has_sign (s : bool) (x : float) (n : nat) :
  has_sign s (Prim2SF x) -> has_sign s (Prim2SF (Binary64.round x n)).
Proof.
  intros Hx. unfold Binary64.round.
  destruct (Prim2SF x) as [ s' | s' | | s' m e ] eqn:E; try (rewrite E; exact Hx).
  cbn [has_sign] in Hx. subst s'.
  assert (Hz : has_sign s (Prim2SF (if s then PrimFloat.neg_zero else PrimFloat.zero))).
  { destruct s; vm_compute; reflexivity. }
  destruct (match e with
            | Zneg e' => round_half_even (Zpos (m * scale10 n)) (Pos.pow 2 e')
            | _ => (Zpos (m * scale10 n) * 2 ^ e)%Z
            end) as [ | q | q ]; try exact Hz.
  apply SF2Prim_has_sign. unfold Binary64.SF64round_div.
  replace s with (xorb s false) at 1 by (destruct s; reflexivity).
  apply SFdiv_has_sign.
Qed.

Lemma round_nan (x : float) (n : nat) :
  Prim2SF x = S754_nan -> Prim2SF (Binary64.round x n) = S754_nan.
Proof. intros E. unfold Binary64.round. rewrite E. exact E. Qed.

(** A product with a finite non-zero factor. *)
Lemma mul_has_sign (sx sy : bool) (x y : float) (m : positive) (e : Z) :
  has_sign sx (Prim2SF x) -> Prim2SF y = S754_finite sy m e ->
  has_sign (xorb sx sy) (Prim2SF (PrimFloat.mul x y)).
Proof.
  intros Hx Ey. rewrite mul_spec, Ey. unfold SF64mul.
  destruct (Prim2SF x) as [ s1 | s1 | | s1 m1 e1 ]; cbn [has_sign] in Hx;
    try contradiction; subst s1; cbn [SFmul has_sign]; try reflexivity.
  apply binary_round_aux_has_sign. apply Pos2Z.is_nonneg.
Qed.

(** A quotient by a finite non-zero divisor. *)
Lemma div_has_sign (sx sy : bool) (x y : float) (m : positive) (e : Z) :
  has_sign sx (Prim2SF x) -> Prim2SF y = S754_finite sy m e ->
  has_sign (xorb sx sy) (Prim2SF (PrimFloat.div x y)).
Proof.
  intros Hx Ey. rewrite div_spec, Ey.
  destruct (Prim2SF x) as [ s1 | s1 | | s1 m1 e1 ]; cbn [has_sign] in Hx;
    try contradiction; subst s1; try reflexivity.
  apply SFdiv_has_sign.
Qed.

Lemma nonzero_has_sign (s : bool) (z : spec_float) :
  nonzero_of_sign s z -> has_sign s z.
Proof. destruct z; cbn; intros Hs; try contradiction; assumption. Qed.

(** Not a NaN and not above zero is [<= 0]. *)
Lemma has_sign_true_leb (x : float) :
  has_sign true (Prim2SF x) ->
  (PrimFloat.ltb x PrimFloat.zero || PrimFloat.eqb x PrimFloat.zero)%bool = true.
Proof.
  rewrite ltb_spec, eqb_spec. change (Prim2SF PrimFloat.zero) with (S754_zero false).
  destruct (Prim2SF x) as [ s | s | | s m e ]; cbn; try contradiction;
    intros ->; reflexivity.
Qed.

Lemma is_nan_of_SF (x : float) : Prim2SF x = S754_nan -> PrimFloat.is_nan x = true.
Proof. intros E. unfold PrimFloat.is_nan. rewrite eqb_spec, E. reflexivity. Qed.

(** What is below another double is not [+inf]. *)
Lemma positive_below_finite (p a : float) :
  nonzero_of_sign false (Prim2SF p) -> PrimFloat.ltb p a = true ->
  exists m e, Prim2SF p = S754_finite false m e.
Proof.
  rewrite ltb_spec. unfold SFltb. intros Hp Hlt.
  destruct (Prim2SF p) as [ s | s | | s m e ]; cbn in Hp; try contradiction; subst s.
  - destruct (Prim2SF a) as [ s2 | [ | ] | | s2 m2 e2 ]; discriminate.
  - exists m, e. reflexivity.
Qed.

(** A positive double is finite or [+inf], as [Binary64.value] tells. *)
Lemma positive_value_cases (a : float) :
  nonzero_of_sign false (Prim2SF a) ->
  (Binary64.value a <> None /\ exists m e, Prim2SF a = S754_finite false m e) \/
  (Binary64.value a = None /\ Prim2SF a = S754_infinity false).
Proof.
  unfold Binary64.value.
  destruct (Prim2SF a) as [ s | s | | s m e ]; cbn [nonzero_of_sign]; intros Hs;
    try contradiction; subst s.
  - right. split; reflexivity.
  - left. split; [ discriminate | exists m, e; reflexivity ].
Qed.

Lemma gt_zero_of_positive (x : float) :
  nonzero_of_sign false (Prim2SF x) -> PrimFloat.ltb PrimFloat.zero x = true.
Proof.
  rewrite ltb_spec. change (Prim2SF PrimFloat.zero) with (S754_zero false).
  unfold SFltb. destruct (Prim2SF x) as [ s | s | | s m e ]; cbn;
    try contradiction; intros ->; reflexivity.
Qed.

(** C4, as the code has it, on doubles.  For a selling price [P] given
    with [0 < P < adjusted_price], the profit before rounding,
    [P - adjusted_price], is strictly negative, and none of the three figures is
    clamped: the returned [profit_amount], [profit_margin_percentage] and
    [markup_percentage] are the roundings to 2 decimals of the profit, of
    [profit / P * 100] and of [profit / adjusted_price * 100].  The returned
    profit and margin are at most 0: negative, or a zero the rounding gives.
    So is the markup when the adjusted price is finite; when it has overflowed
    to infinity the markup is a NaN. *)
Theorem undercut_profit_not_clamped :
  forall (self : PricingCalculator float) (mc hw lr u d P : float)
         (r : PricingResult float),
    calculate_price self mc hw lr u d (Some P) = Ok r ->
    gtb P (of_int 0) = true ->
    ltb P (adjusted_price r) = true ->
    let profit := sub P (adjusted_price r) in
    ltb profit (of_int 0) = true /\
    profit_amount r = round profit 2 /\
    profit_margin_percentage r = round (mul (quot profit P) (of_int 100)) 2 /\
    markup_percentage r = round (mul (quot profit (adjusted_price r)) (of_int 100)) 2 /\
    Models.leb (profit_amount r) (of_int 0) = true /\
    Models.leb (profit_margin_percentage r) (of_int 0) = true /\
    gtb (markup_percentage r) (of_int 0) = false /\
    (Binary64.value (adjusted_price r) <> None ->
     Models.leb (markup_percentage r) (of_int 0) = true) /\
    (Binary64.value (adjusted_price r) = None ->
     PrimFloat.is_nan (markup_percentage r) = true).
Proof.
  intros self mc hw lr u d P r Hr HP Hlt. cbv zeta.
  destruct (calculate_price_inv _ _ _ _ _ _ _ _ Hr) as (l & Hl & ->).
  pose proof (calculate_locals_inv _ _ _ _ _ _ _ _ Hl) as Hinv. cbv zeta in Hinv.
  destruct Hinv as (_ & _ & _ & _ & _ & Hadj & Hfin & Hprof & _ & _ & Hmargin & Hmarkup).
  cbn [adjusted_price profit_amount profit_margin_percentage markup_percentage
       rounded_result] in *.
  rewrite <- Hadj in Hfin, Hprof, Hmargin, Hmarkup.
  cbn [price_is_set] in Hfin, Hprof, Hmargin, Hmarkup.
  rewrite HP in Hfin, Hprof, Hmargin, Hmarkup.
  set (adj := l_adjusted_price l) in *.
  change (PrimFloat.ltb PrimFloat.zero P = true) in HP.
  change (PrimFloat.ltb P adj = true) in Hlt.
  destruct (sub_lt_negative P adj HP Hlt) as (Nprofit & Padj).
  assert (Gadj : gtb adj (of_int 0) = true) by (apply gt_zero_of_positive; exact Padj).
  assert (GP : gtb P (of_int 0) = true) by exact HP.
  rewrite GP in Hmargin. rewrite Gadj in Hmarkup.
  rewrite Hprof, Hmargin, Hmarkup. clear Hprof Hmargin Hmarkup Hfin.
  destruct (positive_below_finite P adj (positive_of_gt_zero P HP) Hlt) as (mP & eP & EP).
  assert (E100 : exists m e, Prim2SF (of_int (F := float) 100) = S754_finite false m e)
    by (eexists; eexists; vm_compute; reflexivity).
  destruct E100 as (m100 & e100 & E100).
  assert (Sprofit : has_sign true (Prim2SF (PrimFloat.sub P adj)))
    by (apply nonzero_has_sign; exact Nprofit).
  assert (Hpercent : forall (y : float) (m : positive) (e : Z),
             Prim2SF y = S754_finite false m e ->
             has_sign true
               (Prim2SF (round (mul (quot (sub P adj) y) (of_int 100)) 2))).
  { intros y m e Ey. apply round_has_sign.
    apply (mul_has_sign true false _ _ m100 e100); [ | exact E100 ].
    apply (div_has_sign true false _ _ m e); assumption. }
  split; [ apply negative_lt_zero; exact Nprofit | ].
  split; [ reflexivity | ]. split; [ reflexivity | ]. split; [ reflexivity | ].
  split; [ apply has_sign_true_leb, round_has_sign; exact Sprofit | ].
  split; [ apply has_sign_true_leb; exact (Hpercent P mP eP EP) | ].
  destruct (positive_value_cases adj Padj) as [ (Hv & ma & ea & Ea) | (Hv & Ea) ].
  - pose proof (Hpercent adj ma ea Ea) as Hs.
    split; [ | split; [ intros _; apply has_sign_true_leb; exact Hs | intros C; contradiction ] ].
    change (PrimFloat.ltb PrimFloat.zero
              (round (mul (quot (sub P adj) adj) (of_int 100)) 2) = false).
    rewrite ltb_spec. change (Prim2SF PrimFloat.zero) with (S754_zero false).
    destruct (Prim2SF (round (mul (quot (sub P adj) adj) (of_int 100)) 2))
      as [ s | s | | s m e ]; cbn in Hs |- *; try contradiction; subst; reflexivity.
  - assert (Enan : Prim2SF (round (mul (quot (sub P adj) adj) (of_int 100)) 2) = S754_nan).
    { apply round_nan.
      change (Prim2SF (PrimFloat.mul (PrimFloat.div (PrimFloat.sub P adj) adj) (of_int 100))
              = S754_nan).
      rewrite mul_spec, div_spec, sub_spec, EP, Ea, E100. reflexivity. }
    split; [ | split; [ intros C; contradiction | intros _; apply is_nan_of_SF; exact Enan ] ].
    change (PrimFloat.ltb PrimFloat.zero
              (round (mul (quot (sub P adj) adj) (of_int 100)) 2) = false).
    rewrite ltb_spec, Enan. reflexivity.
Qed.

Local Open Scope float_scope.

Lemma undercut_profit_not_clamped_witness :
  exists r,
    calculate_price (F := float) init 100 0 0 5 5 (Some 60) = Ok r /\
    gtb 60 (of_int 0) = true /\
    ltb 60 (adjusted_price r) = true /\
    ltb (sub 60 (adjusted_price r)) (of_int 0) = true /\
    profit_amount r = round (sub 60 (adjusted_price r)) 2 /\
    profit_margin_percentage r
    = round (mul (quot (sub 60 (adjusted_price r)) 60) (of_int 100)) 2 /\
    markup_percentage r
    = round (mul (quot (sub 60 (adjusted_price r)) (adjusted_price r)) (of_int 100)) 2 /\
    Models.leb (profit_amount r) (of_int 0) = true /\
    Models.leb (profit_margin_percentage r) (of_int 0) = true /\
    gtb (markup_percentage r) (of_int 0) = false /\
    (Binary64.value (adjusted_price r) <> None ->
     Models.leb (markup_percentage r) (of_int 0) = true) /\
    (Binary64.value (adjusted_price r) = None ->
     PrimFloat.is_nan (markup_percentage r) = true).
Proof.
  eexists. split; [ vm_compute; reflexivity | ].
  split; [ reflexivity | ]. split; [ reflexivity | ].
  apply (undercut_profit_not_clamped init 100 0 0 5 5 60); reflexivity.
Defined.

(** When the costs overflow the adjusted price is infinite, and the markup
    of a selling price below it is a NaN: neither negative nor zero. *)
Lemma undercut_markup_nan_at_overflow :
  exists r,
    calculate_price (F := float) init 1 (lit (Qmake (10 ^ 200)%Z 1)) (lit (Qmake (10 ^ 200)%Z 1))
      6 6 (Some 100) = Ok r /\
    ltb 100 (adjusted_price r) = true /\
    PrimFloat.is_nan (markup_percentage r) = true /\
    ltb (markup_percentage r) (of_int 0) = false /\
    gtb (markup_percentage r) (of_int 0) = false.
Proof.
  eexists. split; [ vm_compute; reflexivity | ]. vm_compute. repeat split; reflexivity.
Qed.

End UndercutBinary64.

(** ** The default weights, on doubles *)

Section DefaultWeightsBinary64.
Import Pricing.
Local Open Scope Q_scope.

Lemma has_sign_at_least_zero (z : spec_float) : has_sign false z -> at_least_zero z.
Proof. destruct z; cbn; intros Hs; try exact I; assumption. Qed.

(** [round(x, n)] of a double that is at least zero is at least zero. *)
Lemma round_at_least_zero (x : float) (n : nat) :
  at_least_zero (Prim2SF x) -> at_least_zero (Prim2SF (Binary64.round x n)).
Proof.
  intros Hx. unfold Binary64.round.
  destruct (Prim2SF x) as [ s | s | | s m e ] eqn:E; try (rewrite E; exact Hx).
  cbn [at_least_zero] in Hx. subst s.
  destruct (match e with
            | Zneg e' => round_half_even (Zpos (m * scale10 n)) (Pos.pow 2 e')
            | _ => (Zpos (m * scale10 n) * 2 ^ e)%Z
            end) as [ | q | q ]; try exact I.
  apply has_sign_at_least_zero, SF2Prim_has_sign.
  unfold Binary64.SF64round_div. apply (SFdiv_has_sign false false).
Qed.

(** The constants of [calculate_price] with the default weights. *)
Lemma default_values :
  (exists v, Binary64.value (of_int (F := float) 5) = Some v /\ v == 5) /\
  (exists v, Binary64.value (uniqueness_weight (init (F := float))) = Some v /\
             v == 3602879701896397 # 72057594037927936) /\
  (exists v, Binary64.value (demand_weight (init (F := float))) = Some v /\
             v == 5764607523034235 # 144115188075855872) /\
  (exists v, Binary64.value (suggested_price_multiplier (init (F := float))) = Some v /\
             v == 2).
Proof.
  split; [ | split; [ | split ] ];
    (eexists; split; [ vm_compute; reflexivity | reflexivity ]).
Qed.

(** The suggested price [x * two] of a price that is at least zero. *)
Lemma doubled_at_least_zero (x two : float) (a b v2 : Q) :
  Binary64.value x = Some a -> 0 <= a -> a <= 3 * b -> 0 <= b <= 2 ^ 1000 ->
  Binary64.value two = Some v2 -> v2 == 2 ->
  at_least_zero (Prim2SF (PrimFloat.mul x two)).
Proof.
  intros Hx Ha Hab Hb H2 E2.
  assert (B : Qabs (a * v2) < 2 ^ 1023).
  { apply (below_overflow b); [ exact Hb | rewrite E2; split; lra ]. }
  destruct (mul_approx x two a v2 Hx H2 B) as (p & Hp & _ & Pp & _).
  apply (value_at_least_zero _ p Hp). apply Pp. rewrite E2. lra.
Qed.

Lemma value_zero_not_gt (x : float) (v : Q) :
  Binary64.value x = Some v -> v == 0 -> PrimFloat.ltb PrimFloat.zero x = false.
Proof.
  intros Hx Hv. destruct (value_SF x v Hx) as (F & Ev). rewrite Ev in Hv.
  rewrite ltb_spec. change (Prim2SF PrimFloat.zero) with (S754_zero false).
  destruct (Prim2SF x) as [ s | s | | s m e ]; try contradiction; try reflexivity.
  cbn [SFreal] in Hv. pose proof (mantissa_value_pos m e).
  destruct s; cbn [signed] in Hv; lra.
Qed.

(** C10, as the code has it, on doubles.  With the default weights, costs
    that are at least zero, ratings between 1 and 10 and a base price that is
    finite and at most [2^1000]: the factor adjustment is at least
    [-0.36 * base_price] and the adjusted price at least [0.64 * base_price], up
    to a relative error of [2^-50] and two units of the smallest positive
    double; the adjusted price is at least zero, and is zero exactly when the
    material cost and the labor cost are zero; the returned final price is at
    least zero; and unless both costs are zero the two guards hold, so that the
    markup and the margin are the roundings of the quotients. *)
Theorem default_weights_keep_price_positive :
  forall (mc hw lr u d : float) (sp : option float) (r : PricingResult float)
         (m h rt vu vd b : Q),
    calculate_price init mc hw lr u d sp = Ok r ->
    Binary64.value mc = Some m -> 0 <= m ->
    Binary64.value hw = Some h -> 0 <= h ->
    Binary64.value lr = Some rt -> 0 <= rt ->
    Binary64.value u = Some vu -> 1 <= vu <= 10 ->
    Binary64.value d = Some vd -> 1 <= vd <= 10 ->
    Binary64.value (base_price r) = Some b -> b <= 2 ^ 1000 ->
    let final :=
      if price_is_set sp
      then match sp with Some p => p | None => of_int 0 end
      else mul (adjusted_price r) (suggested_price_multiplier init) in
    exists lc f a,
      Binary64.value (labor_cost r) = Some lc /\
      Binary64.value (factor_adjustment r) = Some f /\
      Binary64.value (adjusted_price r) = Some a /\
      0 <= lc /\ 0 <= b /\
      - (0.36 * (1 + 2 ^ (-50)) * b) - 2 ^ (-1073) <= f /\
      0.64 * (1 - 2 ^ (-50)) * b - 2 ^ (-1073) <= a /\
      0 <= a /\
      (a == 0 <-> m == 0 /\ lc == 0) /\
      final_price r = round final 2 /\
      Models.geb (final_price r) (of_int 0) = true /\
      (m == 0 /\ lc == 0 -> gtb (adjusted_price r) (of_int 0) = false) /\
      (~ (m == 0 /\ lc == 0) ->
       gtb (adjusted_price r) (of_int 0) = true /\
       gtb final (of_int 0) = true /\
       markup_percentage r
       = round (mul (quot (sub final (adjusted_price r)) (adjusted_price r)) (of_int 100)) 2 /\
       profit_margin_percentage r
       = round (mul (quot (sub final (adjusted_price r)) final) (of_int 100)) 2).
Proof.
  intros mc hw lr u d sp r m h rt vu vd b Hr Hmc Pm Hhw Ph Hlr Prt Hu Hur Hd Hdr Hb Hbmax.
  cbv zeta.
  destruct (calculate_price_inv _ _ _ _ _ _ _ _ Hr) as (loc & Hl & ->).
  pose proof (calculate_locals_inv _ _ _ _ _ _ _ _ Hl) as Hinv. cbv zeta in Hinv.
  destruct Hinv as (Elab & Ebase & _ & _ & Efac & Eadj & Efin & _ & _ & _ & Emargin & Emarkup).
  cbn [labor_cost base_price factor_adjustment adjusted_price final_price
       markup_percentage profit_margin_percentage rounded_result] in *.
  rewrite Emargin, Emarkup, Efin, Eadj, Efac, Elab. rewrite Ebase in Hb.
  clear Emargin Emarkup Efin Eadj Efac Elab Ebase Hl Hr loc.
  destruct (add_finite_r mc (mul hw lr) m b Hmc Hb) as (lc & Hlc).
  pose proof (mul_nonneg hw lr h rt lc Hhw Ph Hlr Prt Hlc) as Plc.
  destruct (add_nonneg mc (mul hw lr) m lc b Hmc Pm Hlc Plc Hb) as (Pb & Hb0).
  destruct default_values
    as ((v5 & H5 & E5) & (W1 & Hw1 & EW1) & (W2 & Hw2 & EW2) & (v2 & H2 & E2)).
  destruct (adjusted_interval (add mc (mul hw lr)) u d (of_int 5)
              (uniqueness_weight init) (demand_weight init) b vu vd v5 W1 W2
              Hb Pb Hbmax Hu Hur Hd Hdr H5 E5 Hw1 EW1 Hw2 EW2)
    as (f & a & Hf & Ha & Lf & La & Pa & Ppos & Pzero & Ua).
  set (base := add mc (mul hw lr)) in *.
  set (adjusted :=
         add base (add (mul (mul base (sub u (of_int 5))) (uniqueness_weight init))
                       (mul (mul base (sub d (of_int 5))) (demand_weight init)))) in *.
  set (final := if price_is_set sp
                then match sp with Some p => p | None => of_int 0 end
                else mul adjusted (suggested_price_multiplier init)).
  assert (Hzero : a == 0 <-> m == 0 /\ lc == 0).
  { rewrite <- Hb0. split; [ intros Ea | exact Pzero ].
    destruct (Qlt_le_dec 0 b) as [ Hpos | Hle ]; [ specialize (Ppos Hpos); lra | lra ]. }
  assert (Hfinal : at_least_zero (Prim2SF final)).
  { unfold final. destruct sp as [ p | ]; cbn [price_is_set].
    - destruct (gtb p (of_int 0)) eqn:G.
      + pose proof (positive_of_gt_zero p G) as N.
        destruct (Prim2SF p); cbn in *; try contradiction; try exact I; assumption.
      + apply (doubled_at_least_zero adjusted _ a b v2 Ha Pa Ua (conj Pb Hbmax) H2 E2).
    - apply (doubled_at_least_zero adjusted _ a b v2 Ha Pa Ua (conj Pb Hbmax) H2 E2). }
  exists lc, f, a.
  split; [ exact Hlc | ]. split; [ exact Hf | ]. split; [ exact Ha | ].
  split; [ exact Plc | ]. split; [ exact Pb | ].
  split; [ lra | ]. split; [ lra | ]. split; [ exact Pa | ].
  split; [ exact Hzero | ]. split; [ reflexivity | ].
  split; [ apply at_least_zero_geb, round_at_least_zero; exact Hfinal | ].
  split.
  - intros Hz. apply Hzero in Hz. exact (value_zero_not_gt adjusted a Ha Hz).
  - intros Hnz.
    assert (Hbpos : 0 < b).
    { destruct (Qlt_le_dec 0 b) as [ Hpos | Hle ]; [ exact Hpos | ].
      exfalso. apply Hnz, Hb0. lra. }
    specialize (Ppos Hbpos).
    assert (Gadj : gtb adjusted (of_int 0) = true) by exact (value_pos_gt adjusted a Ha Ppos).
    assert (Gfin : gtb final (of_int 0) = true).
    { unfold final. destruct sp as [ p | ]; cbn [price_is_set].
      - destruct (gtb p (of_int 0)) eqn:G; [ exact G | ].
        destruct (doubled_positive adjusted _ a b v2 Ha Ppos Ua (conj Pb Hbmax) H2 E2)
          as (q & Hq & Pq).
        exact (value_pos_gt _ q Hq Pq).
      - destruct (doubled_positive adjusted _ a b v2 Ha Ppos Ua (conj Pb Hbmax) H2 E2)
          as (q & Hq & Pq).
        exact (value_pos_gt _ q Hq Pq). }
    fold final. rewrite Gadj, Gfin. repeat split; reflexivity.
Qed.

Local Open Scope float_scope.

Lemma default_weights_keep_price_positive_witness :
  exists (r : PricingResult float) (m b : Q),
    calculate_price (F := float) init 35 0 0 1 1 None = Ok r /\
    Binary64.value 35 = Some m /\
    Binary64.value (base_price r) = Some b /\
    exists lc f a : Q,
      Binary64.value (labor_cost r) = Some lc /\
      Binary64.value (factor_adjustment r) = Some f /\
      Binary64.value (adjusted_price r) = Some a /\
      (0 <= lc)%Q /\ (0 <= b)%Q /\
      (- (0.36 * (1 + 2 ^ (-50)) * b) - 2 ^ (-1073) <= f)%Q /\
      (0.64 * (1 - 2 ^ (-50)) * b - 2 ^ (-1073) <= a)%Q /\
      (0 <= a)%Q /\
      (a == 0 <-> m == 0 /\ lc == 0)%Q /\
      final_price r = round (mul (adjusted_price r) (suggested_price_multiplier init)) 2 /\
      Models.geb (final_price r) (of_int 0) = true /\
      ((m == 0 /\ lc == 0)%Q -> gtb (adjusted_price r) (of_int 0) = false) /\
      (~ (m == 0 /\ lc == 0)%Q ->
       gtb (adjusted_price r) (of_int 0) = true /\
       gtb (mul (adjusted_price r) (suggested_price_multiplier init)) (of_int 0) = true /\
       markup_percentage r
       = round (mul (quot (sub (mul (adjusted_price r) (suggested_price_multiplier init))
                               (adjusted_price r))
                          (adjusted_price r)) (of_int 100)) 2 /\
       profit_margin_percentage r
       = round (mul (quot (sub (mul (adjusted_price r) (suggested_price_multiplier init))
                               (adjusted_price r))
                          (mul (adjusted_price r) (suggested_price_multiplier init)))
                     (of_int 100)) 2).
Proof.
  eexists. eexists. eexists.
  split; [ vm_compute; reflexivity | ].
  split; [ vm_compute; reflexivity | ].
  split; [ vm_compute; reflexivity | ].
  eapply (default_weights_keep_price_positive 35 0 0 1 1 None).
  - vm_compute. reflexivity.
  - vm_compute. reflexivity.
  - apply Qle_bool_imp_le. reflexivity.
  - vm_compute. reflexivity.
  - apply Qle_bool_imp_le. reflexivity.
  - vm_compute. reflexivity.
  - apply Qle_bool_imp_le. reflexivity.
  - vm_compute. reflexivity.
  - split; apply Qle_bool_imp_le; reflexivity.
  - vm_compute. reflexivity.
  - split; apply Qle_bool_imp_le; reflexivity.
  - vm_compute. reflexivity.
  - apply Qle_bool_imp_le. reflexivity.
Defined.

End DefaultWeightsBinary64.

(** ** The pricing engine in exact arithmetic *)

Section PricingExact.
Import Pricing.
Local Open Scope Q_scope.

Lemma exact_ltb_true (x y : Q) : ltb x y = true <-> x < y.
Proof.
  cbn. unfold ExactQ.ltb. rewrite negb_true_iff.
  split.
  - intros E. apply Qnot_le_lt. intros L. apply Qle_bool_iff in L. congruence.
  - intros L. destruct (Qle_bool y x) eqn:E; [ | reflexivity ].
    apply Qle_bool_iff in E. exfalso. apply (Qlt_not_le _ _ L E).
Qed.

Lemma exact_ltb_false (x y : Q) : ltb x y = false <-> y <= x.
Proof.
  cbn. unfold ExactQ.ltb. rewrite negb_false_iff. apply Qle_bool_iff.
Qed.

(** Every rounded field is a whole number of hundredths. *)
Lemma exact_round2_hundredths (x : Q) : exists k : Z, round x 2 == k # 100.
Proof.
  exists (round_half_even (Qnum x * 100)%Z (Qden x)).
  change (ExactQ.round x 2 == round_half_even (Qnum x * 100)%Z (Qden x) # 100).
  unfold ExactQ.round. apply Qred_correct.
Qed.

End PricingExact.

(** ** Validation *)


Section ValidationProperties.
Context {F : Type} `{PyFloat F}.
Variable parse_float : string -> option F.
Variable parse_int : string -> option Z.
Import Validation.
Local Open Scope string_scope.







End ValidationProperties.

Section ValidationBinary64.
Import Validation.
Local Open Scope float_scope.


(** Integer ratings and float costs pass unchanged, and a selling price of
    0 is left out of the result. *)
Example validate_accepts_integers :
  validate_pricing_inputs no_float_text no_int_text
    (PyFloatV 5) (PyFloatV 2) (PyFloatV 15) (PyInt 6) (PyInt 7) (PyFloatV 0) =
  Ok {| material_cost := 5; hours_worked := 2; labor_rate := 15;
        uniqueness := 6; demand := 7; selling_price := None |}.
Proof. vm_compute. reflexivity. Qed.

(** The message of a range violation is the generic one: the specific
    message raised inside the [try] block is caught and replaced. *)
Example validate_negative_cost_message :
  validate_pricing_inputs no_float_text no_int_text
    (PyFloatV (-5)) (PyFloatV 2) (PyFloatV 15) (PyInt 6) (PyInt 7) PyNone =
  Raise (ValueError "Material cost must be a valid number") /\
  validate_pricing_inputs no_float_text no_int_text
    (PyFloatV 5) (PyFloatV 2) (PyFloatV 15) (PyInt 11) (PyInt 7) PyNone =
  Raise (ValueError "Uniqueness rating must be a valid integer") /\
  validate_pricing_inputs no_float_text no_int_text
    (PyFloatV 5) (PyStr "abc") (PyFloatV 15) (PyInt 6) (PyInt 7) PyNone =
  Raise (ValueError "Hours worked must be a valid number").
Proof. repeat split; vm_compute; reflexivity. Qed.

(** An infinite rating escapes the handler: [int] raises [OverflowError],
    which the [except] clause does not catch. *)
Example validate_infinite_rating :
  validate_pricing_inputs no_float_text no_int_text
    (PyFloatV 5) (PyFloatV 2) (PyFloatV 15) (PyFloatV infinity) (PyInt 7) PyNone =
  Raise (OverflowError "cannot convert float infinity to integer").
Proof. vm_compute. reflexivity. Qed.


End ValidationBinary64.

(** ** The recommendation flow *)

Section FlowProperties.
Context {F : Type} `{PyFloat F}.
Variable parse_float : string -> option F.
Variable json_loads : string -> res (list (string * pyval F)).
Import Models.

(** The client gives [None] whenever it is unavailable, the request
    fails, or the response is not JSON. *)
Lemma get_pricing_recommendation_failures :
  forall (c : Client.AIClient) (summary : string),
    (Client.is_available c = false -> Client.get_pricing_recommendation parse_float json_loads c summary = None) /\
    (forall e, Client.create c (Client.recommendation_request summary) = Raise e ->
               Client.get_pricing_recommendation parse_float json_loads c summary = None) /\
    (forall content e,
        Client.create c (Client.recommendation_request summary) = Ok content ->
        json_loads content = Raise e ->
        Client.get_pricing_recommendation parse_float json_loads c summary = None).
Proof.
  intros c summary. unfold Client.get_pricing_recommendation.
  repeat split.
  - intros ->. reflexivity.
  - intros e ->. destruct (negb (Client.is_available c)); reflexivity.
  - intros content e -> He. destruct (negb (Client.is_available c)); [ reflexivity | ].
    cbn. rewrite He. destruct e; reflexivity.
Qed.

(** [join] is the concatenation with a separator of the Standard
    Library. *)
Lemma join_concat (sep : string) (parts : list string) :
  ChatHandler.join sep parts = String.concat sep parts.
Proof.
  induction parts as [ | p [ | q parts ] IH ]; [ reflexivity | reflexivity | ].
  change (ChatHandler.join sep (p :: q :: parts))
    with (p ++ sep ++ ChatHandler.join sep (q :: parts))%string.
  rewrite IH. reflexivity.
Qed.

(** C9, as the code has it.  The history starts with the system prompt,
    which counts as an entry.  With fewer than 3 entries in the history
    [get_recommendations] returns [None] and passes nothing to the client; with
    3 or more it passes the summary of the history to the client, once, and
    returns what the client returns, which is [None] whenever the client is
    unavailable, the request fails or the response is not JSON.  The summary
    holds one line per entry, the role with a capital letter, a colon and the
    content, the lines separated by a newline. *)
Theorem get_recommendations_three_entries :
  forall (h : ChatHandler.ChatHandler),
    let history := ChatHandler.conversation_history h in
    let c := ChatHandler.ai_client h in
    let summary :=
      String.concat (String (ascii_of_nat 10) EmptyString)
        (map (fun entry => (ChatHandler.capitalize (role entry) ++ ": " ++ content entry)%string)
           history) in
    ChatHandler.conversation_history (ChatHandler.init c)
    = [ {| role := "system"; content := Config.PRICING_ADVISOR_PROMPT |} ] /\
    (ChatHandler.capitalize "system" = "System"%string /\
     ChatHandler.capitalize "user" = "User"%string /\
     ChatHandler.capitalize "assistant" = "Assistant"%string) /\
    ((List.length history < 3)%nat ->
     ChatHandler.get_recommendations parse_float json_loads h = (None, [])) /\
    ((3 <= List.length history)%nat ->
     ChatHandler.get_recommendations parse_float json_loads h
     = (Client.get_pricing_recommendation parse_float json_loads c summary, [summary])) /\
    ((3 <= List.length history)%nat ->
     (Client.is_available c = false \/
      (exists e, Client.create c (Client.recommendation_request summary) = Raise e) \/
      (exists content e,
          Client.create c (Client.recommendation_request summary) = Ok content /\
          json_loads content = Raise e)) ->
     ChatHandler.get_recommendations parse_float json_loads h = (None, [summary])).
Proof.
  intros h. cbv zeta.
  set (summary := String.concat _ _).
  assert (Hs : ChatHandler.conversation_summary (ChatHandler.conversation_history h) = summary).
  { unfold ChatHandler.conversation_summary. apply join_concat. }
  assert (Hge : (3 <= List.length (ChatHandler.conversation_history h))%nat ->
                ChatHandler.get_recommendations parse_float json_loads h =
                (Client.get_pricing_recommendation parse_float json_loads
                   (ChatHandler.ai_client h) summary, [summary])).
  { intros Hlen. unfold ChatHandler.get_recommendations.
    apply Nat.ltb_ge in Hlen. rewrite Hlen, Hs.
    destruct (Client.get_pricing_recommendation _ _ _ _); reflexivity. }
  split; [ reflexivity | ].
  split; [ repeat split; reflexivity | ].
  split; [ | split; [ exact Hge | ] ].
  - intros Hlen. unfold ChatHandler.get_recommendations.
    apply Nat.ltb_lt in Hlen. rewrite Hlen. reflexivity.
  - intros Hlen Hfail. rewrite (Hge Hlen). f_equal.
    destruct (get_pricing_recommendation_failures (ChatHandler.ai_client h) summary)
      as (Hu & Hr & Hj).
    destruct Hfail as [ Ha | [ (e & He) | (content & e & Hc & He) ] ].
    + apply Hu. exact Ha.
    + apply (Hr e). exact He.
    + apply (Hj content e); assumption.
Qed.

(** An unavailable client never yields a recommendation. *)
Lemma get_recommendations_unavailable :
  forall (h : ChatHandler.ChatHandler),
    Client.is_available (ChatHandler.ai_client h) = false ->
    fst (ChatHandler.get_recommendations parse_float json_loads h) = None.
Proof.
  intros h Ha. unfold ChatHandler.get_recommendations.
  destruct (List.length (ChatHandler.conversation_history h) <? 3)%nat; [ reflexivity | ].
  cbn. unfold Client.get_pricing_recommendation. rewrite Ha. reflexivity.
Qed.

End FlowProperties.

Lemma get_recommendations_three_entries_witness :
  (3 <= List.length (ChatHandler.conversation_history after_one_answer))%nat /\
  ChatHandler.get_recommendations no_float_text parsed_response after_one_answer
  = (Client.get_pricing_recommendation no_float_text parsed_response answering_client
       one_answer_summary,
     [one_answer_summary]).
Proof.
  assert (Hlen : (3 <= List.length (ChatHandler.conversation_history after_one_answer))%nat)
    by (vm_compute; lia).
  split; [ exact Hlen | ].
  exact (proj1 (proj2 (proj2 (proj2
           (get_recommendations_three_entries no_float_text parsed_response
              after_one_answer)))) Hlen).
Defined.

(** Two turns are enough: after one message of the user and one answer the
    client is asked, and its recommendation returned. *)
Lemma two_turns_reach_the_recommender :
  ChatHandler.conversation_history after_one_answer
  = [ {| Models.role := "system"; Models.content := Config.PRICING_ADVISOR_PROMPT |};
      {| Models.role := "user"; Models.content := "I make silver rings." |};
      {| Models.role := "assistant";
         Models.content := "Silver rings of this kind sell well." |} ] /\
  exists r,
    ChatHandler.get_recommendations no_float_text parsed_response after_one_answer
    = (Some r, [one_answer_summary]).
Proof.
  split; [ vm_compute; reflexivity | ].
  eexists. vm_compute. reflexivity.
Qed.

Section FlowBinary64.
Import Models.
Local Open Scope float_scope.
Local Open Scope string_scope.

Variable parse_float : string -> option float.
Variable json_loads : string -> res (list (string * pyval float)).
Variable summary_text : PricingRecommendation float -> string.

Lemma fallback_recommendation_value :
  ChatFrame.fallback_recommendation parse_float = Ok default_recommendation.
Proof. vm_compute. reflexivity. Qed.

(** C8, as the code has it: the fallback is taken only when the client is
    unavailable.  Then the flow hands over the recommendation built from the
    defaults [material_cost=10.0], [hours_worked=2.0], [labor_rate=15.0],
    [uniqueness=5.0], [demand=5.0], [selling_price=0.0], whose explanation
    says it is a default because the AI is not available, and announces it in
    a system message that no other path emits.  When the client is available
    the flow hands over what [get_recommendations] returned: a recommendation
    of the AI, or, after any failure, [None] with the message that no
    recommendation could be generated.  The flow itself raises nothing. *)
Theorem fallback_only_when_unavailable :
  forall (h : ChatHandler.ChatHandler),
    let got := ChatHandler.get_recommendations parse_float json_loads h in
    let out := ChatFrame._generate_recommendations parse_float json_loads summary_text h in
    (Client.is_available (ChatHandler.ai_client h) = false ->
     out = Ok (Some default_recommendation,
               [ ChatFrame.AddMessage "system" default_notice;
                 ChatFrame.AddMessage "assistant" (summary_text default_recommendation);
                 ChatFrame.ApplyButton default_recommendation ],
               snd got)) /\
    (Client.is_available (ChatHandler.ai_client h) = true ->
     out = Ok (fst got, ChatFrame._display_recommendations summary_text (fst got), snd got)) /\
    (Client.is_available (ChatHandler.ai_client h) = true ->
     fst got = None ->
     out = Ok (None, [ ChatFrame.AddMessage "system" could_not_generate ], snd got)).
Proof.
  intros h. cbv zeta.
  pose proof (get_recommendations_unavailable parse_float json_loads h) as Hun.
  unfold ChatFrame._generate_recommendations.
  destruct (ChatHandler.get_recommendations parse_float json_loads h) as [recs fw].
  cbn [fst snd] in *.
  assert (Hav : Client.is_available (ChatHandler.ai_client h) = true ->
    match recs with
    | Some _ => Ok (recs, [])
    | None =>
        if negb (Client.is_available (ChatHandler.ai_client h))
        then bind (ChatFrame.fallback_recommendation parse_float)
               (fun r => Ok (Some r, [ ChatFrame.AddMessage "system" default_notice ]))
        else Ok (recs, [])
    end = Ok (recs, @nil (ChatFrame.ui_event float))).
  { intros Ha. rewrite Ha. destruct recs; reflexivity. }
  split; [ | split ].
  - intros Ha. rewrite (Hun Ha), Ha. cbn [negb].
    rewrite fallback_recommendation_value. reflexivity.
  - intros Ha. unfold default_notice in Hav. rewrite (Hav Ha). reflexivity.
  - intros Ha ->. unfold default_notice in Hav. rewrite (Hav Ha). reflexivity.
Qed.

End FlowBinary64.

Lemma fallback_only_when_unavailable_witness :
  Client.is_available unavailable_client = false /\
  ChatFrame._generate_recommendations no_float_text not_json plain_summary
    (after_two_messages unavailable_client)
  = Ok (Some default_recommendation,
        [ ChatFrame.AddMessage "system" default_notice;
          ChatFrame.AddMessage "assistant" (plain_summary default_recommendation);
          ChatFrame.ApplyButton default_recommendation ],
        snd (ChatHandler.get_recommendations no_float_text not_json
               (after_two_messages unavailable_client))).
Proof.
  split; [ reflexivity | ].
  exact (proj1 (fallback_only_when_unavailable no_float_text not_json plain_summary
                  (after_two_messages unavailable_client)) eq_refl).
Defined.

Section FlowCounterexample.
Import Models.
Local Open Scope string_scope.

(** With an available client, a network failure and a parse failure both
    end without a recommendation: the flow shows that none could be generated
    and does not fall back to the defaults. *)
Lemma failure_without_fallback :
    (Client.is_available offline_client = true /\
     List.length (ChatHandler.conversation_history (after_two_messages offline_client)) = 3%nat /\
     exists forwarded,
       ChatFrame._generate_recommendations no_float_text not_json plain_summary
         (after_two_messages offline_client)
       = Ok (None, [ ChatFrame.AddMessage "system" could_not_generate ], forwarded)) /\
    (Client.is_available garbled_client = true /\
     List.length (ChatHandler.conversation_history (after_two_messages garbled_client)) = 5%nat /\
     exists forwarded,
       ChatFrame._generate_recommendations no_float_text not_json plain_summary
         (after_two_messages garbled_client)
       = Ok (None, [ ChatFrame.AddMessage "system" could_not_generate ], forwarded)).
Proof.
  split; (split; [ reflexivity | ]); (split; [ reflexivity | ]);
    eexists; vm_compute; reflexivity.
Qed.

End FlowCounterexample.

(** * Further properties of the code *)

(** ** Order laws *)

Lemma SFcompare_antisym (a b : spec_float) (c : comparison) :
  SFcompare a b = Some c -> SFcompare b a = Some (CompOpp c).
Proof.
  destruct a as [ sa | sa | | sa ma ea ], b as [ sb | sb | | sb mb eb ]; cbn;
    try discriminate;
    try (destruct sa); try (destruct sb); cbn;
    intros E; injection E as <-; try reflexivity.
  - rewrite (Z.compare_antisym ea eb).
    destruct (ea ?= eb)%Z; cbn; try reflexivity.
    change (Pos.compare_cont Eq mb ma) with (Pos.compare_cont (CompOpp Eq) mb ma).
    rewrite <- (Pos.compare_cont_antisym ma mb Eq).
    destruct (Pos.compare_cont Eq ma mb); reflexivity.
  - rewrite (Z.compare_antisym ea eb).
    destruct (ea ?= eb)%Z; cbn; try reflexivity.
    change (Pos.compare_cont Eq mb ma) with (Pos.compare_cont (CompOpp Eq) mb ma).
    rewrite <- (Pos.compare_cont_antisym ma mb Eq).
    destruct (Pos.compare_cont Eq ma mb); reflexivity.
Qed.

#[export] Instance binary64_order : PyOrderLaws float.
Proof.
  split.
  - intros x y. cbn. rewrite !ltb_spec. unfold SFltb.
    destruct (SFcompare (Prim2SF x) (Prim2SF y)) as [ c | ] eqn:E; try discriminate.
    rewrite (SFcompare_antisym _ _ _ E). destruct c; cbn; congruence.
  - intros x y. cbn. rewrite ltb_spec, eqb_spec. unfold SFltb, SFeqb.
    destruct (SFcompare (Prim2SF x) (Prim2SF y)) as [ [ | | ] | ]; congruence.
Qed.

#[export] Instance exactQ_order : PyOrderLaws Q.
Proof.
  split.
  - intros x y Hxy. apply exact_ltb_true in Hxy. apply exact_ltb_false.
    apply Qlt_le_weak. exact Hxy.
  - intros x y Hxy. apply exact_ltb_false.
    change (Qeq_bool x y = true) in Hxy. apply Qeq_bool_iff in Hxy.
    rewrite Hxy. apply Qle_refl.
Qed.

(** What the order laws give for the comparisons of the code. *)
Section OrderFacts.
Context {F : Type} `{PyFloat F} {O : PyOrderLaws F}.

Lemma ltb_irrefl (x : F) : ltb x x = false.
Proof.
  destruct (ltb x x) eqn:E; [ | reflexivity ].
  rewrite (ltb_asym _ _ E) in E. discriminate.
Qed.

Lemma geb_not_ltb (x y : F) : Models.geb x y = true -> ltb x y = false.
Proof.
  unfold Models.geb. intros G. apply orb_true_iff in G. destruct G as [ G | G ].
  - apply ltb_asym. exact G.
  - apply eqb_not_ltb. exact G.
Qed.

End OrderFacts.

(** ** The pricing engine *)

Section PricingComposition.
Context {F : Type} `{PyFloat F}.
Import Pricing.

(** X1: two calls of [update_weights] in a row act as one call in which
    each parameter is the later call's when it supplies one and the earlier
    call's otherwise; a call that supplies nothing changes nothing. *)
Theorem update_weights_compose :
  forall (self : PricingCalculator F) (a1 a2 a3 a4 a5 b1 b2 b3 b4 b5 : option F),
    update_weights (update_weights self a1 a2 a3 a4 a5) b1 b2 b3 b4 b5 =
    update_weights self (later_wins b1 a1) (later_wins b2 a2) (later_wins b3 a3)
      (later_wins b4 a4) (later_wins b5 a5) /\
    update_weights self None None None None None = self.
Proof.
  intros self a1 a2 a3 a4 a5 b1 b2 b3 b4 b5. split; [ | reflexivity ].
  destruct self.
  destruct a1, a2, a3, a4, a5, b1, b2, b3, b4, b5; reflexivity.
Qed.

(** X2: the economy and premium modifiers reach the two alternative prices
    only.  After [update_weights(economy_modifier=.., premium_modifier=..)],
    [calculate_price] fails or succeeds as before, and the result differs from
    the earlier one in [economy_price] and [premium_price] at most, which are
    the rounded products of the unrounded final price and the new modifiers. *)
Theorem modifiers_reach_tiers_only :
  forall (self : PricingCalculator F) (em pm : option F) mc hw lr u d sp,
    let self' := update_weights self None None em pm None in
    match calculate_price self mc hw lr u d sp,
          calculate_locals self mc hw lr u d sp,
          calculate_price self' mc hw lr u d sp with
    | Ok r, Ok l, Ok r' =>
        r' = {| material_cost := material_cost r;
                labor_cost := labor_cost r;
                base_price := base_price r;
                uniqueness_adjustment := uniqueness_adjustment r;
                demand_adjustment := demand_adjustment r;
                factor_adjustment := factor_adjustment r;
                adjusted_price := adjusted_price r;
                profit_amount := profit_amount r;
                profit_margin_percentage := profit_margin_percentage r;
                markup_percentage := markup_percentage r;
                final_price := final_price r;
                economy_price :=
                  round (mul (l_final_price l) (merged (economy_modifier self) em)) 2;
                premium_price :=
                  round (mul (l_final_price l) (merged (premium_modifier self) pm)) 2;
                selling_price := selling_price r |}
    | Raise e, Raise _, Raise e' => e = e'
    | _, _, _ => False
    end.
Proof.
  intros self em pm mc hw lr u d sp. cbv zeta.
  unfold calculate_price, calculate_locals.
  destruct self as [uw dw em0 pm0 spm].
  assert (Hw : forall s' : PricingCalculator F,
             s' = update_weights
                    {| uniqueness_weight := uw; demand_weight := dw;
                       economy_modifier := em0; premium_modifier := pm0;
                       suggested_price_multiplier := spm |} None None em pm None ->
             uniqueness_weight s' = uw /\ demand_weight s' = dw /\
             suggested_price_multiplier s' = spm /\
             economy_modifier s' = merged em0 em /\
             premium_modifier s' = merged pm0 pm).
  { intros s' ->. destruct em, pm; repeat split; reflexivity. }
  destruct (Hw _ eq_refl) as (-> & -> & -> & -> & ->). clear Hw.
  cbn [uniqueness_weight demand_weight suggested_price_multiplier economy_modifier
       premium_modifier].
  set (adjusted := add (add mc (mul hw lr)) _).
  set (final := match sp with Some _ => _ | None => _ end).
  unfold truediv.
  destruct (gtb final (of_int 0)); destruct (gtb adjusted (of_int 0)); cbn;
    repeat match goal with
           | |- context [if ?c then _ else _] => destruct c; cbn
           end;
    reflexivity.
Qed.

End PricingComposition.

(** ** The two validators, with any bounds *)

Section ValidationBounds.
Context {F : Type} `{PyFloat F}.
Variable parse_float : string -> option F.
Variable parse_int : string -> option Z.
Import Validation.
Local Open Scope string_scope.

(** X6: [validate_numeric_input] with any bounds.  It returns the float
    [float(value)] exactly when the conversion succeeds and the float is not
    below [min_value] and not above [max_value] (a bound that is [None] is not
    checked; the bounds are [int]s of at most 2^53 in absolute value).  When the conversion raises [ValueError] or [TypeError], or a
    bound is violated, the [ValueError] raised says "<field> must be a valid
    number": the messages naming the bound never leave the function.  Any
    other exception of the conversion ([OverflowError]) is passed on
    unchanged. *)
Theorem validate_numeric_input_outcomes :
  forall (v : pyval F) (lo hi : option Z) (name : string),
    exact_bound lo -> exact_bound hi ->
    let within (x : F) :=
      match lo with Some m => negb (ltb x (of_int m)) | None => true end &&
      match hi with Some m => negb (gtb x (of_int m)) | None => true end in
    match validate_numeric_input parse_float v lo hi name with
    | Ok x => Builtins.py_float parse_float v = Ok x /\ within x = true
    | Raise e =>
        (e = ValueError (name ++ " must be a valid number") /\
         (forall x, Builtins.py_float parse_float v = Ok x -> within x = false)) \/
        (Builtins.py_float parse_float v = Raise e /\
         forall msg, e <> ValueError msg /\ e <> TypeError msg)
    end.
Proof.
  intros v lo hi name _ _ within. subst within. unfold validate_numeric_input.
  destruct (Builtins.py_float parse_float v) as [ x | e ] eqn:Ev; cbn.
  - destruct lo as [ m | ]; destruct hi as [ m' | ]; cbn; unfold gtb;
      repeat match goal with
             | |- context [ltb ?a ?b] =>
                 lazymatch goal with
                 | E : ltb a b = _ |- _ => rewrite E
                 | _ => destruct (ltb a b) eqn:?
                 end; cbn
             end;
      first [ split; reflexivity
            | left; split; [ reflexivity | ];
              intros y Hy; injection Hy as <-; unfold gtb;
              repeat match goal with
                     | E : ltb _ _ = _ |- _ => rewrite E; clear E
                     end;
              reflexivity ].
  - destruct e; cbn;
      try (left; split; [ reflexivity | intros y Hy; discriminate ]);
      right; (split; [ reflexivity | intros msg'; split; discriminate ]).
Qed.

(** X7: [validate_integer_input] with any bounds.  It returns the integer
    [int(value)] exactly when the conversion succeeds and the integer lies
    within the bounds given; a float is truncated by [int], not rejected.
    Every [ValueError] it raises says "<field> must be a valid integer",
    whether the conversion failed or a bound was violated; any other
    exception of the conversion is passed on unchanged. *)
Theorem validate_integer_input_outcomes :
  forall (v : pyval F) (lo hi : option Z) (name : string),
    let within (n : Z) :=
      (match lo with Some m => (m <=? n)%Z | None => true end &&
       match hi with Some m => (n <=? m)%Z | None => true end)%bool in
    match validate_integer_input parse_int v lo hi name with
    | Ok n => Builtins.py_int parse_int v = Ok n /\ within n = true
    | Raise e =>
        (e = ValueError (name ++ " must be a valid integer") /\
         (forall n, Builtins.py_int parse_int v = Ok n -> within n = false)) \/
        (Builtins.py_int parse_int v = Raise e /\
         forall msg, e <> ValueError msg /\ e <> TypeError msg)
    end.
Proof.
  intros v lo hi name within. subst within. unfold validate_integer_input.
  destruct (Builtins.py_int parse_int v) as [ n | e ] eqn:Ev; cbn.
  - assert (Hlo : forall m, (n <? m)%Z = negb (m <=? n)%Z).
    { intros m. destruct (Z.ltb_spec n m), (Z.leb_spec m n); try reflexivity; lia. }
    assert (Hhi : forall m, (n >? m)%Z = negb (n <=? m)%Z).
    { intros m. rewrite Z.gtb_ltb.
      destruct (Z.ltb_spec m n), (Z.leb_spec n m); try reflexivity; lia. }
    destruct lo as [ m | ]; destruct hi as [ m' | ]; cbn; rewrite ?Hlo, ?Hhi;
      repeat match goal with
             | |- context [(?a <=? ?b)%Z] =>
                 lazymatch goal with
                 | E : (a <=? b)%Z = _ |- _ => rewrite E
                 | _ => destruct (a <=? b)%Z eqn:?
                 end; cbn
             end;
      first [ split; reflexivity
            | left; split; [ reflexivity | ];
              intros y Hy; injection Hy as <-;
              repeat match goal with
                     | E : (_ <=? _)%Z = _ |- _ => rewrite E; clear E
                     end;
              reflexivity ].
  - destruct e; cbn;
      try (left; split; [ reflexivity | intros y Hy; discriminate ]);
      right; (split; [ reflexivity | intros msg'; split; discriminate ]).
Qed.

End ValidationBounds.

Section ValidationNaN.
Import Validation.
Local Open Scope string_scope.

Lemma validate_numeric_input_outcomes_witness :
  exact_bound (Some 0%Z) /\ exact_bound (Some 100%Z) /\
  match validate_numeric_input no_float_text (PyFloatV (lit (F := float) (25 # 2)))
          (Some 0%Z) (Some 100%Z) "Price" with
  | Ok x =>
      Builtins.py_float no_float_text (PyFloatV (lit (F := float) (25 # 2))) = Ok x /\
      negb (ltb x (of_int 0)) && negb (gtb x (of_int 100)) = true
  | Raise e =>
      (e = ValueError ("Price" ++ " must be a valid number") /\
       (forall x,
           Builtins.py_float no_float_text (PyFloatV (lit (F := float) (25 # 2))) = Ok x ->
           negb (ltb x (of_int 0)) && negb (gtb x (of_int 100)) = false)) \/
      (Builtins.py_float no_float_text (PyFloatV (lit (F := float) (25 # 2))) = Raise e /\
       forall msg, e <> ValueError msg /\ e <> TypeError msg)
  end.
Proof.
  assert (B0 : exact_bound (Some 0%Z)) by (cbn; lia).
  assert (B100 : exact_bound (Some 100%Z)) by (cbn; lia).
  split; [ exact B0 | ]. split; [ exact B100 | ].
  exact (validate_numeric_input_outcomes no_float_text
           (PyFloatV (lit (F := float) (25 # 2))) (Some 0%Z) (Some 100%Z) "Price" B0 B100).
Defined.

Lemma nan_is_S754_nan (x : float) : PrimFloat.is_nan x = true -> Prim2SF x = S754_nan.
Proof.
  unfold PrimFloat.is_nan. rewrite eqb_spec.
  destruct (Prim2SF x) as [ s | s | | s m e ]; try (destruct s; discriminate);
    [ reflexivity | ].
  unfold SFeqb, SFcompare. rewrite Z.compare_refl, Pos.compare_cont_refl.
  destruct s; discriminate.
Qed.

Lemma nan_not_less (x y : float) :
  PrimFloat.is_nan x = true -> ltb x y = false /\ ltb y x = false.
Proof.
  intros Hx. apply nan_is_S754_nan in Hx.
  change (PrimFloat.ltb x y = false /\ PrimFloat.ltb y x = false).
  rewrite !ltb_spec, Hx. split; [ reflexivity | ].
  unfold SFltb, SFcompare. destruct (Prim2SF y) as [ s | s | | s m e ]; reflexivity.
Qed.

(** X8: a NaN passes [validate_numeric_input].  On doubles, a value that
    is NaN is returned as valid whatever bounds are given, since every
    comparison with a NaN is false. *)
Theorem nan_passes_numeric_validation :
  forall (parse_float : string -> option float) (x : float)
         (lo hi : option Z) (name : string),
    PrimFloat.is_nan x = true ->
    validate_numeric_input parse_float (PyFloatV x) lo hi name = Ok x.
Proof.
  intros parse_float x lo hi name Hx. unfold validate_numeric_input. cbn.
  destruct lo as [ m | ]; destruct hi as [ m' | ]; unfold gtb;
    rewrite ?(proj1 (nan_not_less x _ Hx)), ?(proj2 (nan_not_less x _ Hx)); reflexivity.
Qed.

Lemma nan_passes_numeric_validation_witness :
  PrimFloat.is_nan PrimFloat.nan = true /\
  validate_numeric_input no_float_text (PyFloatV PrimFloat.nan) (Some 0%Z) (Some 10%Z)
    "Material cost" = Ok PrimFloat.nan.
Proof.
  split; [ reflexivity | ].
  apply (nan_passes_numeric_validation no_float_text PrimFloat.nan (Some 0%Z) (Some 10%Z)
           "Material cost").
  reflexivity.
Defined.

End ValidationNaN.

(** ** The recommendation model *)

Section ModelProperties.
Context {F : Type} `{PyFloat F}.
Variable parse_float : string -> option F.
Import Models.
Local Open Scope string_scope.

Lemma getitem_raise {V : Type} (d : list (string * V)) (key : string) (e : exn) :
  getitem d key = Raise e -> e = KeyError key.
Proof.
  induction d as [ | [k v] d IH ]; cbn.
  - intros E. injection E as <-. reflexivity.
  - destruct (String.eqb k key); [ discriminate | exact IH ].
Qed.

Lemma contains_getitem {V : Type} (d : list (string * V)) (key : string) :
  contains d key = true <-> exists v, getitem d key = Ok v.
Proof.
  unfold contains. induction d as [ | [k v] d IH ]; cbn.
  - split; [ discriminate | intros (v & E); discriminate ].
  - destruct (String.eqb k key); cbn; [ | exact IH ].
    split; [ intros _; exists v; reflexivity | reflexivity ].
Qed.

Lemma required_inv {V : Type} (kwargs : list (string * V)) (name : string) :
  match required kwargs name with
  | Ok v => getitem kwargs name = Ok v
  | Raise e => e = ValidationError name
  end.
Proof.
  unfold required. destruct (getitem kwargs name); reflexivity.
Qed.

Lemma float_field_inv (name : string) (ge le : option Z) (v : pyval F) :
  match float_field parse_float name ge le v with
  | Ok x =>
      Builtins.py_float parse_float v = Ok x /\
      match ge with Some m => geb x (of_int m) | None => true end = true /\
      match le with Some m => leb x (of_int m) | None => true end = true
  | Raise e => e = ValidationError name
  end.
Proof.
  unfold float_field.
  destruct (Builtins.py_float parse_float v) as [ x | e ]; [ | reflexivity ].
  destruct (match ge with Some m => geb x (of_int m) | None => true end) eqn:G; cbn;
    [ | reflexivity ].
  destruct (match le with Some m => leb x (of_int m) | None => true end) eqn:L; cbn;
    [ | reflexivity ].
  repeat split; assumption.
Qed.

(** A validated field of the constructor, with its bounds. *)
Lemma field_inv (kwargs : list (string * pyval F)) (name : string) (ge le : option Z) :
  match (v <- required kwargs name ;; float_field parse_float name ge le v)%py with
  | Ok x =>
      exists v,
        getitem kwargs name = Ok v /\
        Builtins.py_float parse_float v = Ok x /\
        match ge with Some m => geb x (of_int m) | None => true end = true /\
        match le with Some m => leb x (of_int m) | None => true end = true
  | Raise e => e = ValidationError name
  end.
Proof.
  pose proof (required_inv kwargs name) as R.
  destruct (required kwargs name) as [ v | e ]; cbn; [ | exact R ].
  pose proof (float_field_inv name ge le v) as Fi.
  destruct (float_field parse_float name ge le v) as [ x | e ]; [ | exact Fi ].
  exists v. split; [ exact R | exact Fi ].
Qed.

Lemma new_inv (kwargs : list (string * pyval F)) :
  match new parse_float kwargs with
  | Ok r => built_from parse_float kwargs r
  | Raise e => exists field, In field field_names /\ e = ValidationError field
  end.
Proof.
  unfold new, built_from, cost_from, rating_from, field_names.
  pose proof (field_inv kwargs "material_cost" (Some 0%Z) None) as H1.
  destruct (bind (required kwargs "material_cost") _) as [ mc | e ];
    [ | exists "material_cost"; split; [ cbn; tauto | exact H1 ] ].
  pose proof (field_inv kwargs "hours_worked" (Some 0%Z) None) as H2.
  destruct (bind (required kwargs "hours_worked") _) as [ hw | e ];
    [ | exists "hours_worked"; split; [ cbn; tauto | exact H2 ] ].
  pose proof (field_inv kwargs "labor_rate" (Some 0%Z) None) as H3.
  destruct (bind (required kwargs "labor_rate") _) as [ lr | e ];
    [ | exists "labor_rate"; split; [ cbn; tauto | exact H3 ] ].
  cbn [bind].
  pose proof (required_inv kwargs "uniqueness") as R4.
  destruct (required kwargs "uniqueness") as [ vu | e ];
    [ | exists "uniqueness"; split; [ cbn; tauto | exact R4 ] ].
  cbn [bind].
  pose proof (float_field_inv "uniqueness" (Some 1%Z) (Some 10%Z) vu) as H4.
  destruct (float_field parse_float "uniqueness" (Some 1%Z) (Some 10%Z) vu) as [ u | e ];
    [ | exists "uniqueness"; split; [ cbn; tauto | exact H4 ] ].
  cbn [bind].
  pose proof (required_inv kwargs "demand") as R5.
  destruct (required kwargs "demand") as [ vd | e ];
    [ | exists "demand"; split; [ cbn; tauto | exact R5 ] ].
  cbn [bind].
  pose proof (float_field_inv "demand" (Some 1%Z) (Some 10%Z) vd) as H5.
  destruct (float_field parse_float "demand" (Some 1%Z) (Some 10%Z) vd) as [ d | e ];
    [ | exists "demand"; split; [ cbn; tauto | exact H5 ] ].
  cbn [bind].
  pose proof (field_inv kwargs "selling_price" (Some 0%Z) None) as H6.
  assert (H6' :
    match (if contains kwargs "selling_price"
           then (v <- required kwargs "selling_price" ;;
                 float_field parse_float "selling_price" (Some 0%Z) None v)%py
           else Ok (of_int 0)) with
    | Ok x =>
        if contains kwargs "selling_price"
        then exists v, getitem kwargs "selling_price" = Ok v /\
                       Builtins.py_float parse_float v = Ok x /\
                       geb x (of_int 0) = true
        else x = of_int 0
    | Raise e => e = ValidationError "selling_price"
    end).
  { destruct (contains kwargs "selling_price"); [ | reflexivity ].
    destruct (bind (required kwargs "selling_price") _) as [ x | e ]; [ | exact H6 ].
    destruct H6 as (v & Hv & Hf & Hg & _). exists v. repeat split; assumption. }
  clear H6.
  destruct (if contains kwargs "selling_price" then _ else _) as [ sp | e ];
    [ | exists "selling_price"; split; [ cbn; tauto | exact H6' ] ].
  cbn [bind].
  pose proof (required_inv kwargs "explanation") as R7.
  destruct (required kwargs "explanation") as [ ve | e ];
    [ | exists "explanation"; split; [ cbn; tauto | exact R7 ] ].
  cbn [bind].
  destruct ve as [ x | n | s | ];
    try (exists "explanation"; split; [ cbn; tauto | reflexivity ]).
  cbn [bind material_cost hours_worked labor_rate uniqueness demand selling_price explanation].
  destruct H1 as (v1 & G1 & F1 & B1 & _).
  destruct H2 as (v2 & G2 & F2 & B2 & _).
  destruct H3 as (v3 & G3 & F3 & B3 & _).
  destruct H4 as (F4 & B4 & B4').
  destruct H5 as (F5 & B5 & B5').
  split; [ exists v1; repeat split; assumption | ].
  split; [ exists v2; repeat split; assumption | ].
  split; [ exists v3; repeat split; assumption | ].
  split; [ exists vu, u; repeat split; assumption | ].
  split; [ exists vd, d; repeat split; assumption | ].
  split; [ exact H6' | exact R7 ].
Qed.

End ModelProperties.

(** ** The client's recommendation *)

Section ClientProperties.
Context {F : Type} `{PyFloat F}.
Variable parse_float : string -> option F.
Variable json_loads : string -> res (list (string * pyval F)).
Import Models.
Local Open Scope string_scope.

(** X11: what a recommendation returned by [get_pricing_recommendation]
    holds.  Whenever the method returns a recommendation, the client is
    available, the request succeeded and its response is a JSON object; the
    costs, ratings and explanation are the validated entries of that object;
    and the selling price is either 0 or the float of an entry
    [selling_price] that is above 0.  An entry [selling_price] that is 0 or
    negative is left out before validation, so it is replaced by 0 and does
    not make the recommendation fail. *)
Theorem recommendation_from_response :
  forall (c : Client.AIClient) (summary : string) (r : PricingRecommendation F),
    Client.get_pricing_recommendation parse_float json_loads c summary = Some r ->
    Client.is_available c = true /\
    exists content data,
      Client.create c (Client.recommendation_request summary) = Ok content /\
      json_loads content = Ok data /\
      cost_from parse_float data "material_cost" (material_cost r) /\
      cost_from parse_float data "hours_worked" (hours_worked r) /\
      cost_from parse_float data "labor_rate" (labor_rate r) /\
      rating_from parse_float data "uniqueness" (uniqueness r) /\
      rating_from parse_float data "demand" (demand r) /\
      getitem data "explanation" = Ok (PyStr (explanation r)) /\
      (selling_price r = of_int 0 \/
       exists v,
         getitem data "selling_price" = Ok v /\
         Builtins.py_gt_zero v = Ok true /\
         cost_from parse_float data "selling_price" (selling_price r)).
Proof.
  intros c summary r Hr. unfold Client.get_pricing_recommendation in Hr.
  destruct (Client.is_available c); [ | discriminate ]. split; [ reflexivity | ].
  cbn [negb] in Hr.
  destruct (Client.create c (Client.recommendation_request summary))
    as [ content | e ] eqn:Ec; [ | discriminate ].
  cbn [bind] in Hr.
  destruct (json_loads content) as [ data | e ] eqn:Ed; [ | destruct e; discriminate ].
  exists content, data. split; [ reflexivity | ]. split; [ exact Ed | ].
  cbn [bind] in Hr.
  destruct (getitem data "material_cost") as [ v1 | e1 ] eqn:G1;
    [ | apply getitem_raise in G1; subst e1; discriminate ].
  cbn [bind] in Hr.
  destruct (getitem data "hours_worked") as [ v2 | e2 ] eqn:G2;
    [ | apply getitem_raise in G2; subst e2; discriminate ].
  cbn [bind] in Hr.
  destruct (getitem data "labor_rate") as [ v3 | e3 ] eqn:G3;
    [ | apply getitem_raise in G3; subst e3; discriminate ].
  cbn [bind] in Hr.
  destruct (getitem data "uniqueness") as [ v4 | e4 ] eqn:G4;
    [ | apply getitem_raise in G4; subst e4; discriminate ].
  cbn [bind] in Hr.
  destruct (getitem data "demand") as [ v5 | e5 ] eqn:G5;
    [ | apply getitem_raise in G5; subst e5; discriminate ].
  cbn [bind] in Hr.
  destruct (getitem data "explanation") as [ v6 | e6 ] eqn:G6;
    [ | apply getitem_raise in G6; subst e6; discriminate ].
  cbn [bind] in Hr. cbv zeta in Hr.
  set (six := [ ("material_cost", v1); ("hours_worked", v2); ("labor_rate", v3);
                ("uniqueness", v4); ("demand", v5); ("explanation", v6) ]) in Hr.
  assert (Hcases :
    exists kwargs,
      new parse_float kwargs = Ok r /\
      (kwargs = six \/
       exists v, getitem data "selling_price" = Ok v /\
                 Builtins.py_gt_zero v = Ok true /\
                 kwargs = (six ++ [("selling_price", v)])%list)).
  { destruct (contains data "selling_price").
    - destruct (getitem data "selling_price") as [ v | e ] eqn:G7;
        [ | apply getitem_raise in G7; subst e; discriminate ].
      cbn [bind] in Hr.
      destruct (Builtins.py_gt_zero v) as [ [ | ] | e ] eqn:P; cbn [bind] in Hr.
      + destruct (new parse_float (six ++ [("selling_price", v)])) as [ r' | e ] eqn:N;
          [ | destruct e; discriminate ].
        injection Hr as <-. exists (six ++ [("selling_price", v)])%list.
        split; [ exact N | right; exists v ].
        split; [ reflexivity | split; [ exact P | reflexivity ] ].
      + destruct (new parse_float six) as [ r' | e ] eqn:N; [ | destruct e; discriminate ].
        injection Hr as <-. exists six. split; [ exact N | left; reflexivity ].
      + destruct e; discriminate.
    - cbn [bind] in Hr.
      destruct (new parse_float six) as [ r' | e ] eqn:N; [ | destruct e; discriminate ].
      injection Hr as <-. exists six. split; [ exact N | left; reflexivity ]. }
  destruct Hcases as (kwargs & N & Hk).
  pose proof (new_inv parse_float kwargs) as B. rewrite N in B.
  assert (Hsix : forall key v,
             key <> "selling_price" -> getitem kwargs key = Ok v -> getitem six key = Ok v).
  { intros key v Hne Hv. destruct Hk as [ -> | (w & _ & _ & ->) ]; [ exact Hv | ].
    subst six. cbn [getitem app] in Hv |- *.
    repeat match type of Hv with
           | (if ?b then _ else _) = _ => destruct b; [ exact Hv | ]
           end.
    destruct (String.eqb_spec "selling_price" key) as [ E | _ ]; [ congruence | discriminate ]. }
  assert (Hdata : forall key v, getitem six key = Ok v -> getitem data key = Ok v).
  { intros key v Hv. subst six. cbn [getitem] in Hv.
    repeat match type of Hv with
           | (if ?b then _ else _) = _ =>
               destruct b eqn:E; [ apply String.eqb_eq in E; subst key; congruence | clear E ]
           end.
    discriminate. }
  destruct B as (C1 & C2 & C3 & R4 & R5 & Hsp & Hex).
  assert (Hcost : forall key x,
             key <> "selling_price" ->
             cost_from parse_float kwargs key x -> cost_from parse_float data key x).
  { intros key x Hne (v & Hv & Hf & Hg). exists v.
    split; [ apply Hdata, Hsix; assumption | split; assumption ]. }
  assert (Hrating : forall key x,
             key <> "selling_price" ->
             rating_from parse_float kwargs key x -> rating_from parse_float data key x).
  { intros key x Hne (v & y & Hv & Hrest). exists v, y.
    split; [ apply Hdata, Hsix; assumption | exact Hrest ]. }
  split; [ apply Hcost; [ discriminate | exact C1 ] | ].
  split; [ apply Hcost; [ discriminate | exact C2 ] | ].
  split; [ apply Hcost; [ discriminate | exact C3 ] | ].
  split; [ apply Hrating; [ discriminate | exact R4 ] | ].
  split; [ apply Hrating; [ discriminate | exact R5 ] | ].
  split; [ rewrite <- G6; apply Hdata, Hsix; [ discriminate | exact Hex ] | ].
  destruct Hk as [ -> | (w & Gw & Pw & ->) ].
  - left. subst six. cbn in Hsp. exact Hsp.
  - right. exists w. split; [ exact Gw | ]. split; [ exact Pw | ].
    subst six. cbn in Hsp. destruct Hsp as (v & Hv & Hf & Hg).
    cbn in Hv. injection Hv as <-. exists w. repeat split; assumption.
Qed.

End ClientProperties.

Lemma recommendation_from_response_witness :
  exists r : Models.PricingRecommendation float,
    Client.get_pricing_recommendation no_float_text parsed_response answering_client
      "User: rings" = Some r /\
    Models.selling_price r = of_int 0 /\
    Client.is_available answering_client = true /\
    exists content data,
      Client.create answering_client (Client.recommendation_request "User: rings")
      = Ok content /\
      parsed_response content = Ok data /\
      cost_from no_float_text data "material_cost" (Models.material_cost r) /\
      cost_from no_float_text data "hours_worked" (Models.hours_worked r) /\
      cost_from no_float_text data "labor_rate" (Models.labor_rate r) /\
      rating_from no_float_text data "uniqueness" (Models.uniqueness r) /\
      rating_from no_float_text data "demand" (Models.demand r) /\
      Models.getitem data "explanation" = Ok (PyStr (Models.explanation r)) /\
      (Models.selling_price r = of_int 0 \/
       exists v,
         Models.getitem data "selling_price" = Ok v /\
         Builtins.py_gt_zero v = Ok true /\
         cost_from no_float_text data "selling_price" (Models.selling_price r)).
Proof.
  eexists. split; [ vm_compute; reflexivity | ].
  split; [ vm_compute; reflexivity | ].
  apply (recommendation_from_response no_float_text parsed_response answering_client
           "User: rings").
  vm_compute. reflexivity.
Defined.

(** ** The conversation *)

Section ConversationProperties.
Context {F : Type} `{PyFloat F}.
Variable parse_float : string -> option F.
Variable json_loads : string -> res (list (string * pyval F)).
Import Models.
Import ChatHandler.
Local Open Scope string_scope.

(** One call of [send_message]: the user's entry is appended, followed by
    the assistant's when there is a response that is not empty. *)
Lemma send_message_inv (h : ChatHandler) (m : string) :
  ai_client (snd (send_message h m)) = ai_client h /\
  ((fst (send_message h m) = None /\
    conversation_history (snd (send_message h m))
    = conversation_history h ++ [ {| role := "user"; content := m |} ]) \/
   (exists response,
       response <> "" /\
       fst (send_message h m) = Some response /\
       Client.chat_completion (ai_client h)
         (conversation_history h ++ [ {| role := "user"; content := m |} ])
       = Some response /\
       conversation_history (snd (send_message h m))
       = conversation_history h
         ++ [ {| role := "user"; content := m |};
              {| role := "assistant"; content := response |} ]))%list.
Proof.
  unfold send_message.
  destruct (Client.chat_completion _ _) as [ [ | c r ] | ]; cbn;
    (split; [ reflexivity | ]); try (left; split; reflexivity).
  right. exists (String c r). split; [ discriminate | ].
  split; [ reflexivity | ]. split; [ reflexivity | ].
  rewrite <- app_assoc. reflexivity.
Qed.

Lemma send_messages_client (h : ChatHandler) (msgs : list string) :
  ai_client (send_messages h msgs) = ai_client h.
Proof.
  revert h. induction msgs as [ | m msgs IH ]; intros h; cbn; [ reflexivity | ].
  rewrite IH. apply send_message_inv.
Qed.

(** The entries a sequence of calls of [send_message] appends. *)
Lemma send_messages_inv (h : ChatHandler) (msgs : list string) :
  exists tail,
    conversation_history (send_messages h msgs) = (conversation_history h ++ tail)%list /\
    map content (filter (fun e => String.eqb (role e) "user") tail) = msgs /\
    Forall (fun e => role e = "user" \/ (role e = "assistant" /\ content e <> "")) tail /\
    (List.length msgs <= List.length tail <= 2 * List.length msgs)%nat.
Proof.
  revert h. induction msgs as [ | m msgs IH ]; intros h.
  - exists []. cbn. rewrite app_nil_r. repeat split; try constructor; lia.
  - cbn [send_messages].
    destruct (IH (snd (send_message h m))) as (tail & Hh & Hu & Hf & Hl).
    destruct (send_message_inv h m) as (_ & [ (_ & E) | (resp & Hne & _ & _ & E) ]);
      rewrite E in Hh.
    + exists ({| role := "user"; content := m |} :: tail).
      split; [ rewrite Hh, <- app_assoc; reflexivity | ].
      split; [ cbn; rewrite Hu; reflexivity | ].
      split; [ constructor; [ left; reflexivity | exact Hf ] | ].
      cbn [List.length]. lia.
    + exists ({| role := "user"; content := m |}
              :: {| role := "assistant"; content := resp |} :: tail).
      split; [ rewrite Hh, <- app_assoc; reflexivity | ].
      split; [ cbn; rewrite Hu; reflexivity | ].
      split.
      { constructor; [ left; reflexivity | ].
        constructor; [ right; split; [ reflexivity | exact Hne ] | exact Hf ]. }
      cbn [List.length]. lia.
Qed.

(** X12: the history records every message of the user.  After any
    sequence of calls of [send_message], the history is the earlier history
    followed by new entries; the entries with the role "user" among them are
    exactly the messages sent, in order, whether or not the AI answered; every
    other new entry is an answer of the assistant that is not empty; and the
    client is the same. *)
Theorem history_records_every_message :
  forall (h : ChatHandler) (msgs : list string),
    ai_client (send_messages h msgs) = ai_client h /\
    exists tail,
      conversation_history (send_messages h msgs) = (conversation_history h ++ tail)%list /\
      map content (filter (fun e => String.eqb (role e) "user") tail) = msgs /\
      Forall (fun e => role e = "user" \/ (role e = "assistant" /\ content e <> "")) tail /\
      (List.length msgs <= List.length tail <= 2 * List.length msgs)%nat.
Proof.
  intros h msgs. split; [ apply send_messages_client | apply send_messages_inv ].
Qed.

(** X13: resetting forgets the conversation and keeps the client.  After
    any sequence of messages, [reset_conversation] gives the handler
    [ChatHandler(ai_client)] starts with: the history is the system prompt
    alone, and [get_recommendations] then returns [None] without asking the
    client. *)
Theorem reset_forgets_conversation :
  forall (h : ChatHandler) (msgs : list string),
    reset_conversation (send_messages h msgs) = init (ai_client h) /\
    conversation_history (reset_conversation (send_messages h msgs))
    = [ {| role := "system"; content := Config.PRICING_ADVISOR_PROMPT |} ] /\
    get_recommendations parse_float json_loads (reset_conversation (send_messages h msgs))
    = (None, []).
Proof.
  intros h msgs.
  assert (E : reset_conversation (send_messages h msgs) = init (ai_client h)).
  { unfold reset_conversation, init, _initialize_conversation. cbn.
    rewrite send_messages_client. reflexivity. }
  rewrite E. repeat split; reflexivity.
Qed.

(** X14: without a client, only the user's side is recorded.  When the
    client is unavailable, every call of [send_message] returns [None], the
    history grows by exactly the user's messages, and [get_recommendations]
    returns [None] however long the conversation is. *)
Theorem unavailable_client_records_user_only :
  forall (h : ChatHandler) (msgs : list string),
    Client.is_available (ai_client h) = false ->
    (forall m, fst (send_message h m) = None) /\
    conversation_history (send_messages h msgs)
    = (conversation_history h
       ++ map (fun m => {| role := "user"; content := m |}) msgs)%list /\
    fst (get_recommendations parse_float json_loads (send_messages h msgs)) = None.
Proof.
  intros h msgs Ha.
  assert (Hone : forall h' m,
             Client.is_available (ai_client h') = false ->
             send_message h' m =
             (None, {| ai_client := ai_client h';
                       conversation_history :=
                         (conversation_history h'
                          ++ [ {| role := "user"; content := m |} ])%list |})).
  { intros h' m Ha'. unfold send_message, Client.chat_completion. rewrite Ha'. reflexivity. }
  split; [ intros m; rewrite (Hone h m Ha); reflexivity | ].
  split.
  - revert h Ha. induction msgs as [ | m msgs IH ]; intros h Ha; cbn.
    + rewrite app_nil_r. reflexivity.
    + rewrite (Hone h m Ha). cbn [snd]. rewrite IH by exact Ha.
      cbn. rewrite <- app_assoc. reflexivity.
  - apply get_recommendations_unavailable. rewrite send_messages_client. exact Ha.
Qed.

(** X15: when recommendations can be asked for.  In a conversation that
    starts with the system prompt alone, after one message the client is asked
    for a recommendation exactly when the AI answered that message; after two
    messages it is always asked. *)
Theorem recommendations_need_one_answer_or_two_messages :
  forall (c : Client.AIClient) (m1 m2 : string),
    (snd (get_recommendations parse_float json_loads (snd (send_message (init c) m1))) <> []
     <-> fst (send_message (init c) m1) <> None) /\
    snd (get_recommendations parse_float json_loads (send_messages (init c) [m1; m2])) <> [].
Proof.
  intros c m1 m2. split.
  - unfold get_recommendations.
    destruct (send_message_inv (init c) m1) as (_ & [ (En & E) | (resp & _ & Es & _ & E) ]);
      rewrite E.
    + rewrite En. cbn. split; intros Hc; exfalso; apply Hc; reflexivity.
    + rewrite Es. cbn. split; intros _; discriminate.
  - destruct (send_messages_inv (init c) [m1; m2]) as (tail & Hh & _ & _ & Hl & _).
    assert (Hlen : (3 <= List.length (conversation_history (send_messages (init c) [m1; m2])))%nat).
    { rewrite Hh, length_app. cbn in Hl |- *. lia. }
    unfold get_recommendations.
    apply Nat.ltb_ge in Hlen. rewrite Hlen. cbn. discriminate.
Qed.

(** X20: when [send_message] returns an answer.  It returns a response
    exactly when the client is available, the request succeeds and the
    response is not empty; the request carries the history so far with the new
    message of the user last, and does not ask for JSON. *)
Theorem send_message_reply :
  forall (h : ChatHandler) (m response : string),
    fst (send_message h m) = Some response <->
    (Client.is_available (ai_client h) = true /\
     Client.create (ai_client h)
       {| Client.messages :=
            (conversation_history h ++ [ {| role := "user"; content := m |} ])%list;
          Client.json_object := false |} = Ok response /\
     response <> "").
Proof.
  intros h m response. unfold send_message, Client.chat_completion.
  destruct (Client.is_available (ai_client h)); cbn [negb].
  - destruct (Client.create (ai_client h) _) as [ [ | c r ] | e ]; cbn.
    + split; [ discriminate | intros (_ & E & Hne); injection E as <-; congruence ].
    + split.
      * intros E. injection E as <-. repeat split; [ discriminate ].
      * intros (_ & E & _). injection E as <-. reflexivity.
    + split; [ discriminate | intros (_ & E & _); discriminate ].
  - cbn. split; [ discriminate | intros (E & _); discriminate ].
Qed.

End ConversationProperties.

Lemma unavailable_client_records_user_only_witness :
  Client.is_available (ChatHandler.ai_client (ChatHandler.init unavailable_client)) = false /\
  (forall m, fst (ChatHandler.send_message (ChatHandler.init unavailable_client) m) = None) /\
  ChatHandler.conversation_history
    (send_messages (ChatHandler.init unavailable_client) ["hello"%string; "rings"%string])
  = (ChatHandler.conversation_history (ChatHandler.init unavailable_client)
     ++ map (fun m => {| Models.role := "user"; Models.content := m |})
          ["hello"%string; "rings"%string])%list /\
  fst (ChatHandler.get_recommendations no_float_text not_json
         (send_messages (ChatHandler.init unavailable_client)
            ["hello"%string; "rings"%string])) = None.
Proof.
  split; [ reflexivity | ].
  apply (unavailable_client_records_user_only no_float_text not_json
           (ChatHandler.init unavailable_client) ["hello"%string; "rings"%string]).
  reflexivity.
Defined.

(** ** The calculator form *)

Section InputFrameProperties.
Context {F : Type} `{PyFloat F}.
Import InputFrame.
Local Open Scope string_scope.

(** What [get_values] raises and returns. *)
Lemma get_values_inv (self : InputFrame F) :
  match get_values self with
  | inr v =>
      material_cost_var self = Holds (material_cost v) /\
      hours_worked_var self = Holds (hours_worked v) /\
      labor_rate_var self = Holds (labor_rate v) /\
      selling_price_var self = Holds (selling_price v) /\
      (exists u, uniqueness_var self = Holds u /\ uniqueness v = round u 1) /\
      (exists d, demand_var self = Holds d /\ demand v = round d 1) /\
      ltb (material_cost v) (of_int 0) = false /\
      ltb (hours_worked v) (of_int 0) = false /\
      ltb (labor_rate v) (of_int 0) = false /\
      ltb (selling_price v) (of_int 0) = false
  | inl (TclError message) =>
      In (Unreadable message)
         [ material_cost_var self; hours_worked_var self; labor_rate_var self;
           uniqueness_var self; demand_var self; selling_price_var self ]
  | inl (PyExn e) =>
      (forall var,
          In var [ material_cost_var self; hours_worked_var self; labor_rate_var self;
                   uniqueness_var self; demand_var self; selling_price_var self ] ->
          exists x, var = Holds x) /\
      exists field x,
        In (field, Holds x)
           [ ("Material cost", material_cost_var self);
             ("Hours worked", hours_worked_var self);
             ("Labor rate", labor_rate_var self);
             ("Selling price", selling_price_var self) ] /\
        ltb x (of_int 0) = true /\
        e = ValueError (field ++ " cannot be negative")
  end.
Proof.
  unfold get_values.
  destruct (material_cost_var self) as [ mc | t ]; cbn [var_get]; [ | cbn; tauto ].
  destruct (hours_worked_var self) as [ hw | t ]; cbn [var_get]; [ | cbn; tauto ].
  destruct (labor_rate_var self) as [ lr | t ]; cbn [var_get]; [ | cbn; tauto ].
  destruct (uniqueness_var self) as [ u | t ]; cbn [var_get]; [ | cbn; tauto ].
  destruct (demand_var self) as [ d | t ]; cbn [var_get]; [ | cbn; tauto ].
  destruct (selling_price_var self) as [ sp | t ]; cbn [var_get]; [ | cbn; tauto ].
  assert (Hall : forall var,
             In var [ Holds mc; Holds hw; Holds lr; Holds u; Holds d; Holds sp ] ->
             exists x, var = Holds x).
  { intros var Hin. cbn in Hin.
    repeat (destruct Hin as [ <- | Hin ]; [ eexists; reflexivity | ]). contradiction. }
  destruct (ltb mc (of_int 0)) eqn:E1.
  { split; [ exact Hall | ]. exists "Material cost", mc. cbn. tauto. }
  destruct (ltb hw (of_int 0)) eqn:E2.
  { split; [ exact Hall | ]. exists "Hours worked", hw. cbn. tauto. }
  destruct (ltb lr (of_int 0)) eqn:E3.
  { split; [ exact Hall | ]. exists "Labor rate", lr. cbn. tauto. }
  destruct (ltb sp (of_int 0)) eqn:E4.
  { split; [ exact Hall | ]. exists "Selling price", sp. cbn. tauto. }
  cbn. repeat split; try assumption; eexists; split; reflexivity.
Qed.

(** X16: what [get_values] checks.  It returns the values exactly when
    all six entries hold numbers and none of the three costs and the selling
    price is below 0; the ratings it returns are the entries rounded to one
    decimal, and are not checked against the range 1..10.  Text that is not a
    number raises the toolkit's [TclError] for the first such entry, before any
    sign is checked; otherwise the [ValueError] names a field that is negative
    and says it "cannot be negative". *)
Theorem get_values_outcomes :
  forall (self : InputFrame F),
    match get_values self with
    | inr v =>
        material_cost_var self = Holds (material_cost v) /\
        hours_worked_var self = Holds (hours_worked v) /\
        labor_rate_var self = Holds (labor_rate v) /\
        selling_price_var self = Holds (selling_price v) /\
        (exists u, uniqueness_var self = Holds u /\ uniqueness v = round u 1) /\
        (exists d, demand_var self = Holds d /\ demand v = round d 1) /\
        ltb (material_cost v) (of_int 0) = false /\
        ltb (hours_worked v) (of_int 0) = false /\
        ltb (labor_rate v) (of_int 0) = false /\
        ltb (selling_price v) (of_int 0) = false
    | inl (TclError message) =>
        In (Unreadable message)
           [ material_cost_var self; hours_worked_var self; labor_rate_var self;
             uniqueness_var self; demand_var self; selling_price_var self ]
    | inl (PyExn e) =>
        (forall var,
            In var [ material_cost_var self; hours_worked_var self; labor_rate_var self;
                     uniqueness_var self; demand_var self; selling_price_var self ] ->
            exists x, var = Holds x) /\
        exists field x,
          In (field, Holds x)
             [ ("Material cost", material_cost_var self);
               ("Hours worked", hours_worked_var self);
               ("Labor rate", labor_rate_var self);
               ("Selling price", selling_price_var self) ] /\
          ltb x (of_int 0) = true /\
          e = ValueError (field ++ " cannot be negative")
    end /\
    (forall recommended mc hw lr u d sp,
        ltb mc (of_int 0) = false -> ltb hw (of_int 0) = false ->
        ltb lr (of_int 0) = false -> ltb sp (of_int 0) = false ->
        get_values {| recommended_values := recommended;
                      material_cost_var := Holds mc;
                      hours_worked_var := Holds hw;
                      labor_rate_var := Holds lr;
                      uniqueness_var := Holds u;
                      demand_var := Holds d;
                      selling_price_var := Holds sp |}
        = inr {| material_cost := mc;
                 hours_worked := hw;
                 labor_rate := lr;
                 uniqueness := round u 1;
                 demand := round d 1;
                 selling_price := sp |}).
Proof.
  intros self. split; [ apply get_values_inv | ].
  intros recommended mc hw lr u d sp E1 E2 E3 E4.
  unfold get_values. cbn. rewrite E1, E2, E3, E4. reflexivity.
Qed.

(** X18: the slider stays on its scale.  With a scale whose upper end is
    not below its lower end, the position [_sync_slider_from_entry] gives the
    slider is never below the lower end nor above the upper end, whatever
    number the entry holds; and when the entry cannot be read the slider is
    left where it is. *)
Theorem slider_stays_on_scale :
  forall (O : PyOrderLaws F) (var : double_var F) (slider min_val max_val : F),
    ltb max_val min_val = false ->
    match var with
    | Unreadable _ => _sync_slider_from_entry var slider min_val max_val = slider
    | Holds _ =>
        ltb (_sync_slider_from_entry var slider min_val max_val) min_val = false /\
        ltb max_val (_sync_slider_from_entry var slider min_val max_val) = false
    end.
Proof.
  intros O var slider min_val max_val Hscale.
  destruct var as [ value | message ]; [ | reflexivity ].
  unfold _sync_slider_from_entry, clamp, py_max, py_min. cbn [var_get].
  destruct (ltb value max_val) eqn:E1.
  - destruct (ltb min_val value) eqn:E2.
    + split; [ apply ltb_asym; exact E2 | apply ltb_asym; exact E1 ].
    + split; [ apply ltb_irrefl | exact Hscale ].
  - destruct (ltb min_val max_val) eqn:E2.
    + split; [ apply ltb_asym; exact E2 | apply ltb_irrefl ].
    + split; [ apply ltb_irrefl | exact Hscale ].
Qed.

End InputFrameProperties.

Lemma slider_stays_on_scale_witness :
  ltb (F := float) (of_int 10) (of_int 1) = false /\
  ltb (InputFrame._sync_slider_from_entry
         (InputFrame.Holds (lit (F := float) (125 # 10))) (of_int 5) (of_int 1) (of_int 10))
      (of_int 1) = false /\
  ltb (of_int 10)
      (InputFrame._sync_slider_from_entry
         (InputFrame.Holds (lit (F := float) (125 # 10))) (of_int 5) (of_int 1) (of_int 10))
  = false.
Proof.
  split; [ reflexivity | ].
  apply (slider_stays_on_scale binary64_order
           (InputFrame.Holds (lit (F := float) (125 # 10))) (of_int 5) (of_int 1) (of_int 10)).
  reflexivity.
Defined.

Section AppProperties.
Context {F : Type} `{PyFloat F}.
Variable format_2f : F -> string.
Variable format_1f : F -> string.
Variable _create_price_breakdown_chart : Pricing.PricingResult F -> option ui_exn.
Import App.
Local Open Scope string_scope.


(** X17: what the Calculate button does.  [_calculate_price] never
    changes the calculator or the entries and shows at most one message box.
    When an entry cannot be read, the box is the generic "Error" one and the
    results stay as they were; when a cost or the selling price is negative,
    the box is "Invalid Input" with the message of [get_values].  Otherwise the
    price is calculated (no division raises) and the text of the results is
    updated, with "N/A" for the margin and the markup when the selling price
    entered equals 0; a box is then shown only if drawing the chart raised. *)
Theorem calculate_button_outcomes :
  forall (L : PyFloatLaws F) (self : App F),
    calculator (_calculate_price format_2f format_1f _create_price_breakdown_chart self) = calculator self /\
    input_frame (_calculate_price format_2f format_1f _create_price_breakdown_chart self) = input_frame self /\
    match InputFrame.get_values (input_frame self) with
    | inl (TclError message) =>
        result_frame (_calculate_price format_2f format_1f _create_price_breakdown_chart self) = result_frame self /\
        dialogs (_calculate_price format_2f format_1f _create_price_breakdown_chart self)
        = (dialogs self ++ [ ShowError "Error" ("An error occurred: " ++ message) ])%list
    | inl (PyExn e) =>
        result_frame (_calculate_price format_2f format_1f _create_price_breakdown_chart self) = result_frame self /\
        dialogs (_calculate_price format_2f format_1f _create_price_breakdown_chart self)
        = (dialogs self ++ [ ShowError "Invalid Input" (exn_str e) ])%list
    | inr v =>
        exists r,
          Pricing.calculate_price (calculator self)
            (InputFrame.material_cost v) (InputFrame.hours_worked v)
            (InputFrame.labor_rate v) (InputFrame.uniqueness v)
            (InputFrame.demand v) (Some (InputFrame.selling_price v)) = Ok r /\
          result_frame (_calculate_price format_2f format_1f _create_price_breakdown_chart self) = fst (ResultFrame.update_results format_2f format_1f
                 _create_price_breakdown_chart (result_frame self) r) /\
          (eqb (InputFrame.selling_price v) (of_int 0) = true ->
           ResultFrame.profit_margin_var (result_frame (_calculate_price format_2f format_1f _create_price_breakdown_chart self)) = "N/A" /\
           ResultFrame.markup_percentage_var (result_frame (_calculate_price format_2f format_1f _create_price_breakdown_chart self)) = "N/A") /\
          dialogs (_calculate_price format_2f format_1f _create_price_breakdown_chart self)
          = (dialogs self ++
             match _create_price_breakdown_chart r with
             | None => []
             | Some (PyExn (ValueError msg)) => [ ShowError "Invalid Input" msg ]
             | Some e => [ ShowError "Error" ("An error occurred: " ++ ui_exn_str e) ]
             end)%list
    end.
Proof.
  intros L self.
  unfold App._calculate_price, calculate_and_update.
  pose proof (get_values_inv (input_frame self)) as G.
  destruct (InputFrame.get_values (input_frame self)) as [ [ e | message ] | v ].
  - destruct G as (_ & field & x & _ & _ & ->). cbn. repeat split; reflexivity.
  - cbn. repeat split; reflexivity.
  - destruct (calculate_locals_total L (calculator self)
                (InputFrame.material_cost v) (InputFrame.hours_worked v)
                (InputFrame.labor_rate v) (InputFrame.uniqueness v)
                (InputFrame.demand v) (Some (InputFrame.selling_price v))) as (l & Hl).
    unfold Pricing.calculate_price. rewrite Hl. cbn [bind].
    remember (Pricing.rounded_result (InputFrame.material_cost v)
                (Some (InputFrame.selling_price v)) l) as r eqn:Er.
    unfold ResultFrame.update_results.
    assert (Hsp : Pricing.selling_price r = InputFrame.selling_price v)
      by (rewrite Er; reflexivity).
    clear Er.
    destruct (_create_price_breakdown_chart r) as [ [ e | message ] | ] eqn:Ec;
      [ destruct e | | ]; cbn;
      (split; [ reflexivity | ]); (split; [ reflexivity | ]);
      exists r; rewrite Ec;
      (split; [ reflexivity | ]); (split; [ reflexivity | ]);
      (split; [ intros E0; rewrite Hsp, E0; split; reflexivity | ]);
      rewrite ?app_nil_r; reflexivity.
Qed.

End AppProperties.

Section AppExample.
Local Open Scope string_scope.

Lemma calculate_button_outcomes_witness :
  App.calculator after_calculate = App.calculator new_calculator_tab /\
  App.input_frame after_calculate = App.input_frame new_calculator_tab /\
  match InputFrame.get_values (App.input_frame new_calculator_tab) with
  | inl (TclError message) =>
      App.result_frame after_calculate = App.result_frame new_calculator_tab /\
      App.dialogs after_calculate
      = (App.dialogs new_calculator_tab
         ++ [ App.ShowError "Error" ("An error occurred: " ++ message) ])%list
  | inl (PyExn e) =>
      App.result_frame after_calculate = App.result_frame new_calculator_tab /\
      App.dialogs after_calculate
      = (App.dialogs new_calculator_tab ++ [ App.ShowError "Invalid Input" (exn_str e) ])%list
  | inr v =>
      exists r,
        Pricing.calculate_price (App.calculator new_calculator_tab)
          (InputFrame.material_cost v) (InputFrame.hours_worked v)
          (InputFrame.labor_rate v) (InputFrame.uniqueness v)
          (InputFrame.demand v) (Some (InputFrame.selling_price v)) = Ok r /\
        App.result_frame after_calculate
        = fst (ResultFrame.update_results two_decimals one_decimal chart_drawn
                 (App.result_frame new_calculator_tab) r) /\
        (eqb (InputFrame.selling_price v) (of_int 0) = true ->
         ResultFrame.profit_margin_var (App.result_frame after_calculate) = "N/A" /\
         ResultFrame.markup_percentage_var (App.result_frame after_calculate)
         = "N/A") /\
        App.dialogs after_calculate
        = (App.dialogs new_calculator_tab ++
           match chart_drawn r with
           | None => []
           | Some (PyExn (ValueError msg)) => [ App.ShowError "Invalid Input" msg ]
           | Some e => [ App.ShowError "Error" ("An error occurred: " ++ ui_exn_str e) ]
           end)%list
  end.
Proof.
  exact (calculate_button_outcomes two_decimals one_decimal chart_drawn binary64_laws
           new_calculator_tab).
Defined.

End AppExample.

(** ** The main window *)

Section MainProperties.
Local Open Scope Z_scope.

(** X19: the main window is centred with a margin.  On any screen, the
    window [main] asks for is at most 1200 by 900, leaves at least 50 pixels
    of the screen free on each of its four sides, and is centred: the free
    space to its right and below exceeds the free space to its left and above
    by at most one pixel.  Its size is positive only on a screen wider and
    higher than 100 pixels. *)
Theorem main_window_centred :
  forall (screen_width screen_height : Z),
    let '(window_width, window_height, x, y) := Main.geometry screen_width screen_height in
    window_width <= 1200 /\ window_height <= 900 /\
    50 <= x /\ 50 <= y /\
    50 <= screen_width - (x + window_width) /\
    50 <= screen_height - (y + window_height) /\
    0 <= (screen_width - (x + window_width)) - x <= 1 /\
    0 <= (screen_height - (y + window_height)) - y <= 1 /\
    (0 < window_width <-> 100 < screen_width) /\
    (0 < window_height <-> 100 < screen_height).
Proof.
  intros screen_width screen_height. unfold Main.geometry. cbv zeta.
  pose proof (Z.div_mod (screen_width - Z.min 1200 (screen_width - 100)) 2 ltac:(lia)) as Dx.
  pose proof (Z.mod_pos_bound (screen_width - Z.min 1200 (screen_width - 100)) 2 ltac:(lia))
    as Mx.
  pose proof (Z.div_mod (screen_height - Z.min 900 (screen_height - 100)) 2 ltac:(lia)) as Dy.
  pose proof (Z.mod_pos_bound (screen_height - Z.min 900 (screen_height - 100)) 2 ltac:(lia))
    as My.
  lia.
Qed.

End MainProperties.
